(** * Module orchestration runtime: [Core] (src/core.ts) and its facade
    [ModuleJS] (src/unnamed/part_000).

    The development embeds the two classes as executable Rocq functions
    over an explicit program state and proves the lifecycle properties of
    the start-up pipeline (validate, init, start, render, ready), of the
    peer-view wiring and of the facade's teardown.

    The file has three parts: the embedding of the two source files,
    function by function; the definitions the statements and the proofs
    use, with a page and its modules for the examples; the lemmas and the
    theorems, each theorem of the specification under the number of its
    claim (C1, C2, ...), and further properties of the code under numbers
    of their own (X1, X2, ...).

    Conventions.
    - A JavaScript object is an insertion-ordered association list with
      string keys ([JsObject]); [for ... in] and [Object.values] walk it in
      that order.  Property names are ordinary names (no array indices, no
      [__proto__]).
    - A module instance lives in a heap and is named by a reference, so
      that the registry and every peer view alias the same instance.
    - A call into a collaborator (a module's constructor, [prepare],
      [destroy], [render], ...) is described by its outcome; an awaited
      promise that never settles is the completion [Hang].
    - Every observable call is appended to a trace, oldest first.
    - File names are strings of one-byte characters; the pattern of the
      module loop is matched by derivatives. *)

From Stdlib Require Import Ascii String List Bool ZArith Arith Lia.
Import ListNotations.
Open Scope string_scope.

Set Implicit Arguments.

(* ================================================================== *)
(** * JavaScript objects as insertion-ordered association lists *)

Module JsObject.

Definition obj (A : Type) : Type := list (string * A).

Definition keys {A} (o : obj A) : list string := map fst o.
Definition values {A} (o : obj A) : list A := map snd o.

(** [o[k]]: the own property, if there is one. *)
Fixpoint get {A} (o : obj A) (k : string) : option A :=
  match o with
  | [] => None
  | (k', v) :: o' => if String.eqb k' k then Some v else get o' k
  end.

(** [o[k] = v]: an existing key keeps its place, a new one goes last. *)
Fixpoint set {A} (o : obj A) (k : string) (v : A) : obj A :=
  match o with
  | [] => [(k, v)]
  | (k', v') :: o' =>
      if String.eqb k' k then (k, v) :: o' else (k', v') :: set o' k v
  end.

(** [delete o[k]]. *)
Fixpoint delete {A} (o : obj A) (k : string) : obj A :=
  match o with
  | [] => []
  | (k', v') :: o' =>
      if String.eqb k' k then delete o' k else (k', v') :: delete o' k
  end.

Definition hasOwnProperty {A} (o : obj A) (k : string) : bool :=
  match get o k with Some _ => true | None => false end.

End JsObject.
Import JsObject.

(* ================================================================== *)
(** * Values, errors and the helpers of [./utils] and [./dom] *)

(** Errors, by the classes the code tells apart: [CriticalError] is the
    class of [./errors/critical]. *)
Inductive error_class := PlainError | TypeError | CriticalError.

Record error := mkError { err_class : error_class; message : string }.

(** What a call into a collaborator does.  For a call that is awaited,
    the outcome is that of the promise it returns; for a call that is not,
    it is that of the call itself. *)
Inductive behaviour :=
| NotCallable                 (* the property is not a function *)
| Returns                     (* returns; awaited: the promise fulfils *)
| Throws (e : error)          (* throws; awaited: or the promise rejects *)
| NeverSettles.               (* never returns; awaited: or stays pending *)

(** The values a configuration can hold. *)
#[warnings="-register-all"] Inductive value :=
| VUndefined
| VNull
| VBool (b : bool)
| VNumber (n : Z)
| VString (s : string)
| VElement (id : string)               (* a DOM Element node *)
| VFunction (b : behaviour)            (* a function and what calling it does *)
| VObject (props : list (string * value)).

(** ToBoolean. *)
Definition truthy (v : value) : bool :=
  match v with
  | VUndefined | VNull => false
  | VBool b => b
  | VNumber n => negb (Z.eqb n 0)
  | VString s => negb (String.eqb s EmptyString)
  | VElement _ | VFunction _ | VObject _ => true
  end.

(** [v.k] on a value that is not null or undefined. *)
Definition prop (v : value) (k : string) : value :=
  match v with
  | VObject props => match get props k with Some x => x | None => VUndefined end
  | _ => VUndefined
  end.

(** A string inside a template literal. *)
Definition text_of (v : value) : string :=
  match v with VString s => s | _ => EmptyString end.

(** An error inside a template literal. *)
Definition error_text (e : error) : string :=
  (match err_class e with TypeError => "TypeError: " | _ => "Error: " end)
  ++ message e.

(** The own properties of an object, as [{...v}] copies them. *)
Definition own_properties (v : value) : obj value :=
  match v with VObject props => props | _ => [] end.

Definition nullish (v : value) : bool :=
  match v with VUndefined | VNull => true | _ => false end.

Module Utils.

(** Modelled from the spec: the type tests [_.isObject], [_.isString] and
    [_.isFunction] of [./utils], which is not among the sources; each is
    the test its name says, on the tag of the value. *)
Definition isObject (v : value) : bool :=
  match v with VObject _ => true | _ => false end.

Definition isString (v : value) : bool :=
  match v with VString _ => true | _ => false end.

Definition isFunction (v : value) : bool :=
  match v with VFunction _ => true | _ => false end.

End Utils.

Module Dom.

(** Modelled from the spec: [$.get] and [$.isElement] of [./dom], which is
    not among the sources: element lookup by identifier in a document
    (the identifiers of the elements it holds) and the element-type
    predicate. *)
Definition get (document : list string) (v : value) : value :=
  match v with
  | VString id =>
      if existsb (String.eqb id) document then VElement id else VNull
  | _ => VNull
  end.

Definition isElement (v : value) : bool :=
  match v with VElement _ => true | _ => false end.

End Dom.

(* ================================================================== *)
(** * Modules, instances and the state of a [Core] *)

(** A module class found under [./modules], by what [Core] and the facade
    can observe of it. *)
Record ModuleClass := mkModuleClass {
  displayName : string;
  construct : option error;        (* [new Module(...)] throws this error *)
  method : string -> behaviour;    (* what calling [instance.<name>()] does *)
  defined : string -> bool;        (* [instance.<name>] is an object *)
  methods : option (list string);  (* the names callable on [instance.methods] *)
}.

Definition ref := nat.

Record Instance := mkInstance {
  inst_class : ModuleClass;
  state : option (obj ref);        (* the peer view, once assigned *)
}.

Inductive promise := Pending | Fulfilled | Rejected (e : error).

Inductive event :=
| Constructed (name : string) (r : ref)
| Called (name meth : string) (args : list value)
| Settled (name meth : string) (b : behaviour)
| Logged (level text : string)
| OnReady
| OnFail (e : error)
| Unhandled (e : error)
| Delegated (meth : string).

Record Core := mkCore {
  config : obj value;
  moduleInstances : obj ref;
  heap : list Instance;
  isReady : promise;
  trace : list event;
}.

(** A promise settles once: later calls of its functions change nothing. *)
Definition settle (p s : promise) : promise :=
  match p with Pending => s | _ => p end.

(* ================================================================== *)
(** * Sequential code that may throw or wait for ever *)

Inductive completion (A : Type) :=
| Normal (a : A)
| Throw (e : error)
| Hang.
Arguments Normal {A} a.
Arguments Throw {A} e.
Arguments Hang {A}.

Definition M (S A : Type) : Type := S -> completion A * S.

Definition ret {S A} (a : A) : M S A := fun s => (Normal a, s).
Definition throw {S A} (e : error) : M S A := fun s => (Throw e, s).
Definition bind {S A B} (m : M S A) (k : A -> M S B) : M S B :=
  fun s =>
    match m s with
    | (Normal a, s') => k a s'
    | (Throw e, s') => (Throw e, s')
    | (Hang, s') => (Hang, s')
    end.
Definition try_catch {S A} (m : M S A) (h : error -> M S A) : M S A :=
  fun s =>
    match m s with
    | (Throw e, s') => h e s'
    | r => r
    end.
Definition get_state {S} : M S S := fun s => (Normal s, s).
Definition modify {S} (f : S -> S) : M S unit := fun s => (Normal tt, f s).

Declare Scope js_scope.
Delimit Scope js_scope with js.
Notation "x <- m ;; k" := (bind m (fun x => k))
  (at level 61, m at next level, right associativity) : js_scope.
Notation "m ;; k" := (bind m (fun _ => k))
  (at level 61, right associativity) : js_scope.
Open Scope js_scope.

Fixpoint forEach {S A} (l : list A) (f : A -> M S unit) : M S unit :=
  match l with
  | [] => ret tt
  | x :: l' => f x ;; forEach l' f
  end.

Definition typeError (text : string) : error := mkError TypeError text.

(** State updates of a [Core]. *)
Definition with_config (cfg : obj value) (c : Core) : Core :=
  mkCore cfg (moduleInstances c) (heap c) (isReady c) (trace c).
Definition with_moduleInstances (mi : obj ref) (c : Core) : Core :=
  mkCore (config c) mi (heap c) (isReady c) (trace c).
Definition with_heap (h : list Instance) (c : Core) : Core :=
  mkCore (config c) (moduleInstances c) h (isReady c) (trace c).
Definition with_isReady (p : promise) (c : Core) : Core :=
  mkCore (config c) (moduleInstances c) (heap c) p (trace c).
Definition emit (e : event) (c : Core) : Core :=
  mkCore (config c) (moduleInstances c) (heap c) (isReady c) (trace c ++ [e]).

Definition log (level text : string) : M Core unit :=
  modify (emit (Logged level text)).

(** Calling a function whose behaviour is [b], as method [meth] of the
    module [name]. *)
Definition invoke (name meth : string) (args : list value) (b : behaviour)
  : M Core unit :=
  match b with
  | NotCallable => throw (typeError (meth ++ " is not a function"))
  | Returns =>
      modify (emit (Called name meth args)) ;;
      modify (emit (Settled name meth Returns))
  | Throws e =>
      modify (emit (Called name meth args)) ;;
      modify (emit (Settled name meth (Throws e))) ;;
      throw e
  | NeverSettles =>
      modify (emit (Called name meth args)) ;;
      (fun c => (Hang, c))
  end.

(** [this.moduleInstances[name]], as the instance it refers to. *)
Definition instance_of (c : Core) (name : string) : option Instance :=
  match get (moduleInstances c) name with
  | Some r => nth_error (heap c) r
  | None => None
  end.

(** [this.moduleInstances[name].meth(args)]. *)
Definition call_module (name meth : string) (args : list value) : M Core unit :=
  c <- get_state ;;
  match instance_of c name with
  | None => throw (typeError ("Cannot read properties of undefined (reading '" ++ meth ++ "')"))
  | Some inst => invoke name meth args (method (inst_class inst) meth)
  end.

(* ================================================================== *)
(** * [Core] (src/core.ts) *)

Section CoreClass.

(** The module classes collected from [./modules], in the order of
    [contextRequire.keys()], and the document of the page. *)
Variable modules : list ModuleClass.
Variable document : list string.

(** [set configuration(config)] (core.ts, l. 113-133): [{...config}] for
    an object, and [{holder: config}] for anything else. *)
Definition set_configuration (cfg : value) : M Core unit :=
  if Utils.isObject cfg
  then modify (with_config (own_properties cfg))
  else modify (with_config [("holder", cfg)]).

(** [get configuration()] (l. 136-138). *)
Definition configuration (c : Core) : obj value := config c.

(** A property of [this.config]; an absent one reads as undefined. *)
Definition config_field (c : Core) (k : string) : value :=
  match get (config c) k with Some v => v | None => VUndefined end.

(** [validate()] (l. 145-162). *)
Definition validate : M Core unit :=
  c <- get_state ;;
  let holderId := config_field c "holderId" in
  let holder := config_field c "holder" in
  if truthy holderId && truthy holder then
    throw (mkError PlainError "«holderId» and «holder» param can't assign at the same time.")
  else if Utils.isString holder && negb (truthy (Dom.get document holder)) then
    throw (mkError PlainError
             ("element with ID «" ++ text_of holder ++ "» is missing. Pass correct holder's ID."))
  else if truthy holder && Utils.isObject holder && negb (Dom.isElement holder) then
    throw (mkError PlainError "«holder» value must be an Element node")
  else ret tt.

(** [new Module({config, eventsDispatcher})]: a fresh instance, unless the
    constructor throws. *)
Definition new_Module (Module : ModuleClass) : M Core ref :=
  match construct Module with
  | Some e => throw e
  | None =>
      c <- get_state ;;
      let r := length (heap c) in
      modify (with_heap (heap c ++ [mkInstance Module None])) ;;
      modify (emit (Constructed (displayName Module) r)) ;;
      ret r
  end.

(** [constructModules()] (l. 231-255). *)
Definition constructModules : M Core unit :=
  forEach modules (fun Module =>
    try_catch
      (r <- new_Module Module ;;
       c <- get_state ;;
       modify (with_moduleInstances (set (moduleInstances c) (displayName Module) r)))
      (fun e => log "warn" ("Module " ++ displayName Module ++ " skipped because"))).

(** [getModulesDiff(name)] (l. 278-292). *)
Definition getModulesDiff (mi : obj ref) (name : string) : obj ref :=
  fold_left
    (fun diff moduleName =>
       if String.eqb moduleName name then diff
       else match get mi moduleName with
            | Some r => set diff moduleName r
            | None => diff
            end)
    (keys mi) [].

(** [instance.state = diff] on the instance behind a reference. *)
Fixpoint set_state (h : list Instance) (r : ref) (diff : obj ref) : list Instance :=
  match h, r with
  | [], _ => []
  | i :: h', O => mkInstance (inst_class i) (Some diff) :: h'
  | i :: h', S r' => i :: set_state h' r' diff
  end.

(** [configureModules()] (l. 262-271). *)
Definition configureModules : M Core unit :=
  c0 <- get_state ;;
  forEach (keys (moduleInstances c0)) (fun name =>
    c <- get_state ;;
    if hasOwnProperty (moduleInstances c) name then
      match get (moduleInstances c) name with
      | Some r =>
          modify (with_heap (set_state (heap c) r (getModulesDiff (moduleInstances c) name)))
      | None => throw (typeError "Cannot set properties of undefined (setting 'state')")
      end
    else ret tt).

(** [init()] (l. 170-180). *)
Definition init : M Core unit :=
  constructModules ;; configureModules.

Definition modulesToPrepare : list string :=
  [ "Tools"; "UI"; "BlockManager"; "Paste"; "BlockSelection";
    "RectangleSelection"; "CrossBlockSelection"; "ReadOnly" ].

Definition is_critical (e : error) : bool :=
  match err_class e with CriticalError => true | _ => false end.

(** One link of the promise chain of [start()] (l. 201-216). *)
Definition prepare_step (module : string) : M Core unit :=
  try_catch
    (call_module module "prepare" [])
    (fun e =>
       if is_critical e then throw (mkError PlainError (message e))
       else log "warn" ("Module " ++ module ++ " was skipped because of %o")).

(** [start()] (l. 188-219): [reduce] chains the links with [then], so a
    link runs when the one before it has fulfilled and is skipped once one
    has rejected. *)
Definition start : M Core unit :=
  fold_left (fun promise module => promise ;; prepare_step module)
            modulesToPrepare (ret tt).

(** [render()] (l. 224-226): the callee is read before the argument. *)
Definition render : M Core unit :=
  c <- get_state ;;
  match instance_of c "Renderer" with
  | None => throw (typeError "Cannot read properties of undefined (reading 'render')")
  | Some Renderer =>
      let data := config_field c "data" in
      if nullish data then
        throw (typeError "Cannot read properties of undefined (reading 'blocks')")
      else invoke "Renderer" "render" [prop data "blocks"]
                  (method (inst_class Renderer) "render")
  end.

(** The caret placement requested by [autofocus] (l. 86-89); its
    arguments are the modules' own data. *)
Definition focus : M Core unit :=
  c <- get_state ;;
  match instance_of c "Caret" with
  | None => throw (typeError "Cannot read properties of undefined (reading 'setToBlock')")
  | Some Caret =>
      match instance_of c "BlockManager" with
      | None => throw (typeError "Cannot read properties of undefined (reading 'blocks')")
      | Some BlockManager =>
          if negb (defined (inst_class BlockManager) "blocks") then
            throw (typeError "Cannot read properties of undefined (reading '0')")
          else if negb (defined (inst_class Caret) "positions") then
            throw (typeError "Cannot read properties of undefined (reading 'START')")
          else
            invoke "Caret" "setToBlock" [] (method (inst_class Caret) "setToBlock") ;;
            invoke "BlockManager" "highlightCurrentNode" []
                   (method (inst_class BlockManager) "highlightCurrentNode")
      end
  end.

(** The two functions of the [isReady] promise (l. 65-70). *)
Definition onReady : M Core unit :=
  modify (fun c => emit OnReady (with_isReady (settle (isReady c) Fulfilled) c)).

Definition onFail (e : error) : M Core unit :=
  modify (fun c => emit (OnFail e) (with_isReady (settle (isReady c) (Rejected e)) c)).

(** The callback of [Promise.resolve().then] (l. 73-81), up to the call
    of [setTimeout]. *)
Definition boot (cfg : value) : M Core unit :=
  set_configuration cfg ;;
  validate ;;
  init ;;
  start ;;
  log "log" "I'm ready!".

(** The callback handed to [setTimeout] (l. 82-96). *)
Definition on_timeout : M Core unit :=
  render ;;
  c <- get_state ;;
  (if truthy (config_field c "autofocus") then focus else ret tt) ;;
  onReady.

(** The handler given to [catch] (l. 98-105). *)
Definition on_catch (e : error) : M Core unit :=
  log "error" (".js is not ready because of " ++ error_text e) ;;
  onFail e.

Definition empty_Core : Core := mkCore [] [] [] Pending [].

(** [new Core(config)] (l. 61-106), run until nothing is left to run.  The timer
    callback is an async function whose promise nobody handles: an error
    thrown in it reaches neither [catch] nor [onFail]. *)
Definition new_Core (cfg : value) : Core :=
  match boot cfg empty_Core with
  | (Normal _, c) =>
      match on_timeout c with
      | (Throw e, c') => emit (Unhandled e) c'
      | (_, c') => c'
      end
  | (Throw e, c) => snd (on_catch e c)
  | (Hang, c) => c
  end.

End CoreClass.

(* ================================================================== *)
(** * Module discovery (core.ts, l. 15-27) and the class of a module
    (l. 236) *)

Module Regex.

(** Regular expressions over characters; [Void] and [Alt] are there for
    the derivatives. *)
Inductive regex :=
| Void
| Eps
| Class (p : Ascii.ascii -> bool)
| Cat (r1 r2 : regex)
| Alt (r1 r2 : regex)
| Star (r : regex).

Fixpoint nullable (r : regex) : bool :=
  match r with
  | Void => false
  | Eps => true
  | Class _ => false
  | Cat r1 r2 => nullable r1 && nullable r2
  | Alt r1 r2 => nullable r1 || nullable r2
  | Star _ => true
  end.

(** What is left of [r] to match after the character [a]. *)
Fixpoint deriv (a : Ascii.ascii) (r : regex) : regex :=
  match r with
  | Void | Eps => Void
  | Class p => if p a then Eps else Void
  | Cat r1 r2 =>
      if nullable r1
      then Alt (Cat (deriv a r1) r2) (deriv a r2)
      else Cat (deriv a r1) r2
  | Alt r1 r2 => Alt (deriv a r1) (deriv a r2)
  | Star r1 => Cat (deriv a r1) (Star r1)
  end.

(** [s.match(/^r$/)] is not null: the whole of [s] matches [r]. *)
Fixpoint matches (r : regex) (s : string) : bool :=
  match s with
  | EmptyString => nullable r
  | String a s' => matches (deriv a r) s'
  end.

End Regex.

(** The character [c]. *)
Definition char (c : Ascii.ascii) : Regex.regex := Regex.Class (Ascii.eqb c).

(** The class [\w]: a letter, a digit or an underscore. *)
Definition word (a : Ascii.ascii) : bool :=
  let n := Ascii.nat_of_ascii a in
  (Nat.leb 48 n && Nat.leb n 57) || (Nat.leb 65 n && Nat.leb n 90)
  || (Nat.leb 97 n && Nat.leb n 122) || Nat.eqb n 95.

(** The classes [[^_]], [[\w/]] and [[tj]]. *)
Definition not_underscore (a : Ascii.ascii) : bool := negb (Ascii.eqb a "_"%char).
Definition word_or_slash (a : Ascii.ascii) : bool := word a || Ascii.eqb a "/"%char.
Definition t_or_j (a : Ascii.ascii) : bool := Ascii.eqb a "t"%char || Ascii.eqb a "j"%char.

(** The pattern of l. 24, between its anchors: a dot, a slash, a character
    that is not an underscore, word characters and slashes, a dot, [t] or
    [j], and [s]. *)
Definition module_file : Regex.regex :=
  Regex.Cat (char "."%char)
 (Regex.Cat (char "/"%char)
 (Regex.Cat (Regex.Class not_underscore)
 (Regex.Cat (Regex.Star (Regex.Class word_or_slash))
 (Regex.Cat (char "."%char)
 (Regex.Cat (Regex.Class t_or_j)
            (char "s"%char)))))).

(** The loop of l. 19-27: the modules of the file names that match, in the
    order of [contextRequire.keys()]. *)
Definition discover {A} (keys : list string) (contextRequire : string -> A) : list A :=
  fold_left
    (fun modules filename =>
       if Regex.matches module_file filename
       then (modules ++ [contextRequire filename])%list
       else modules)
    keys [].

(** What [contextRequire(filename)] gives: a class, or the object of the
    file's exports, with the class as its [default] if it has one. *)
Inductive exported :=
| ExportsClass (cls : ModuleClass)
| ExportsObject (default : option ModuleClass).

(** [_.isFunction(module) ? module : module.default] (l. 236). *)
Definition class_of (module : exported) : option ModuleClass :=
  match module with
  | ExportsClass cls => Some cls
  | ExportsObject default => default
  end.

(** [constructModules()] on what was required (l. 231-255).  With no class,
    reading [Module.displayName] throws, in the [try] and again in the
    [catch]. *)
Definition constructModules_of (modules : list exported) : M Core unit :=
  forEach modules (fun module =>
    let Module := class_of module in
    try_catch
      (match Module with
       | Some cls =>
           r <- new_Module cls ;;
           c <- get_state ;;
           modify (with_moduleInstances (set (moduleInstances c) (displayName cls) r))
       | None =>
           throw (typeError "Cannot read properties of undefined (reading 'displayName')")
       end)
      (fun e =>
         match Module with
         | Some cls => log "warn" ("Module " ++ displayName cls ++ " skipped because")
         | None =>
             throw (typeError "Cannot read properties of undefined (reading 'displayName')")
         end)).

(* ================================================================== *)
(** * The facade [ModuleJS] (src/unnamed/part_000) *)

(** What the facade's prototype link points to. *)
Inductive prototype :=
| ModuleJS_prototype                 (* the class prototype, with [exportAPI] *)
| API_methods (names : list string)  (* [API.methods], with its callable names *)
| NullPrototype.

(** The values of the facade's own properties. *)
Inductive field :=
| FIsReady
| FConfiguration (cfg : obj value)
| FDestroy
| FUndefined.

Record ModuleJS := mkModuleJS {
  core : Core;              (* the [Core] built by the constructor *)
  Module_bound : bool;      (* [exportAPI]'s variable [Module] is not null *)
  own : obj field;          (* the own properties of [this] *)
  proto : prototype;
  ready : promise;          (* the promise stored in [this.isReady] *)
}.

Definition with_core (c : Core) (w : ModuleJS) : ModuleJS :=
  mkModuleJS c (Module_bound w) (own w) (proto w) (ready w).
Definition with_Module_bound (b : bool) (w : ModuleJS) : ModuleJS :=
  mkModuleJS (core w) b (own w) (proto w) (ready w).
Definition with_own (o : obj field) (w : ModuleJS) : ModuleJS :=
  mkModuleJS (core w) (Module_bound w) o (proto w) (ready w).
Definition with_proto (p : prototype) (w : ModuleJS) : ModuleJS :=
  mkModuleJS (core w) (Module_bound w) (own w) p (ready w).
Definition with_ready (p : promise) (w : ModuleJS) : ModuleJS :=
  mkModuleJS (core w) (Module_bound w) (own w) (proto w) p.

(** Code of [Core] run from the facade. *)
Definition on_core {A} (m : M Core A) : M ModuleJS A :=
  fun w => let (r, c) := m (core w) in (r, with_core c w).

Definition fieldsToExport : list string := [ "configuration" ].

(** [Module[field]]. *)
Definition Core_field (c : Core) (name : string) : field :=
  if String.eqb name "configuration" then FConfiguration (configuration c)
  else if String.eqb name "config" then FConfiguration (config c)
  else FUndefined.

(** The names [for (const field in this)] goes through. *)
Definition for_in (w : ModuleJS) : list string :=
  keys (own w) ++
  match proto w with
  | API_methods names => names
  | ModuleJS_prototype | NullPrototype => []
  end.

(** The body of one round of [Object.values(...).forEach] in [destroy]
    (part_000, l. 79-84). *)
Definition destroy_instance (r : ref) : M ModuleJS unit :=
  w <- get_state ;;
  match nth_error (heap (core w)) r with
  | None => throw (typeError "Cannot read properties of undefined (reading 'destroy')")
  | Some moduleInstance =>
      let cls := inst_class moduleInstance in
      (match method cls "destroy" with
       | NotCallable => ret tt
       | b => on_core (invoke (displayName cls) "destroy" [] b)
       end) ;;
      if defined cls "listeners" then
        on_core (invoke (displayName cls) "listeners.removeAll" []
                        (method cls "listeners.removeAll"))
      else throw (typeError "Cannot read properties of undefined (reading 'removeAll')")
  end.

(** The closure [destroy] made by [exportAPI] (l. 77-95). *)
Definition destroy : M ModuleJS unit :=
  w <- get_state ;;
  if negb (Module_bound w) then
    throw (typeError "Cannot read properties of null (reading 'moduleInstances')")
  else
    forEach (values (moduleInstances (core w))) destroy_instance ;;
    modify (with_Module_bound false) ;;
    w1 <- get_state ;;
    forEach (for_in w1) (fun name =>
      w2 <- get_state ;;
      if hasOwnProperty (own w2) name
      then modify (with_own (delete (own w2) name))
      else ret tt) ;;
    modify (with_proto NullPrototype).

(** [exportAPI(Module)] (l. 75-107). *)
Definition exportAPI : M ModuleJS unit :=
  forEach fieldsToExport (fun name =>
    modify (fun w => with_own (set (own w) name (Core_field (core w) name)) w)) ;;
  modify (fun w => with_own (set (own w) "destroy" FDestroy) w) ;;
  w <- get_state ;;
  match instance_of (core w) "API" with
  | None => throw (typeError "Cannot read properties of undefined (reading 'methods')")
  | Some API =>
      match methods (inst_class API) with
      | None => throw (typeError "Object prototype may only be an Object or null")
      | Some names => modify (with_proto (API_methods names))
      end
  end ;;
  modify (fun w => with_own (delete (own w) "exportAPI") w).

(** The [onReady] of the constructor (l. 44-51): the caller's, or the
    empty function. *)
Definition user_onReady (cfg : value) : behaviour :=
  if Utils.isObject cfg && Utils.isFunction (prop cfg "onReady") then
    match prop cfg "onReady" with
    | VFunction b => b
    | _ => Returns
    end
  else Returns.

(** [new ModuleJS(configuration)] (l. 39-68), run until nothing is left
    to run. *)
Definition new_ModuleJS (modules : list ModuleClass) (document : list string)
    (cfg : value) : ModuleJS :=
  let this :=
    mkModuleJS (new_Core modules document cfg) true
               [("isReady", FIsReady)] ModuleJS_prototype Pending in
  match isReady (core this) with
  | Fulfilled =>
      match (exportAPI ;;
             on_core (invoke "configuration" "onReady" [] (user_onReady cfg))) this with
      | (Normal _, w) => with_ready Fulfilled w
      | (Throw e, w) => with_ready (Rejected e) w
      | (Hang, w) => w
      end
  | Rejected e => with_ready (Rejected e) this
  | Pending => this
  end.

(** What [facade.name] resolves to. *)
Inductive resolved :=
| ROwn (f : field)
| RDelegated
| RClassMethod
| RUndefined.

Definition resolve (w : ModuleJS) (name : string) : resolved :=
  match get (own w) name with
  | Some f => ROwn f
  | None =>
      match proto w with
      | API_methods names =>
          if existsb (String.eqb name) names then RDelegated else RUndefined
      | ModuleJS_prototype =>
          if String.eqb name "exportAPI" then RClassMethod else RUndefined
      | NullPrototype => RUndefined
      end
  end.

(** [facade.name()], a call from outside with no argument. *)
Definition facade_call (name : string) : M ModuleJS unit :=
  w <- get_state ;;
  match resolve w name with
  | ROwn FDestroy => destroy
  | RDelegated => on_core (modify (emit (Delegated name)))
  | RClassMethod =>
      throw (typeError "Cannot read properties of undefined (reading 'configuration')")
  | ROwn _ | RUndefined => throw (typeError (name ++ " is not a function"))
  end.

(* ================================================================== *)
(** * Definitions for the statements and the proofs

    What the loops of [Core] compute, written as functions of their input;
    readings of the trace; and the shapes of code that only logs. *)

(** The registry, the heap and the trace of [constructModules()], computed
    from the list of classes: the counterpart of the loop, used to reason
    about it. *)
Definition constructs (Module : ModuleClass) : bool :=
  match construct Module with None => true | Some _ => false end.

Fixpoint built (mi : obj ref) (n : nat) (l : list ModuleClass) : obj ref :=
  match l with
  | [] => mi
  | Module :: l' =>
      if constructs Module then built (set mi (displayName Module) n) (S n) l'
      else built mi n l'
  end.

Fixpoint construct_events (n : nat) (l : list ModuleClass) : list event :=
  match l with
  | [] => []
  | Module :: l' =>
      if constructs Module
      then Constructed (displayName Module) n :: construct_events (S n) l'
      else Logged "warn" ("Module " ++ displayName Module ++ " skipped because")
           :: construct_events n l'
  end.

Definition fresh (l : list ModuleClass) : list Instance :=
  map (fun Module => mkInstance Module None) (filter constructs l).

(** The heap after [configureModules()] has gone through [names]. *)
Fixpoint wire (mi : obj ref) (h : list Instance) (names : list string)
  : list Instance :=
  match names with
  | [] => h
  | name :: names' =>
      match get mi name with
      | Some r => wire mi (set_state h r (getModulesDiff mi name)) names'
      | None => wire mi h names'
      end
  end.

Definition restate (diff : obj ref) (i : Instance) : Instance :=
  mkInstance (inst_class i) (Some diff).

(** References name at most one module each. *)
Definition injective (mi : obj ref) : Prop :=
  forall n1 n2 r, get mi n1 = Some r -> get mi n2 = Some r -> n1 = n2.

Definition emit_all (seg : list event) (c : Core) : Core :=
  mkCore (config c) (moduleInstances c) (heap c) (isReady c) (trace c ++ seg).

(** What [this.moduleInstances[name].prepare()] does: a module that is not
    there has nothing to call. *)
Definition prep (c : Core) (name : string) : behaviour :=
  match instance_of c name with
  | Some inst => method (inst_class inst) "prepare"
  | None => NotCallable
  end.

Definition skipped (name : string) : event :=
  Logged "warn" ("Module " ++ name ++ " was skipped because of %o").

(** The events and the completion of one link of the chain. *)
Definition step_events (name : string) (b : behaviour) : list event :=
  match b with
  | NotCallable => [skipped name]
  | Returns => [Called name "prepare" []; Settled name "prepare" Returns]
  | Throws e =>
      [Called name "prepare" []; Settled name "prepare" (Throws e)] ++
      (if is_critical e then [] else [skipped name])
  | NeverSettles => [Called name "prepare" []]
  end.

Definition step_result (b : behaviour) : completion unit :=
  match b with
  | NotCallable | Returns => Normal tt
  | Throws e =>
      if is_critical e then Throw (mkError PlainError (message e)) else Normal tt
  | NeverSettles => Hang
  end.

Fixpoint chain_events (c : Core) (l : list string) : list event :=
  match l with
  | [] => []
  | name :: l' =>
      step_events name (prep c name) ++
      match step_result (prep c name) with
      | Normal _ => chain_events c l'
      | _ => []
      end
  end.

Fixpoint chain_result (c : Core) (l : list string) : completion unit :=
  match l with
  | [] => Normal tt
  | name :: l' =>
      match step_result (prep c name) with
      | Normal _ => chain_result c l'
      | r => r
      end
  end.

(** The modules whose [prepare] was called, in the order of the calls. *)
Definition prepare_calls (tr : list event) : list string :=
  flat_map (fun ev =>
              match ev with
              | Called name meth _ => if String.eqb meth "prepare" then [name] else []
              | _ => []
              end) tr.

(** A module that is in the registry and has a [prepare] to call. *)
Definition preparable (c : Core) (name : string) : bool :=
  match prep c name with NotCallable => false | _ => true end.

(** Going through a trace with the module whose [prepare] has been called
    and has not settled yet: [None] as soon as a [prepare] is called while
    another one is still unsettled, or settles without having been called;
    otherwise the module that is unsettled at the end, if any. *)
Fixpoint sequenced (unsettled : option string) (tr : list event)
  : option (option string) :=
  match tr with
  | [] => Some unsettled
  | Called name meth _ :: tr' =>
      if String.eqb meth "prepare" then
        match unsettled with
        | None => sequenced (Some name) tr'
        | Some _ => None
        end
      else sequenced unsettled tr'
  | Settled name meth _ :: tr' =>
      if String.eqb meth "prepare" then
        match unsettled with
        | Some name' => if String.eqb name name' then sequenced None tr' else None
        | None => None
        end
      else sequenced unsettled tr'
  | _ :: tr' => sequenced unsettled tr'
  end.

(** The link of [name] has run: its [prepare] was called or, when there
    is none to call, the warning of the [catch] was logged. *)
Definition attempted (c : Core) (seg : list event) (name : string) : Prop :=
  if preparable c name then In (Called name "prepare" []) seg
  else In (skipped name) seg.

(** How many links of the chain have run. *)
Fixpoint links_run (c : Core) (l : list string) : nat :=
  match l with
  | [] => 0
  | name :: l' =>
      S (match step_result (prep c name) with
         | Normal _ => links_run c l'
         | _ => 0
         end)
  end.

(** The state after [this.configuration = config]. *)
Definition configured (cfg : value) : Core :=
  snd (set_configuration cfg empty_Core).

(** Calls of the two functions of the [isReady] promise. *)
Definition is_settle (ev : event) : bool :=
  match ev with OnReady | OnFail _ => true | _ => false end.

Definition settle_calls (tr : list event) : list event := filter is_settle tr.

(** Events of a [prepare]. *)
Definition is_prepare (ev : event) : bool :=
  match ev with
  | Called _ meth _ | Settled _ meth _ => String.eqb meth "prepare"
  | _ => false
  end.

(** Events that neither settle [isReady] nor belong to a [prepare]. *)
Definition quiet (ev : event) : bool := negb (is_settle ev) && negb (is_prepare ev).

(** The completion and the events of [invoke]. *)
Definition invoke_result (meth : string) (b : behaviour) : completion unit :=
  match b with
  | NotCallable => Throw (typeError (meth ++ " is not a function"))
  | Returns => Normal tt
  | Throws e => Throw e
  | NeverSettles => Hang
  end.

Definition invoke_events (name meth : string) (args : list value) (b : behaviour)
  : list event :=
  match b with
  | NotCallable => []
  | Returns => [Called name meth args; Settled name meth Returns]
  | Throws e => [Called name meth args; Settled name meth (Throws e)]
  | NeverSettles => [Called name meth args]
  end.

(** Code that only appends quiet events to the trace. *)
Definition quietly {A} (m : M Core A) : Prop :=
  forall c, exists r seg, m c = (r, emit_all seg c) /\ forallb quiet seg = true.

Definition not_ready_log (e : error) : event :=
  Logged "error" (".js is not ready because of " ++ error_text e).

Definition exclusive_fields_error : error :=
  mkError PlainError "«holderId» and «holder» param can't assign at the same time.".

(** Code of the facade that changes nothing but its [Core]. *)
Definition core_only {A} (m : M ModuleJS A) : Prop :=
  forall w, exists r c', m w = (r, with_core c' w).

(** What the loop over the names of [this] leaves of its own properties. *)
Definition strip (names : list string) (o : obj field) : obj field :=
  fold_left (fun o name => if hasOwnProperty o name then delete o name else o)
            names o.

(** The disposal of the instance behind [r] returns: its [destroy], if
    it has one, returns, and so does [removeAll] of its [listeners]. *)
Definition disposes (c : Core) (r : ref) : bool :=
  match nth_error (heap c) r with
  | Some moduleInstance =>
      let cls := inst_class moduleInstance in
      match method cls "destroy" with
      | NotCallable | Returns => true
      | _ => false
      end
      && defined cls "listeners"
      && match method cls "listeners.removeAll" with
         | Returns => true
         | _ => false
         end
  | None => false
  end.

(** The peer view of the instance behind a reference. *)
Definition state_of (c : Core) (r : ref) : option (obj ref) :=
  match nth_error (heap c) r with
  | Some inst => state inst
  | None => None
  end.

(** The events of the render phase when it succeeds: [seg] are those of
    the caret placement. *)
Definition render_events (blocks : value) (seg : list event) : list event :=
  (Called "Renderer" "render" [blocks] ::
   Settled "Renderer" "render" Returns :: seg ++ [OnReady])%list.

(** The events of a run in which everything succeeds. *)
Definition ready_events (c2 : Core) (blocks : value) (seg : list event)
  : list event :=
  (chain_events c2 modulesToPrepare ++
   Logged "log" "I'm ready!" :: render_events blocks seg)%list.

(** The strings a regular expression stands for. *)
Inductive in_language : Regex.regex -> string -> Prop :=
| lang_eps : in_language Regex.Eps EmptyString
| lang_class p a :
    p a = true -> in_language (Regex.Class p) (String a EmptyString)
| lang_cat r1 r2 s1 s2 :
    in_language r1 s1 -> in_language r2 s2 ->
    in_language (Regex.Cat r1 r2) (s1 ++ s2)
| lang_alt_l r1 r2 s : in_language r1 s -> in_language (Regex.Alt r1 r2) s
| lang_alt_r r1 r2 s : in_language r2 s -> in_language (Regex.Alt r1 r2) s
| lang_star_nil r : in_language (Regex.Star r) EmptyString
| lang_star_app r s1 s2 :
    in_language r s1 -> in_language (Regex.Star r) s2 ->
    in_language (Regex.Star r) (s1 ++ s2).

(** Every character of a string is in a class. *)
Fixpoint all_chars (p : Ascii.ascii -> bool) (s : string) : bool :=
  match s with
  | EmptyString => true
  | String a s' => p a && all_chars p s'
  end.

(** A file name made as the pattern of l. 24 says: [./], a first
    character, a body, a dot, [x] and [s]. *)
Definition file_name (c : Ascii.ascii) (body : string) (x : Ascii.ascii) : string :=
  String "."%char (String "/"%char
    (String c (body ++ String "."%char (String x (String "s"%char EmptyString))))).

(** The calls into modules that [Core] makes, and the events a [Core] can
    add to the trace. *)
Definition core_call (name meth : string) : bool :=
  (String.eqb meth "prepare" && existsb (String.eqb name) modulesToPrepare)
  || (String.eqb name "Renderer" && String.eqb meth "render")
  || (String.eqb name "Caret" && String.eqb meth "setToBlock")
  || (String.eqb name "BlockManager" && String.eqb meth "highlightCurrentNode").

Definition core_event (ev : event) : bool :=
  match ev with
  | Called name meth _ | Settled name meth _ => core_call name meth
  | Delegated _ => false
  | Constructed _ _ | Logged _ _ | OnReady | OnFail _ | Unhandled _ => true
  end.

(** Code that appends to the trace, and only events that satisfy [P]. *)
Definition appends (P : event -> bool) {A} (m : M Core A) : Prop :=
  forall c, exists seg,
    trace (snd (m c)) = (trace c ++ seg)%list /\ forallb P seg = true.

(** The errors of [validate()] about the [holder]. *)
Definition missing_element_error (id : string) : error :=
  mkError PlainError ("element with ID «" ++ id ++ "» is missing. Pass correct holder's ID.").

Definition not_an_element_error : error :=
  mkError PlainError "«holder» value must be an Element node".

(** The calls of one round of the teardown loop, on the instance behind
    [r]: its [destroy], if it has one, and [removeAll] of its listeners. *)
Definition dispose_events (c : Core) (r : ref) : list event :=
  match nth_error (heap c) r with
  | Some moduleInstance =>
      let cls := inst_class moduleInstance in
      (match method cls "destroy" with
       | NotCallable => []
       | b => invoke_events (displayName cls) "destroy" [] b
       end ++
       invoke_events (displayName cls) "listeners.removeAll" []
                     (method cls "listeners.removeAll"))%list
  | None => []
  end.

(** The own properties of a facade after [exportAPI]. *)
Definition exported_fields (c : Core) : obj field :=
  [("isReady", FIsReady); ("configuration", FConfiguration (config c));
   ("destroy", FDestroy)].

(** The events of the caller's [onReady] when it returns. *)
Definition user_onReady_events : list event :=
  [Called "configuration" "onReady" []; Settled "configuration" "onReady" Returns].

(** Events of the construction of a module, and events that are none. *)
Definition is_construction (ev : event) : bool :=
  match ev with Constructed _ _ => true | _ => false end.

Definition after_construction (ev : event) : bool := negb (is_construction ev).

(** The names of the facade's own properties after [exportAPI]. *)
Definition exported_names : list string := ["isReady"; "configuration"; "destroy"].

(* ================================================================== *)
(** * A page and its modules, for the examples *)

(** A module all of whose methods return. *)
Definition plain (name : string) : ModuleClass :=
  mkModuleClass name None (fun _ => Returns) (fun _ => true)
                (Some ["blocks"; "caret"; "save"]).

(** A module whose [prepare] throws [e]. *)
Definition failing (name : string) (e : error) : ModuleClass :=
  mkModuleClass name None
                (fun meth => if String.eqb meth "prepare" then Throws e else Returns)
                (fun _ => true) None.

(** The modules of the fixed list, with those [render()], [exportAPI] and
    the caret placement ask for. *)
Definition editor_modules : list ModuleClass :=
  map plain ("Renderer" :: "API" :: "Caret" :: modulesToPrepare).

(** The same, where the [prepare] of the module [name] throws [e]. *)
Definition editor_modules_failing (name : string) (e : error) : list ModuleClass :=
  map (fun Module =>
         if String.eqb (displayName Module) name then failing name e else Module)
      editor_modules.

Definition page : list string := [ "editor-holder" ].

Definition holder_only : value :=
  VObject [("holder", VString "editor-holder")].

Definition with_payload : value :=
  VObject [("holder", VString "editor-holder");
           ("data", VObject [("blocks", VObject [])])].

Definition paste_error : error := mkError PlainError "clipboard is not available".
Definition tools_error : error := mkError CriticalError "tools are not configured".

(** The state in which [start()] runs when the [prepare] of Paste throws a
    plain error. *)
Definition before_start_paste_fails : Core :=
  snd (init (editor_modules_failing "Paste" paste_error)
            (with_config [("holder", VString "editor-holder")] empty_Core)).

Definition both_mount_fields : value :=
  VObject [("holderId", VString "a"); ("holder", VString "b")].

(** Two classes called Paste, both of which construct. *)
Definition paste_twice : list ModuleClass :=
  [ plain "Paste"; failing "Paste" paste_error ].

(** The facade of the page, ready. *)
Definition live_facade : ModuleJS := new_ModuleJS editor_modules page with_payload.

(** The page, with a payload and the caret asked for. *)
Definition with_payload_and_autofocus : value :=
  VObject [("holder", VString "editor-holder");
           ("data", VObject [("blocks", VObject [])]);
           ("autofocus", VBool true)].

(** The modules of the page, where [render] of the Renderer rejects. *)
Definition render_error : error := mkError PlainError "cannot render the blocks".

Definition rejecting_renderer : ModuleClass :=
  mkModuleClass "Renderer" None
                (fun meth => if String.eqb meth "render" then Throws render_error
                             else Returns)
                (fun _ => true) None.

Definition editor_modules_render_fails : list ModuleClass :=
  rejecting_renderer :: map plain ("API" :: "Caret" :: modulesToPrepare).

(** The state in which [start()] runs when the [prepare] of Tools throws a
    CriticalError, and the one in which no module was found. *)
Definition before_start_tools_fatal : Core :=
  snd (init (editor_modules_failing "Tools" tools_error) (configured with_payload)).

Definition before_start_no_modules : Core :=
  snd (init [] (configured with_payload)).

(** A configuration that is the identifier of an element the page does
    not have. *)
Definition missing_holder : value := VString "nowhere".

(** The modules of the page without the API module. *)
Definition editor_modules_without_API : list ModuleClass :=
  map plain ("Renderer" :: "Caret" :: modulesToPrepare).

(** The modules of the page, where [destroy] of Paste throws, and the
    facade of that page, ready. *)
Definition editor_modules_destroy_fails : list ModuleClass :=
  map (fun Module =>
         if String.eqb (displayName Module) "Paste"
         then mkModuleClass "Paste" None
                (fun meth => if String.eqb meth "destroy" then Throws paste_error
                             else Returns)
                (fun _ => true) None
         else Module)
      editor_modules.

Definition stuck_facade : ModuleJS :=
  new_ModuleJS editor_modules_destroy_fails page with_payload.

(* ================================================================== *)
(** * Facts about objects *)

Section ObjectFacts.

Context {A : Type}.
Implicit Types (o : obj A) (k : string) (v : A).

Lemma get_set_eq o k v : get (set o k v) k = Some v.
Proof.
  induction o as [|[k' v'] o IH]; simpl.
  - now rewrite String.eqb_refl.
  - destruct (String.eqb k' k) eqn:E; simpl.
    + now rewrite String.eqb_refl.
    + now rewrite E.
Qed.

Lemma get_set_neq o k k' v : k <> k' -> get (set o k v) k' = get o k'.
Proof.
  intros Hne. induction o as [|[k0 v0] o IH]; simpl.
  - destruct (String.eqb k k') eqn:E; [apply String.eqb_eq in E; contradiction | reflexivity].
  - destruct (String.eqb k0 k) eqn:E; simpl.
    + apply String.eqb_eq in E; subst k0.
      destruct (String.eqb k k') eqn:E'; [apply String.eqb_eq in E'; contradiction | reflexivity].
    + destruct (String.eqb k0 k'); [reflexivity | exact IH].
Qed.

Lemma keys_set o k v k' : In k' (keys (set o k v)) <-> k' = k \/ In k' (keys o).
Proof.
  induction o as [|[k0 v0] o IH]; simpl.
  - intuition.
  - destruct (String.eqb k0 k) eqn:E; simpl.
    + apply String.eqb_eq in E; subst k0. intuition.
    + unfold keys in IH. rewrite IH. intuition.
Qed.

Lemma NoDup_keys_set o k v : NoDup (keys o) -> NoDup (keys (set o k v)).
Proof.
  induction o as [|[k0 v0] o IH]; simpl; intros Hnd.
  - constructor; [intros [] | constructor].
  - inversion Hnd as [|? ? Hnotin Hnd']; subst.
    destruct (String.eqb k0 k) eqn:E; simpl.
    + apply String.eqb_eq in E; subst k0. now constructor.
    + constructor; [|now apply IH].
      intros Hin. apply (keys_set o k v k0) in Hin. destruct Hin as [->|Hin].
      * now rewrite String.eqb_refl in E.
      * contradiction.
Qed.

Lemma get_In_keys o k v : get o k = Some v -> In k (keys o).
Proof.
  induction o as [|[k0 v0] o IH]; simpl; [discriminate|].
  destruct (String.eqb k0 k) eqn:E.
  - apply String.eqb_eq in E. now left.
  - intros H. right. now apply IH.
Qed.

Lemma get_None_keys o k : get o k = None -> ~ In k (keys o).
Proof.
  induction o as [|[k0 v0] o IH]; simpl; [tauto|].
  destruct (String.eqb k0 k) eqn:E; [discriminate|].
  intros H [Heq|Hin]; [subst; now rewrite String.eqb_refl in E | now apply IH].
Qed.

Lemma In_keys_get o k : In k (keys o) -> exists v, get o k = Some v.
Proof.
  intros Hin. destruct (get o k) eqn:E; [eauto|].
  now apply get_None_keys in E.
Qed.

Lemma get_In o k v : get o k = Some v -> In (k, v) o.
Proof.
  induction o as [|[k0 v0] o IH]; simpl; [discriminate|].
  destruct (String.eqb k0 k) eqn:E.
  - apply String.eqb_eq in E. intros [= ->]. subst. now left.
  - intros H. right. now apply IH.
Qed.

Lemma get_delete o k k' :
  get (delete o k) k' = if String.eqb k k' then None else get o k'.
Proof.
  induction o as [|[k0 v0] o IH]; simpl.
  - now destruct (String.eqb k k').
  - destruct (String.eqb k0 k) eqn:E; simpl.
    + apply String.eqb_eq in E; subst k0. rewrite IH.
      now destruct (String.eqb k k').
    + rewrite IH. destruct (String.eqb k0 k') eqn:E'; [|reflexivity].
      apply String.eqb_eq in E'; subst k0.
      now rewrite String.eqb_sym, E.
Qed.

Lemma keys_delete o k k' :
  In k' (keys (delete o k)) <-> k' <> k /\ In k' (keys o).
Proof.
  induction o as [|[k0 v0] o IH]; simpl.
  - tauto.
  - destruct (String.eqb k0 k) eqn:E; simpl.
    + apply String.eqb_eq in E; subst k0. unfold keys in IH. rewrite IH.
      intuition congruence.
    + unfold keys in IH. rewrite IH.
      assert (k0 <> k) by (intros ->; now rewrite String.eqb_refl in E).
      intuition congruence.
Qed.

Lemma keys_nil o : keys o = [] -> o = [].
Proof. destruct o; [reflexivity | discriminate]. Qed.

End ObjectFacts.

(* ================================================================== *)
(** * What [init()] builds *)

Lemma constructModules_eq modules c :
  constructModules modules c =
  (Normal tt,
   mkCore (config c)
          (built (moduleInstances c) (length (heap c)) modules)
          (heap c ++ fresh modules)
          (isReady c)
          (trace c ++ construct_events (length (heap c)) modules)).
Proof.
  unfold constructModules. revert c.
  induction modules as [|Module l IH]; intros c.
  - destruct c; simpl. unfold ret, fresh. simpl. now rewrite !app_nil_r.
  - simpl. unfold bind at 1. unfold try_catch, new_Module, constructs, fresh.
    simpl. unfold constructs.
    destruct (construct Module) as [e|]; simpl.
    + unfold throw, log, modify. simpl. rewrite IH. simpl. unfold fresh.
      now rewrite <- app_assoc.
    + unfold bind, get_state, modify, ret. simpl. rewrite IH. simpl.
      rewrite !length_app, Nat.add_1_r. unfold fresh.
      now rewrite <- !app_assoc.
Qed.

Lemma configure_loop_eq names c :
  forEach names (fun name =>
    c <- get_state ;;
    if hasOwnProperty (moduleInstances c) name then
      match get (moduleInstances c) name with
      | Some r =>
          modify (with_heap (set_state (heap c) r (getModulesDiff (moduleInstances c) name)))
      | None => throw (typeError "Cannot set properties of undefined (setting 'state')")
      end
    else ret tt) c
  = (Normal tt, with_heap (wire (moduleInstances c) (heap c) names) c).
Proof.
  revert c. induction names as [|name names IH]; intros c.
  - destruct c; reflexivity.
  - simpl. unfold bind at 1. unfold bind at 1. unfold get_state at 1.
    unfold hasOwnProperty.
    destruct (get (moduleInstances c) name) as [r|]; simpl.
    + unfold modify. rewrite IH. destruct c; reflexivity.
    + unfold ret. rewrite IH. reflexivity.
Qed.

Lemma configureModules_eq c :
  configureModules c =
  (Normal tt,
   with_heap (wire (moduleInstances c) (heap c) (keys (moduleInstances c))) c).
Proof.
  unfold configureModules, bind at 1. unfold get_state at 1.
  apply configure_loop_eq.
Qed.

Lemma init_eq modules c :
  init modules c =
  (Normal tt,
   let mi := built (moduleInstances c) (length (heap c)) modules in
   mkCore (config c) mi
          (wire mi (heap c ++ fresh modules) (keys mi))
          (isReady c)
          (trace c ++ construct_events (length (heap c)) modules)).
Proof.
  unfold init, bind. rewrite constructModules_eq, configureModules_eq.
  reflexivity.
Qed.

(** ** The peer view computed by [getModulesDiff] *)

Lemma diff_fold_get (mi : obj ref) name ks diff k :
  get (fold_left
         (fun diff moduleName =>
            if String.eqb moduleName name then diff
            else match get mi moduleName with
                 | Some r => set diff moduleName r
                 | None => diff
                 end) ks diff) k
  = if String.eqb k name then get diff k
    else if existsb (String.eqb k) ks
         then match get mi k with Some r => Some r | None => get diff k end
         else get diff k.
Proof.
  revert diff. induction ks as [|a ks IH]; intros diff; simpl.
  - now destruct (String.eqb k name).
  - rewrite IH. destruct (String.eqb k name) eqn:Ekn.
    + apply String.eqb_eq in Ekn; subst k.
      destruct (String.eqb a name) eqn:Ean; [reflexivity|].
      destruct (get mi a); [|reflexivity].
      apply get_set_neq. intros ->. now rewrite String.eqb_refl in Ean.
    + destruct (String.eqb k a) eqn:Eka; simpl.
      * apply String.eqb_eq in Eka; subst a. rewrite Ekn.
        destruct (get mi k) as [r|] eqn:Eg.
        -- rewrite get_set_eq. now destruct (existsb (String.eqb k) ks).
        -- now destruct (existsb (String.eqb k) ks).
      * assert (Hne : a <> k) by (intros ->; now rewrite String.eqb_refl in Eka).
        destruct (String.eqb a name); [reflexivity|].
        destruct (get mi a) as [ra|]; [|reflexivity].
        now rewrite (get_set_neq diff ra Hne).
Qed.

Lemma existsb_eqb_In k ks : existsb (String.eqb k) ks = true <-> In k ks.
Proof.
  rewrite existsb_exists. split.
  - intros (x & Hin & E). apply String.eqb_eq in E. now subst.
  - intros Hin. exists k. split; [assumption | apply String.eqb_refl].
Qed.

Lemma getModulesDiff_get mi name k :
  get (getModulesDiff mi name) k = if String.eqb k name then None else get mi k.
Proof.
  unfold getModulesDiff. rewrite diff_fold_get. simpl.
  destruct (String.eqb k name); [reflexivity|].
  destruct (existsb (String.eqb k) (keys mi)) eqn:E.
  - destruct (get mi k) eqn:Eg; [reflexivity|].
    apply existsb_eqb_In in E. now apply get_None_keys in Eg.
  - destruct (get mi k) eqn:Eg; [|reflexivity].
    apply get_In_keys, existsb_eqb_In in Eg. congruence.
Qed.

Lemma diff_fold_NoDup (mi : obj ref) name ks diff :
  NoDup (keys diff) ->
  NoDup (keys (fold_left
         (fun diff moduleName =>
            if String.eqb moduleName name then diff
            else match get mi moduleName with
                 | Some r => set diff moduleName r
                 | None => diff
                 end) ks diff)).
Proof.
  revert diff. induction ks as [|a ks IH]; intros diff Hnd; simpl; [assumption|].
  apply IH. destruct (String.eqb a name); [assumption|].
  destruct (get mi a); [now apply NoDup_keys_set | assumption].
Qed.

Lemma getModulesDiff_NoDup mi name : NoDup (keys (getModulesDiff mi name)).
Proof. apply diff_fold_NoDup. constructor. Qed.

(** ** Assigning [state] through references *)

Lemma set_state_same h r diff :
  nth_error (set_state h r diff) r = option_map (restate diff) (nth_error h r).
Proof.
  revert r. induction h as [|i h IH]; intros [|r]; simpl; auto.
Qed.

Lemma set_state_other h r r' diff :
  r <> r' -> nth_error (set_state h r diff) r' = nth_error h r'.
Proof.
  revert r r'. induction h as [|i h IH]; intros [|r] [|r'] Hne; simpl; auto;
    contradiction.
Qed.

Lemma wire_nth mi (Hinj : injective mi) names :
  forall h r i,
    nth_error h r = Some i ->
    exists i',
      nth_error (wire mi h names) r = Some i' /\
      inst_class i' = inst_class i /\
      (forall name, In name names -> get mi name = Some r ->
                    state i' = Some (getModulesDiff mi name)) /\
      ((forall name, In name names -> get mi name <> Some r) ->
       state i' = state i).
Proof.
  induction names as [|a names IH]; intros h r i Hnth; simpl.
  - exists i. repeat split; auto. intros name [].
  - destruct (get mi a) as [ra|] eqn:Ea.
    + destruct (Nat.eq_dec ra r) as [->|Hne].
      * pose proof (set_state_same h r (getModulesDiff mi a)) as Hs.
        rewrite Hnth in Hs. simpl in Hs.
        destruct (IH _ _ _ Hs) as (i' & Hi' & Hcls & Hin & Hout).
        exists i'. split; [assumption|]. split; [assumption|]. split.
        -- intros name [<-|Hname] Hget.
           ++ destruct (in_dec string_dec a names) as [Hina|Hnot].
              ** now apply Hin.
              ** rewrite Hout; [reflexivity|].
                 intros name Hname Hget'.
                 apply Hnot. now rewrite (Hinj _ _ _ Ea Hget').
           ++ now apply Hin.
        -- intros Hnone. exfalso. apply (Hnone a); [now left | assumption].
      * pose proof (set_state_other h (getModulesDiff mi a) Hne) as Hs.
        rewrite Hnth in Hs.
        destruct (IH _ _ _ Hs) as (i' & Hi' & Hcls & Hin & Hout).
        exists i'. split; [assumption|]. split; [assumption|]. split.
        -- intros name [<-|Hname] Hget; [congruence | now apply Hin].
        -- intros Hnone. apply Hout. intros name Hname. apply Hnone. now right.
    + destruct (IH _ _ _ Hnth) as (i' & Hi' & Hcls & Hin & Hout).
      exists i'. split; [assumption|]. split; [assumption|]. split.
      * intros name [<-|Hname] Hget; [congruence | now apply Hin].
      * intros Hnone. apply Hout. intros name Hname. apply Hnone. now right.
Qed.

(** ** The registry built by [constructModules] *)

Lemma filter_constructs_app l1 Module l2 :
  constructs Module = true ->
  nth_error (filter constructs (l1 ++ Module :: l2))
            (length (filter constructs l1)) = Some Module.
Proof.
  intros Hc. rewrite filter_app. simpl. rewrite Hc.
  rewrite nth_error_app2 by lia. now rewrite Nat.sub_diag.
Qed.

Lemma built_get l : forall mi n name r,
  get (built mi n l) name = Some r ->
  (get mi name = Some r /\
   forall Module, In Module l -> constructs Module = true ->
                  displayName Module <> name) \/
  (exists l1 Module l2,
      l = (l1 ++ Module :: l2)%list /\ constructs Module = true /\
      displayName Module = name /\
      r = n + length (filter constructs l1) /\
      forall Module', In Module' l2 -> constructs Module' = true ->
                      displayName Module' <> name).
Proof.
  induction l as [|M0 l IH]; intros mi n name r Hget; simpl in Hget.
  - left. split; [assumption | intros ? []].
  - destruct (constructs M0) eqn:Hc.
    + destruct (IH _ _ _ _ Hget) as [[Hg Hno]|(l1 & M & l2 & -> & HcM & Hdn & -> & Hlast)].
      * destruct (string_dec (displayName M0) name) as [Heq|Hne].
        -- right. exists [], M0, l. rewrite Heq in Hg. rewrite get_set_eq in Hg.
           injection Hg as <-. simpl. repeat split; auto.
        -- left. rewrite get_set_neq in Hg by assumption. split; [assumption|].
           intros M [<-|Hin] HcM; auto.
      * right. exists (M0 :: l1), M, l2. simpl. rewrite Hc. simpl.
        repeat split; auto; lia.
    + destruct (IH _ _ _ _ Hget) as [[Hg Hno]|(l1 & M & l2 & -> & HcM & Hdn & -> & Hlast)].
      * left. split; [assumption|]. intros M [<-|Hin] HcM; [congruence | auto].
      * right. exists (M0 :: l1), M, l2. simpl. rewrite Hc.
        repeat split; auto.
Qed.

Lemma built_keys l : forall mi n k,
  In k (keys (built mi n l)) <->
  In k (keys mi) \/
  exists Module, In Module l /\ constructs Module = true /\ displayName Module = k.
Proof.
  induction l as [|M0 l IH]; intros mi n k; simpl.
  - split; [now left | intros [H|(M & [] & _)]; assumption].
  - destruct (constructs M0) eqn:Hc; rewrite IH.
    + rewrite keys_set. split.
      * intros [[->|Hin]|(M & Hin & HcM & Hdn)]; eauto 8.
      * intros [Hin|(M & [<-|Hin] & HcM & Hdn)]; eauto 8.
    + split.
      * intros [Hin|(M & Hin & HcM & Hdn)]; eauto 8.
      * intros [Hin|(M & [<-|Hin] & HcM & Hdn)]; [auto | congruence | eauto 8].
Qed.

Lemma built_NoDup l : forall mi n,
  NoDup (keys mi) -> NoDup (keys (built mi n l)).
Proof.
  induction l as [|M0 l IH]; intros mi n Hnd; simpl; [assumption|].
  destruct (constructs M0); apply IH; [now apply NoDup_keys_set | assumption].
Qed.

(** From an empty registry, a reference leads to an instance of the
    class that gave the name. *)
Lemma built_fresh modules name r :
  get (built [] 0 modules) name = Some r ->
  exists l1 Module l2,
    modules = (l1 ++ Module :: l2)%list /\ constructs Module = true /\
    displayName Module = name /\
    r = length (filter constructs l1) /\
    nth_error (fresh modules) r = Some (mkInstance Module None) /\
    forall Module', In Module' l2 -> constructs Module' = true ->
                    displayName Module' <> name.
Proof.
  intros Hget. destruct (built_get _ _ _ _ Hget) as [[Hg _]|(l1 & M & l2 & -> & Hc & Hdn & -> & Hlast)].
  - discriminate.
  - exists l1, M, l2. simpl. repeat split; auto.
    unfold fresh. rewrite nth_error_map, filter_constructs_app by assumption.
    reflexivity.
Qed.

Lemma built_injective modules : injective (built [] 0 modules).
Proof.
  intros n1 n2 r H1 H2.
  destruct (built_fresh _ _ H1) as (_ & M1 & _ & _ & _ & <- & _ & Hn1 & _).
  destruct (built_fresh _ _ H2) as (_ & M2 & _ & _ & _ & <- & _ & Hn2 & _).
  congruence.
Qed.

(* ================================================================== *)
(** * What [start()] does *)

Lemma emit_all_nil c : emit_all [] c = c.
Proof. destruct c; unfold emit_all; simpl. now rewrite app_nil_r. Qed.

Lemma emit_all_app s1 s2 c : emit_all s2 (emit_all s1 c) = emit_all (s1 ++ s2) c.
Proof. unfold emit_all; simpl. now rewrite app_assoc. Qed.

Lemma emit_emit_all ev c : emit ev c = emit_all [ev] c.
Proof. reflexivity. Qed.

(** Two states that differ by the grouping of the events appended to the
    trace. *)
Ltac same_trace :=
  unfold emit, with_isReady, emit_all; simpl;
  rewrite <- ?app_assoc, ?app_nil_r; simpl; reflexivity.

Lemma prep_emit_all seg c name : prep (emit_all seg c) name = prep c name.
Proof. reflexivity. Qed.

Lemma prepare_step_eq name c :
  prepare_step name c =
  (step_result (prep c name), emit_all (step_events name (prep c name)) c).
Proof.
  unfold prepare_step, try_catch, call_module, prep, skipped.
  unfold bind at 1. unfold get_state at 1.
  destruct (instance_of c name) as [inst|]; simpl.
  - destruct (method (inst_class inst) "prepare") as [| |e|]; simpl;
      unfold bind, modify, throw, log; simpl;
      rewrite ?emit_emit_all, ?emit_all_app; try reflexivity.
    destruct (is_critical e); unfold throw, log, modify; simpl;
      rewrite ?emit_emit_all, ?emit_all_app; reflexivity.
  - unfold throw, log, modify. reflexivity.
Qed.

Lemma forEach_prepare_eq l c :
  forEach l prepare_step c = (chain_result c l, emit_all (chain_events c l) c).
Proof.
  revert c. induction l as [|name l IH]; intros c; simpl.
  - unfold ret. now rewrite emit_all_nil.
  - unfold bind. rewrite prepare_step_eq.
    destruct (step_result (prep c name)) as [[]| |] eqn:E.
    + rewrite IH, emit_all_app.
      assert (Hc : chain_result (emit_all (step_events name (prep c name)) c) l
                   = chain_result c l)
        by (clear; induction l; simpl; [|rewrite prep_emit_all, IHl]; reflexivity).
      assert (He : chain_events (emit_all (step_events name (prep c name)) c) l
                   = chain_events c l)
        by (clear; induction l; simpl; [|rewrite prep_emit_all, IHl]; reflexivity).
      now rewrite Hc, He.
    + now rewrite app_nil_r.
    + now rewrite app_nil_r.
Qed.

Lemma bind_assoc {S A B C} (m : M S A) (f : A -> M S B) (g : B -> M S C) s :
  bind (bind m f) g s = bind m (fun x => bind (f x) g) s.
Proof. unfold bind. destruct (m s) as [[a|e|] s']; reflexivity. Qed.

Lemma reduce_then l : forall (p : M Core unit) c,
  fold_left (fun promise module => promise ;; prepare_step module) l p c
  = (p ;; forEach l prepare_step) c.
Proof.
  induction l as [|name l IH]; intros p c; simpl.
  - unfold bind, ret. destruct (p c) as [[[]|e|] c']; reflexivity.
  - rewrite IH. apply bind_assoc.
Qed.

Lemma start_eq c :
  start c = (chain_result c modulesToPrepare,
             emit_all (chain_events c modulesToPrepare) c).
Proof.
  unfold start. rewrite reduce_then. unfold bind at 1, ret at 1.
  apply forEach_prepare_eq.
Qed.

(** ** Reading the trace of [start()] *)

Lemma step_events_Called a b name meth args :
  In (Called name meth args) (step_events a b) ->
  name = a /\ meth = "prepare" /\ args = [].
Proof.
  unfold skipped.
  destruct b as [| |e|]; simpl; try destruct (is_critical e); simpl;
    intuition (try discriminate); match goal with H : _ = _ |- _ => now inversion H end.
Qed.

Lemma step_events_Settled a b name meth b' :
  In (Settled name meth b') (step_events a b) ->
  name = a /\ meth = "prepare" /\ b' = b.
Proof.
  unfold skipped.
  destruct b as [| |e|]; simpl; try destruct (is_critical e); simpl;
    intuition (try discriminate); match goal with H : _ = _ |- _ => now inversion H end.
Qed.


Lemma chain_events_Settled c l name meth b :
  In (Settled name meth b) (chain_events c l) ->
  In name l /\ meth = "prepare" /\ b = prep c name.
Proof.
  induction l as [|a l IH]; simpl; [tauto|].
  intros Hin. apply in_app_or in Hin. destruct Hin as [Hin|Hin].
  - apply step_events_Settled in Hin. destruct Hin as (-> & -> & ->). auto.
  - destruct (step_result (prep c a)); [|destruct Hin..].
    apply IH in Hin. intuition.
Qed.

(** A fatal error ends the chain with a plain error of the same message. *)
Lemma chain_critical_result c l name e :
  In (Settled name "prepare" (Throws e)) (chain_events c l) ->
  is_critical e = true ->
  chain_result c l = Throw (mkError PlainError (message e)).
Proof.
  intros Hin Hcrit. induction l as [|a l IH]; simpl in *; [destruct Hin|].
  apply in_app_or in Hin. destruct Hin as [Hin|Hin].
  - apply step_events_Settled in Hin. destruct Hin as (<- & _ & Hb).
    rewrite <- Hb. simpl. now rewrite Hcrit.
  - destruct (step_result (prep c a)) as [[]| |]; [auto | destruct Hin..].
Qed.

(** No link after the one that threw a fatal error runs. *)
Lemma chain_critical_stops c l1 name l2 e :
  NoDup (l1 ++ name :: l2) ->
  prep c name = Throws e -> is_critical e = true ->
  forall later meth args,
    In later l2 ->
    ~ In (Called later meth args) (chain_events c (l1 ++ name :: l2)).
Proof.
  intros Hnd Hprep Hcrit later meth args Hlater.
  induction l1 as [|a l1 IH]; simpl in *.
  - rewrite Hprep. simpl. rewrite Hcrit. simpl.
    inversion Hnd as [|? ? Hnotin _]; subst.
    intros [H|[H|[]]]; try discriminate.
    injection H as <- _ _. contradiction.
  - inversion Hnd as [|? ? Hnotin Hnd']; subst.
    intros Hin. apply in_app_or in Hin. destruct Hin as [Hin|Hin].
    + apply step_events_Called in Hin. destruct Hin as (-> & _).
      apply Hnotin. apply in_or_app. right. now right.
    + destruct (step_result (prep c a)); [|destruct Hin..].
      now apply IH.
Qed.

Lemma attempted_first c name rest :
  attempted c (step_events name (prep c name) ++ rest) name.
Proof.
  unfold attempted, preparable.
  destruct (prep c name) as [| |e|]; simpl; auto.
Qed.

Lemma attempted_app c s1 s2 name :
  attempted c s2 name -> attempted c (s1 ++ s2) name.
Proof.
  unfold attempted. destruct (preparable c name); intros H; apply in_or_app; now right.
Qed.

(** A failure that is not fatal lets the next link run. *)
Lemma chain_continues c l1 name next l2 e :
  NoDup (l1 ++ name :: next :: l2) ->
  In (Settled name "prepare" (Throws e)) (chain_events c (l1 ++ name :: next :: l2)) ->
  is_critical e = false ->
  attempted c (chain_events c (l1 ++ name :: next :: l2)) next.
Proof.
  intros Hnd Hin Hcrit.
  induction l1 as [|a l1 IH]; simpl in *.
  - destruct (chain_events_Settled c (name :: next :: l2) _ _ _ Hin) as (_ & _ & Hb).
    rewrite <- Hb. simpl. rewrite Hcrit. simpl.
    do 2 apply (attempted_app c [_]).
    apply (attempted_app c [skipped name]) || idtac.
    apply attempted_first.
  - inversion Hnd as [|? ? Hnotin Hnd']; subst.
    apply in_app_or in Hin. destruct Hin as [Hin|Hin].
    + apply step_events_Settled in Hin. destruct Hin as (-> & _).
      exfalso. apply Hnotin. apply in_or_app. right. now left.
    + apply attempted_app.
      destruct (step_result (prep c a)); [|destruct Hin..].
      now apply IH.
Qed.

Lemma links_run_all c l :
  chain_result c l = Normal tt -> links_run c l = length l.
Proof.
  induction l as [|a l IH]; simpl; [reflexivity|].
  destruct (step_result (prep c a)) as [[]| |]; [|discriminate..].
  intros H. now rewrite IH.
Qed.

Lemma prepare_calls_app s1 s2 :
  prepare_calls (s1 ++ s2) = (prepare_calls s1 ++ prepare_calls s2)%list.
Proof. apply flat_map_app. Qed.

Lemma prepare_calls_step c name :
  prepare_calls (step_events name (prep c name))
  = if preparable c name then [name] else [].
Proof.
  unfold preparable, skipped.
  destruct (prep c name) as [| |e|]; simpl; try reflexivity.
  destruct (is_critical e); reflexivity.
Qed.

Lemma prepare_calls_chain c l :
  prepare_calls (chain_events c l)
  = filter (preparable c) (firstn (links_run c l) l).
Proof.
  induction l as [|a l IH]; simpl; [reflexivity|].
  rewrite prepare_calls_app, prepare_calls_step.
  destruct (step_result (prep c a)) as [[]| |]; simpl.
  - rewrite IH. now destruct (preparable c a).
  - now destruct (preparable c a).
  - now destruct (preparable c a).
Qed.

Lemma sequenced_app s1 : forall unsettled s2,
  sequenced unsettled (s1 ++ s2) =
  match sequenced unsettled s1 with
  | Some unsettled' => sequenced unsettled' s2
  | None => None
  end.
Proof.
  induction s1 as [|ev s1 IH]; intros unsettled s2; simpl; [reflexivity|].
  destruct ev; simpl; auto.
  - destruct (String.eqb meth "prepare"); [|auto].
    destruct unsettled; auto.
  - destruct (String.eqb meth "prepare"); [|auto].
    destruct unsettled as [name'|]; [|reflexivity].
    destruct (String.eqb name name'); auto.
Qed.

Lemma sequenced_step name b :
  sequenced None (step_events name b)
  = Some (match b with NeverSettles => Some name | _ => None end).
Proof.
  unfold skipped.
  destruct b as [| |e|]; simpl; rewrite ?String.eqb_refl; try reflexivity.
  destruct (is_critical e); reflexivity.
Qed.

Lemma sequenced_chain c l :
  exists unsettled,
    sequenced None (chain_events c l) = Some unsettled /\
    (chain_result c l <> Hang -> unsettled = None).
Proof.
  induction l as [|a l IH]; simpl.
  - exists None. auto.
  - rewrite sequenced_app, sequenced_step.
    destruct (prep c a) as [| |e|]; simpl; try exact IH.
    + destruct (is_critical e); [|exact IH].
      exists None. auto.
    + exists (Some a). split; [reflexivity | congruence].
Qed.

Lemma NoDup_modulesToPrepare : NoDup modulesToPrepare.
Proof.
  unfold modulesToPrepare.
  repeat (constructor; [simpl; intuition discriminate|]). constructor.
Qed.

(** [start()] changes nothing but the trace. *)
Lemma start_frame c :
  config (snd (start c)) = config c /\
  moduleInstances (snd (start c)) = moduleInstances c /\
  heap (snd (start c)) = heap c /\
  isReady (snd (start c)) = isReady c.
Proof. rewrite start_eq. simpl. auto. Qed.

(** C4. [start()] calls [prepare] on the modules of the fixed list, in the
    order of the list: the calls it makes are those of the links that have
    run, a prefix of the list and all of it when [start()] fulfils, less
    the modules that have no [prepare] to call.  No [prepare] is called
    while an earlier one is unsettled, and a failure of a module's
    [prepare] that is not a [CriticalError] is followed by the link of the
    next module of the list. *)
Theorem start_prepares_in_order (c : Core) :
  modulesToPrepare =
    [ "Tools"; "UI"; "BlockManager"; "Paste"; "BlockSelection";
      "RectangleSelection"; "CrossBlockSelection"; "ReadOnly" ] /\
  exists seg,
    trace (snd (start c)) = (trace c ++ seg)%list /\
    (exists links,
        prepare_calls seg = filter (preparable c) (firstn links modulesToPrepare) /\
        (fst (start c) = Normal tt -> links = length modulesToPrepare)) /\
    (exists unsettled,
        sequenced None seg = Some unsettled /\
        (fst (start c) <> Hang -> unsettled = None)) /\
    (forall before name next after e,
        modulesToPrepare = (before ++ name :: next :: after)%list ->
        is_critical e = false ->
        In (Settled name "prepare" (Throws e)) seg ->
        attempted c seg next).
Proof.
  split; [reflexivity|].
  exists (chain_events c modulesToPrepare). rewrite start_eq.
  cbn [fst snd trace emit_all].
  split; [reflexivity|]. split; [|split].
  - exists (links_run c modulesToPrepare). split.
    + apply prepare_calls_chain.
    + apply links_run_all.
  - apply sequenced_chain.
  - intros before name next after e Hsplit Hcrit Hin.
    pose proof NoDup_modulesToPrepare as Hnd.
    rewrite Hsplit in *. now apply chain_continues with (e := e).
Qed.

Lemma start_trace c :
  trace (snd (start c)) = (trace c ++ chain_events c modulesToPrepare)%list.
Proof. now rewrite start_eq. Qed.

Lemma attempted_preparable c seg name :
  preparable c name = true -> attempted c seg name ->
  In (Called name "prepare" []) seg.
Proof. unfold attempted. now intros ->. Qed.

Lemma start_prepares_in_order_witness :
  exists seg,
    trace (snd (start before_start_paste_fails))
    = (trace before_start_paste_fails ++ seg)%list /\
    In (Settled "Paste" "prepare" (Throws paste_error)) seg /\
    In (Called "BlockSelection" "prepare" []) seg.
Proof.
  destruct (start_prepares_in_order before_start_paste_fails)
    as (_ & seg & Htrace & _ & _ & Hnext).
  exists seg. split; [exact Htrace|].
  assert (Hin : In (Settled "Paste" "prepare" (Throws paste_error)) seg).
  { rewrite start_trace in Htrace. apply app_inv_head in Htrace.
    rewrite <- Htrace. vm_compute. do 7 right. left. reflexivity. }
  split; [exact Hin|].
  apply (attempted_preparable before_start_paste_fails).
  - vm_compute. reflexivity.
  - exact (Hnext ["Tools"; "UI"; "BlockManager"] "Paste" "BlockSelection"
                 ["RectangleSelection"; "CrossBlockSelection"; "ReadOnly"]
                 paste_error eq_refl eq_refl Hin).
Defined.

(* ================================================================== *)
(** * The pipeline of the constructor *)

Lemma invoke_eq name meth args b c :
  invoke name meth args b c =
  (invoke_result meth b, emit_all (invoke_events name meth args b) c).
Proof.
  destruct b; simpl; unfold bind, modify, throw; simpl;
    rewrite ?emit_emit_all, ?emit_all_app, ?emit_all_nil; reflexivity.
Qed.

Lemma invoke_quiet name meth args b :
  String.eqb meth "prepare" = false ->
  forallb quiet (invoke_events name meth args b) = true.
Proof.
  intros H. destruct b; simpl; unfold quiet; simpl; now rewrite ?H.
Qed.

Lemma validate_state document c : snd (validate document c) = c.
Proof.
  unfold validate, bind, get_state.
  repeat match goal with |- context [if ?b then _ else _] => destruct b end;
    reflexivity.
Qed.

Lemma validate_settles document c : fst (validate document c) <> Hang.
Proof.
  unfold validate, bind, get_state.
  repeat match goal with |- context [if ?b then _ else _] => destruct b end;
    discriminate.
Qed.

Lemma set_configuration_eq cfg c :
  set_configuration cfg c = (Normal tt, snd (set_configuration cfg c)).
Proof. destruct cfg; reflexivity. Qed.

Lemma boot_eq modules document cfg :
  boot modules document cfg empty_Core =
  match fst (validate document (configured cfg)) with
  | Normal _ =>
      let c2 := snd (init modules (configured cfg)) in
      let c3 := emit_all (chain_events c2 modulesToPrepare) c2 in
      match chain_result c2 modulesToPrepare with
      | Normal _ => (Normal tt, emit (Logged "log" "I'm ready!") c3)
      | r => (r, c3)
      end
  | r => (r, configured cfg)
  end.
Proof.
  unfold boot. unfold bind at 1. rewrite set_configuration_eq. fold (configured cfg).
  unfold bind at 1.
  pose proof (validate_state document (configured cfg)) as Hs.
  destruct (validate document (configured cfg)) as [[[]|e|] c1]; simpl in Hs; subst c1;
    cbn [fst]; try reflexivity.
  unfold bind at 1. rewrite init_eq. cbn [snd].
  unfold bind at 1. rewrite start_eq.
  destruct (chain_result _ modulesToPrepare) as [[]|e|]; reflexivity.
Qed.

Lemma new_Core_eq modules document cfg :
  new_Core modules document cfg =
  match fst (validate document (configured cfg)) with
  | Normal _ =>
      let c2 := snd (init modules (configured cfg)) in
      let c3 := emit_all (chain_events c2 modulesToPrepare) c2 in
      match chain_result c2 modulesToPrepare with
      | Normal _ =>
          match on_timeout (emit (Logged "log" "I'm ready!") c3) with
          | (Throw e, c') => emit (Unhandled e) c'
          | (_, c') => c'
          end
      | Throw e => snd (on_catch e c3)
      | Hang => c3
      end
  | Throw e => snd (on_catch e (configured cfg))
  | Hang => configured cfg
  end.
Proof.
  unfold new_Core. rewrite boot_eq.
  destruct (fst (validate document (configured cfg))) as [[]|e|]; try reflexivity.
  cbv zeta.
  destruct (chain_result _ modulesToPrepare) as [[]|e|]; reflexivity.
Qed.

Lemma quietly_ret {A} (a : A) : quietly (ret a).
Proof. intros c. exists (Normal a), []. now rewrite emit_all_nil. Qed.

Lemma quietly_throw {A} e : quietly (@throw Core A e).
Proof. intros c. exists (Throw e), []. now rewrite emit_all_nil. Qed.

Lemma quietly_bind {A B} (m : M Core A) (k : A -> M Core B) :
  quietly m -> (forall a, quietly (k a)) -> quietly (bind m k).
Proof.
  intros Hm Hk c. destruct (Hm c) as (r & seg & Hr & Hq).
  unfold bind. rewrite Hr. destruct r as [a|e|].
  - destruct (Hk a (emit_all seg c)) as (r' & seg' & Hr' & Hq').
    exists r', (seg ++ seg')%list. rewrite Hr', emit_all_app, forallb_app, Hq, Hq'.
    auto.
  - exists (Throw e), seg. auto.
  - exists Hang, seg. auto.
Qed.

Lemma quietly_invoke name meth args b :
  String.eqb meth "prepare" = false -> quietly (invoke name meth args b).
Proof.
  intros H c. eexists _, _. split; [apply invoke_eq | now apply invoke_quiet].
Qed.

(** Reading the state: the continuation sees the state it runs in. *)
Lemma quietly_get {A} (k : Core -> M Core A) :
  (forall c0, quietly (k c0)) -> quietly (bind get_state k).
Proof. intros Hk c. unfold bind, get_state. apply Hk. Qed.

Lemma quietly_render : quietly render.
Proof.
  unfold render. apply quietly_get. intros c0.
  destruct (instance_of c0 "Renderer"); [|apply quietly_throw].
  destruct (nullish (config_field c0 "data")); [apply quietly_throw|].
  now apply quietly_invoke.
Qed.

Lemma quietly_focus : quietly focus.
Proof.
  unfold focus. apply quietly_get. intros c0.
  destruct (instance_of c0 "Caret"); [|apply quietly_throw].
  destruct (instance_of c0 "BlockManager"); [|apply quietly_throw].
  destruct (negb _); [apply quietly_throw|].
  destruct (negb _); [apply quietly_throw|].
  apply quietly_bind; [|intros _]; now apply quietly_invoke.
Qed.

(** The timer callback either reaches [onReady()], its last step, or ends
    before it and leaves [isReady] as it was. *)
Lemma on_timeout_cases c :
  (exists seg,
      on_timeout c =
      (Normal tt,
       with_isReady (settle (isReady c) Fulfilled) (emit_all (seg ++ [OnReady]) c)) /\
      forallb quiet seg = true) \/
  (exists r seg,
      r <> Normal tt /\ on_timeout c = (r, emit_all seg c) /\
      forallb quiet seg = true).
Proof.
  assert (Hq : quietly (render ;;
                        c <- get_state ;;
                        if truthy (config_field c "autofocus") then focus else ret tt)).
  { apply quietly_bind; [apply quietly_render | intros _].
    apply quietly_get. intros c0.
    destruct (truthy _); [apply quietly_focus | apply quietly_ret]. }
  destruct (Hq c) as (r & seg & Hr & Hquiet).
  assert (Hon : on_timeout c =
                ((render ;;
                  c <- get_state ;;
                  if truthy (config_field c "autofocus") then focus else ret tt) ;;
                 onReady) c).
  { unfold on_timeout, bind, get_state.
    destruct (render c) as [[[]|e|] c1]; reflexivity. }
  rewrite Hon.
  destruct r as [[]|e|].
  - left. exists seg. split; [|assumption].
    unfold bind at 1. rewrite Hr.
    unfold onReady, modify. destruct c. same_trace.
  - right. exists (Throw e), seg. split; [discriminate|]. split; [|assumption].
    unfold bind at 1. now rewrite Hr.
  - right. exists Hang, seg. split; [discriminate|]. split; [|assumption].
    unfold bind at 1. now rewrite Hr.
Qed.

Lemma on_catch_eq e c :
  snd (on_catch e c) =
  with_isReady (settle (isReady c) (Rejected e))
    (emit_all [Logged "error" (".js is not ready because of " ++ error_text e);
               OnFail e] c).
Proof.
  unfold on_catch, bind, log, onFail, modify. destruct c.
  same_trace.
Qed.

Lemma configured_eq cfg :
  configured cfg = with_config (config (configured cfg)) empty_Core.
Proof. destruct cfg; reflexivity. Qed.

Lemma init_configured modules cfg :
  snd (init modules (configured cfg)) =
  let mi := built [] 0 modules in
  mkCore (config (configured cfg)) mi (wire mi (fresh modules) (keys mi))
         Pending (construct_events 0 modules).
Proof. rewrite init_eq. destruct cfg; reflexivity. Qed.

(** The runs of [new Core(config)]: validation throws; or the modules are
    built and [start()] throws, waits for ever or fulfils, and in the last
    case the timer callback reaches [onReady()] or does not. *)
Lemma new_Core_cases modules document cfg :
  let c := new_Core modules document cfg in
  let c2 := snd (init modules (configured cfg)) in
  (exists e,
      fst (validate document (configured cfg)) = Throw e /\
      c = with_isReady (Rejected e)
            (emit_all [not_ready_log e; OnFail e] (configured cfg))) \/
  (fst (validate document (configured cfg)) = Normal tt /\
   exists tail,
     c = with_isReady (isReady c)
           (emit_all (chain_events c2 modulesToPrepare ++ tail) c2) /\
     ((exists e,
          chain_result c2 modulesToPrepare = Throw e /\
          tail = [not_ready_log e; OnFail e] /\ isReady c = Rejected e) \/
      (chain_result c2 modulesToPrepare = Hang /\
       tail = [] /\ isReady c = Pending) \/
      (chain_result c2 modulesToPrepare = Normal tt /\
       exists seg,
         forallb quiet seg = true /\
         ((tail = Logged "log" "I'm ready!" :: seg ++ [OnReady] /\
           isReady c = Fulfilled) \/
          (tail = Logged "log" "I'm ready!" :: seg /\ isReady c = Pending))))).
Proof.
  cbv zeta. rewrite new_Core_eq.
  pose proof (validate_settles document (configured cfg)) as Hv.
  destruct (fst (validate document (configured cfg))) as [[]|e|]; [|left|contradiction].
  2:{ exists e. split; [reflexivity|]. rewrite on_catch_eq.
      rewrite (configured_eq cfg). reflexivity. }
  right. split; [reflexivity|]. cbv zeta.
  rewrite (init_configured modules cfg). cbv zeta.
  set (c2 := mkCore _ _ _ _ _).
  destruct (chain_result c2 modulesToPrepare) as [[]|e|] eqn:Hres.
  - destruct (on_timeout_cases
                (emit (Logged "log" "I'm ready!")
                      (emit_all (chain_events c2 modulesToPrepare) c2)))
      as [(seg & Hon & Hq)|(r & seg & Hr & Hon & Hq)]; rewrite Hon.
    + exists (Logged "log" "I'm ready!" :: seg ++ [OnReady])%list. split.
      * unfold c2. same_trace.
      * right. right. split; [reflexivity|]. exists seg. split; [assumption|].
        left. split; reflexivity.
    + destruct r as [[]|e|]; [contradiction| |].
      * exists (Logged "log" "I'm ready!" :: seg ++ [Unhandled e])%list. split.
        -- unfold c2. same_trace.
        -- right. right. split; [reflexivity|].
           exists (seg ++ [Unhandled e])%list. split.
           ++ rewrite forallb_app, Hq. reflexivity.
           ++ right. split; reflexivity.
      * exists (Logged "log" "I'm ready!" :: seg)%list. split.
        -- unfold c2. same_trace.
        -- right. right. split; [reflexivity|]. exists seg. split; [assumption|].
           right. split; reflexivity.
  - exists [not_ready_log e; OnFail e]. rewrite on_catch_eq. split.
    + unfold c2. same_trace.
    + left. exists e. repeat split.
  - exists []. split.
    + unfold c2. same_trace.
    + right. left. repeat split.
Qed.

(** ** The events of each phase *)

Lemma construct_events_In l : forall n ev,
  In ev (construct_events n l) ->
  (exists name r, ev = Constructed name r) \/ (exists text, ev = Logged "warn" text).
Proof.
  induction l as [|Module l IH]; intros n ev; simpl; [tauto|].
  destruct (constructs Module); intros [<-|Hin]; eauto.
Qed.

Lemma construct_events_quiet l : forall n, forallb quiet (construct_events n l) = true.
Proof.
  induction l as [|Module l IH]; intros n; simpl; [reflexivity|].
  destruct (constructs Module); simpl; apply IH.
Qed.

Lemma construct_events_Constructed l : forall n Module,
  In Module l -> constructs Module = true ->
  exists r, In (Constructed (displayName Module) r) (construct_events n l).
Proof.
  induction l as [|M0 l IH]; intros n Module [].
  - subst M0. intros Hc. simpl. rewrite Hc. exists n. now left.
  - intros Hc. simpl. destruct (constructs M0).
    + destruct (IH (S n) Module H Hc) as (r & Hr). exists r. now right.
    + destruct (IH n Module H Hc) as (r & Hr). exists r. now right.
Qed.

Lemma settle_calls_app s1 s2 :
  settle_calls (s1 ++ s2) = (settle_calls s1 ++ settle_calls s2)%list.
Proof. apply filter_app. Qed.

Lemma settle_calls_quiet seg : forallb quiet seg = true -> settle_calls seg = [].
Proof.
  induction seg as [|ev seg IH]; simpl; [reflexivity|].
  intros H. apply andb_prop in H. destruct H as [Hq Hrest].
  unfold quiet in Hq. apply andb_prop in Hq. destruct Hq as [Hs _].
  apply negb_true_iff in Hs. rewrite Hs. auto.
Qed.

Lemma quiet_not_prepare seg ev :
  forallb quiet seg = true -> In ev seg -> is_prepare ev = false.
Proof.
  intros H Hin. rewrite forallb_forall in H. specialize (H _ Hin).
  unfold quiet in H. apply andb_prop in H. destruct H as [_ H].
  now apply negb_true_iff in H.
Qed.

Lemma chain_events_not_settle c l : settle_calls (chain_events c l) = [].
Proof.
  induction l as [|a l IH]; simpl; [reflexivity|].
  rewrite settle_calls_app.
  assert (Hs : settle_calls (step_events a (prep c a)) = []).
  { unfold skipped. destruct (prep c a) as [| |e|]; try reflexivity.
    simpl. destruct (is_critical e); reflexivity. }
  rewrite Hs. simpl.
  destruct (step_result (prep c a)); [exact IH | reflexivity..].
Qed.

(** ** The facade's constructor *)

Lemma exportAPI_eq w :
  let w1 :=
    with_own (set (set (own w) "configuration" (FConfiguration (config (core w))))
                  "destroy" FDestroy) w in
  exportAPI w =
  match instance_of (core w) "API" with
  | None =>
      (Throw (typeError "Cannot read properties of undefined (reading 'methods')"), w1)
  | Some API =>
      match methods (inst_class API) with
      | None => (Throw (typeError "Object prototype may only be an Object or null"), w1)
      | Some names =>
          (Normal tt,
           with_own (delete (own w1) "exportAPI") (with_proto (API_methods names) w1))
      end
  end.
Proof.
  cbv zeta. unfold exportAPI, fieldsToExport. simpl forEach.
  unfold bind, modify, ret, get_state, throw. simpl.
  destruct (instance_of (core w) "API") as [API|]; [|reflexivity].
  destruct (methods (inst_class API)); reflexivity.
Qed.

(** The [Core] of a facade is the one its constructor built, with the
    events of the caller's [onReady] at most. *)
Lemma new_ModuleJS_core modules document cfg :
  exists seg,
    core (new_ModuleJS modules document cfg)
    = emit_all seg (new_Core modules document cfg) /\
    forallb quiet seg = true.
Proof.
  unfold new_ModuleJS. cbv zeta. cbn [core].
  destruct (isReady (new_Core modules document cfg)).
  - exists []. now rewrite emit_all_nil.
  - unfold bind at 1. rewrite exportAPI_eq. cbv zeta. cbn [core with_own].
    destruct (instance_of _ "API") as [API|].
    + destruct (methods (inst_class API)).
      * unfold on_core. cbn [core with_own with_proto]. rewrite invoke_eq.
        exists (invoke_events "configuration" "onReady" [] (user_onReady cfg)).
        split; [|now apply invoke_quiet].
        destruct (invoke_result "onReady" (user_onReady cfg)); reflexivity.
      * exists []. now rewrite emit_all_nil.
    + exists []. now rewrite emit_all_nil.
  - exists []. now rewrite emit_all_nil.
Qed.

Lemma new_ModuleJS_rejected modules document cfg e :
  isReady (new_Core modules document cfg) = Rejected e ->
  new_ModuleJS modules document cfg =
  mkModuleJS (new_Core modules document cfg) true [("isReady", FIsReady)]
             ModuleJS_prototype (Rejected e).
Proof. intros H. unfold new_ModuleJS. cbv zeta. cbn [core]. now rewrite H. Qed.

(* ================================================================== *)
(** * Validation *)

(** C5. When the configuration sets both [holderId] and [holder],
    [validate()] throws the configuration error; the pipeline stops there:
    [isReady] is rejected with that error, [init()] never runs, and no
    module instance is constructed, neither in the heap nor in the
    registry nor in the trace. *)
Theorem both_mount_fields_abort_before_init modules document cfg :
  truthy (config_field (configured cfg) "holderId") = true ->
  truthy (config_field (configured cfg) "holder") = true ->
  let w := new_ModuleJS modules document cfg in
  let c := core w in
  validate document (configured cfg) = (Throw exclusive_fields_error, configured cfg) /\
  isReady c = Rejected exclusive_fields_error /\
  ready w = Rejected exclusive_fields_error /\
  heap c = [] /\
  moduleInstances c = [] /\
  trace c = [not_ready_log exclusive_fields_error; OnFail exclusive_fields_error] /\
  forall name r, ~ In (Constructed name r) (trace c).
Proof.
  intros Hid Hholder. cbv zeta.
  assert (Hv : validate document (configured cfg)
               = (Throw exclusive_fields_error, configured cfg)).
  { unfold validate, bind, get_state. now rewrite Hid, Hholder. }
  assert (Hc : new_Core modules document cfg =
               with_isReady (Rejected exclusive_fields_error)
                 (emit_all [not_ready_log exclusive_fields_error;
                            OnFail exclusive_fields_error] (configured cfg))).
  { rewrite new_Core_eq, Hv. cbn [fst]. rewrite on_catch_eq.
    rewrite (configured_eq cfg). reflexivity. }
  assert (Hw : new_ModuleJS modules document cfg =
               mkModuleJS (new_Core modules document cfg) true
                          [("isReady", FIsReady)] ModuleJS_prototype
                          (Rejected exclusive_fields_error)).
  { apply new_ModuleJS_rejected. now rewrite Hc. }
  split; [exact Hv|].
  rewrite Hw. cbn [core ready]. rewrite Hc, (configured_eq cfg).
  cbn [isReady heap moduleInstances trace with_isReady emit_all with_config
       empty_Core app].
  repeat split.
  intros name r [H|[H|[]]]; discriminate.
Qed.

Lemma both_mount_fields_abort_before_init_witness :
  ready (new_ModuleJS editor_modules page both_mount_fields)
  = Rejected exclusive_fields_error /\
  heap (core (new_ModuleJS editor_modules page both_mount_fields)) = [].
Proof.
  destruct (both_mount_fields_abort_before_init editor_modules page
              both_mount_fields eq_refl eq_refl)
    as (_ & _ & Hready & Hheap & _).
  split; [exact Hready | exact Hheap].
Defined.

(** C10. With no configuration argument the setter stores an object whose
    only field is an undefined [holder]; [validate()] returns without
    throwing; the pipeline goes on with [init()], and every module class
    whose constructor returns is constructed. *)
Theorem zero_configuration_is_accepted modules document :
  let w := new_ModuleJS modules document VUndefined in
  configured VUndefined = with_config [("holder", VUndefined)] empty_Core /\
  config_field (configured VUndefined) "holder" = VUndefined /\
  validate document (configured VUndefined) = (Normal tt, configured VUndefined) /\
  boot modules document VUndefined empty_Core
  = (init modules ;; start ;; log "log" "I'm ready!") (configured VUndefined) /\
  moduleInstances (core w)
  = moduleInstances (snd (constructModules modules (configured VUndefined))) /\
  forall Module,
    In Module modules -> construct Module = None ->
    exists r, In (Constructed (displayName Module) r) (trace (core w)).
Proof.
  cbv zeta.
  assert (Hv : validate document (configured VUndefined)
               = (Normal tt, configured VUndefined)) by reflexivity.
  split; [reflexivity|]. split; [reflexivity|]. split; [exact Hv|].
  split; [reflexivity|].
  destruct (new_ModuleJS_core modules document VUndefined) as (seg & -> & _).
  destruct (new_Core_cases modules document VUndefined)
    as [(e & He & _)|(_ & tail & Hc & _)].
  { rewrite Hv in He. discriminate. }
  rewrite Hc, (init_configured modules VUndefined), constructModules_eq.
  cbn. split; [reflexivity|].
  intros Module Hin Hcons.
  destruct (construct_events_Constructed modules 0 Module Hin) as (r & Hr).
  { unfold constructs. now rewrite Hcons. }
  exists r. apply in_or_app. left. apply in_or_app. now left.
Qed.

Lemma zero_configuration_is_accepted_witness :
  exists r,
    In (Constructed "Paste" r)
       (trace (core (new_ModuleJS editor_modules page VUndefined))).
Proof.
  destruct (zero_configuration_is_accepted editor_modules page)
    as (_ & _ & _ & _ & _ & Hall).
  apply (Hall (plain "Paste")).
  - vm_compute. do 6 right. left. reflexivity.
  - reflexivity.
Defined.

(* ================================================================== *)
(** * Fatal errors of [prepare] *)

Lemma quiet_no_prepare_call seg name args :
  forallb quiet seg = true -> ~ In (Called name "prepare" args) seg.
Proof. intros Hq Hin. now pose proof (quiet_not_prepare _ _ Hq Hin). Qed.

Lemma quiet_no_prepare_settled seg name b :
  forallb quiet seg = true -> ~ In (Settled name "prepare" b) seg.
Proof. intros Hq Hin. now pose proof (quiet_not_prepare _ _ Hq Hin). Qed.

(** An event of a [prepare] in the trace of a run is an event of
    [start()]. *)
Lemma prepare_event_of_start modules document cfg ev :
  is_prepare ev = true ->
  In ev (trace (new_Core modules document cfg)) ->
  fst (validate document (configured cfg)) = Normal tt /\
  In ev (chain_events (snd (init modules (configured cfg))) modulesToPrepare).
Proof.
  intros Hev Hin.
  destruct (new_Core_cases modules document cfg)
    as [(e & _ & Hc)|(Hv & tail & Hc & Htail)].
  - rewrite Hc, (configured_eq cfg) in Hin. simpl in Hin.
    destruct Hin as [<-|[<-|[]]]; discriminate.
  - split; [assumption|].
    rewrite Hc in Hin. cbn [trace with_isReady emit_all] in Hin.
    rewrite (init_configured modules cfg) in Hin at 1. cbn [trace] in Hin.
    apply in_app_or in Hin. destruct Hin as [Hin|Hin].
    { pose proof (quiet_not_prepare _ _ (construct_events_quiet modules 0) Hin).
      congruence. }
    apply in_app_or in Hin. destruct Hin as [Hin|Hin]; [assumption|].
    exfalso.
    assert (Hq : forallb quiet (filter (fun ev => negb (is_settle ev)) tail) = true
                 /\ is_settle ev = false).
    { split.
      - destruct Htail as [(e & _ & -> & _)|[(_ & -> & _)|(_ & seg & Hq & [(-> & _)|(-> & _)])]];
          try reflexivity; simpl; rewrite ?filter_app; simpl;
          rewrite ?app_nil_r.
        + clear -Hq. induction seg as [|x seg IH]; simpl in *; [reflexivity|].
          apply andb_prop in Hq. destruct Hq as [Hx Hq].
          unfold quiet in Hx. apply andb_prop in Hx. destruct Hx as [Hs Hp].
          rewrite Hs. simpl. unfold quiet at 1. rewrite Hs, Hp. simpl. auto.
        + clear -Hq. induction seg as [|x seg IH]; simpl in *; [reflexivity|].
          apply andb_prop in Hq. destruct Hq as [Hx Hq].
          unfold quiet in Hx. apply andb_prop in Hx. destruct Hx as [Hs Hp].
          rewrite Hs. simpl. unfold quiet at 1. rewrite Hs, Hp. simpl. auto.
      - destruct ev; try discriminate; reflexivity. }
    destruct Hq as [Hq Hs].
    assert (Hin' : In ev (filter (fun ev => negb (is_settle ev)) tail)).
    { apply filter_In. split; [assumption | now rewrite Hs]. }
    pose proof (quiet_not_prepare _ _ Hq Hin'). congruence.
Qed.

(** C3. When the [prepare] of a module of the list throws a
    [CriticalError], [isReady] is rejected, with a plain error of the same
    message, and so is the facade's promise; no module after it in the
    list has its [prepare] called.  In particular, when it is Tools, the
    [prepare] of BlockManager is never called. *)
Theorem fatal_prepare_error_rejects modules document cfg name e :
  let w := new_ModuleJS modules document cfg in
  let c := core w in
  is_critical e = true ->
  In (Settled name "prepare" (Throws e)) (trace c) ->
  In name modulesToPrepare /\
  isReady c = Rejected (mkError PlainError (message e)) /\
  ready w = Rejected (mkError PlainError (message e)) /\
  (forall before after later args,
      modulesToPrepare = (before ++ name :: after)%list ->
      In later after ->
      ~ In (Called later "prepare" args) (trace c)) /\
  (name = "Tools" ->
   forall args, ~ In (Called "BlockManager" "prepare" args) (trace c)).
Proof.
  cbv zeta. intros Hcrit Hin.
  destruct (new_ModuleJS_core modules document cfg) as (seg & Hcore & Hseg).
  rewrite Hcore in Hin. cbn [trace emit_all] in Hin.
  apply in_app_or in Hin. destruct Hin as [Hin|Hin];
    [|now apply quiet_no_prepare_settled in Hin].
  destruct (prepare_event_of_start modules document cfg
              (Settled name "prepare" (Throws e)) eq_refl Hin) as (Hv & Hchain).
  set (c2 := snd (init modules (configured cfg))) in *.
  destruct (chain_events_Settled c2 _ _ _ _ Hchain) as (Hname & _ & Hprep).
  pose proof (chain_critical_result c2 _ _ _ Hchain Hcrit) as Hres.
  destruct (new_Core_cases modules document cfg)
    as [(e0 & He0 & _)|(_ & tail & Hc & Htail)]; [congruence|].
  fold c2 in Hc, Htail.
  destruct Htail as [(e0 & He0 & -> & Hready)|[(He0 & _)|(He0 & _)]];
    [|congruence..].
  rewrite Hres in He0. injection He0 as <-.
  assert (Hw := new_ModuleJS_rejected modules document cfg Hready).
  assert (Hlater : forall before after later args,
             modulesToPrepare = (before ++ name :: after)%list ->
             In later after ->
             ~ In (Called later "prepare" args)
                  (trace (core (new_ModuleJS modules document cfg)))).
  { intros before after later args Hsplit Hlater Hcall.
    rewrite Hw in Hcall. cbn [core] in Hcall.
    destruct (prepare_event_of_start modules document cfg
                (Called later "prepare" args) eq_refl Hcall) as (_ & Hcall').
    fold c2 in Hcall'. revert Hcall'. rewrite Hsplit.
    apply chain_critical_stops with (e := e); auto.
    rewrite <- Hsplit. apply NoDup_modulesToPrepare. }
  split; [assumption|]. split; [now rewrite Hw|]. split; [now rewrite Hw|].
  split; [exact Hlater|].
  intros -> args.
  apply (Hlater [] ["UI"; "BlockManager"; "Paste"; "BlockSelection";
                    "RectangleSelection"; "CrossBlockSelection"; "ReadOnly"]
                "BlockManager" args eq_refl).
  simpl. auto.
Qed.

Lemma fatal_prepare_error_rejects_witness :
  ready (new_ModuleJS (editor_modules_failing "Tools" tools_error) page with_payload)
  = Rejected (mkError PlainError "tools are not configured") /\
  ~ In (Called "BlockManager" "prepare" [])
       (trace (core (new_ModuleJS (editor_modules_failing "Tools" tools_error)
                                  page with_payload))).
Proof.
  assert (Hin : In (Settled "Tools" "prepare" (Throws tools_error))
                   (trace (core (new_ModuleJS
                                   (editor_modules_failing "Tools" tools_error)
                                   page with_payload)))).
  { vm_compute. do 12 right. left. reflexivity. }
  destruct (fatal_prepare_error_rejects
              (editor_modules_failing "Tools" tools_error) page with_payload
              "Tools" tools_error eq_refl Hin)
    as (_ & _ & Hready & _ & Htools).
  split; [exact Hready | exact (Htools eq_refl [])].
Defined.

(* ================================================================== *)
(** * The registry and the peer views *)

Lemma constructs_None Module : constructs Module = true <-> construct Module = None.
Proof. unfold constructs. destruct (construct Module); split; congruence. Qed.

Lemma construct_events_Logged l : forall n level text,
  In (Logged level text) (construct_events n l) ->
  level = "warn" /\
  exists Module,
    In Module l /\ construct Module <> None /\
    text = "Module " ++ displayName Module ++ " skipped because".
Proof.
  induction l as [|M0 l IH]; intros n level text; simpl; [tauto|].
  destruct (constructs M0) eqn:Hc; intros [H|H].
  - discriminate.
  - destruct (IH _ _ _ H) as (Hl & M & Hin & Hne & Ht). eauto 8.
  - injection H as <- <-. split; [reflexivity|]. exists M0.
    repeat split; [now left|].
    intros Hnone. apply constructs_None in Hnone. congruence.
  - destruct (IH _ _ _ H) as (Hl & M & Hin & Hne & Ht). eauto 8.
Qed.

(** C8, as the code has it.  The registry holds a name once, bound to the
    instance of the last class of that name whose constructor returned:
    that instance replaces the earlier ones.  The overwrite logs nothing:
    the only warnings of [constructModules()] are those for the classes
    whose constructor threw. *)
Theorem duplicate_name_last_constructed_wins modules name r :
  let c := snd (constructModules modules empty_Core) in
  NoDup (keys (moduleInstances c)) /\
  (get (moduleInstances c) name = Some r ->
   exists before Module after,
     modules = (before ++ Module :: after)%list /\
     construct Module = None /\
     displayName Module = name /\
     nth_error (heap c) r = Some (mkInstance Module None) /\
     forall Module', In Module' after -> construct Module' = None ->
                     displayName Module' <> name) /\
  (forall Module, In Module modules -> construct Module = None ->
                  exists r', get (moduleInstances c) (displayName Module) = Some r') /\
  (forall level text,
      In (Logged level text) (trace c) ->
      level = "warn" /\
      exists Module,
        In Module modules /\ construct Module <> None /\
        text = "Module " ++ displayName Module ++ " skipped because").
Proof.
  cbv zeta. rewrite constructModules_eq. cbn.
  split; [apply built_NoDup; constructor|]. split; [|split].
  - intros Hget.
    destruct (built_fresh _ _ Hget) as (l1 & M & l2 & Hsplit & Hc & Hdn & _ & Hnth & Hlast).
    exists l1, M, l2. repeat split; auto.
    + now apply constructs_None.
    + intros M' Hin Hc'. apply Hlast; [assumption | now apply constructs_None].
  - intros Module Hin Hc. apply In_keys_get. apply built_keys. right.
    exists Module. repeat split; [assumption | now apply constructs_None].
  - apply construct_events_Logged.
Qed.

Lemma duplicate_name_last_constructed_wins_witness :
  exists Module,
    construct Module = None /\ displayName Module = "Paste" /\
    nth_error (heap (snd (constructModules paste_twice empty_Core))) 1
    = Some (mkInstance Module None).
Proof.
  destruct (duplicate_name_last_constructed_wins paste_twice "Paste" 1)
    as (_ & Hget & _).
  destruct (Hget eq_refl) as (_ & Module & _ & _ & Hc & Hdn & Hnth & _).
  exists Module. repeat split; assumption.
Defined.

(** C8 as stated fails: the second Paste replaces the first and no
    warning is logged. *)
Lemma duplicate_name_overwrite_is_silent :
  get (moduleInstances (snd (constructModules paste_twice empty_Core))) "Paste"
  = Some 1 /\
  nth_error (heap (snd (constructModules paste_twice empty_Core))) 1
  = Some (mkInstance (failing "Paste" paste_error) None) /\
  trace (snd (constructModules paste_twice empty_Core))
  = [Constructed "Paste" 0; Constructed "Paste" 1] /\
  ~ (exists level text,
        In (Logged level text)
           (trace (snd (constructModules paste_twice empty_Core)))).
Proof.
  repeat split.
  intros (level & text & [H|[H|[]]]); discriminate.
Qed.

Lemma NoDup_map_eq {A B} (f : A -> B) l a b :
  NoDup (map f l) -> In a l -> In b l -> f a = f b -> a = b.
Proof.
  induction l as [|x l IH]; simpl; [tauto|].
  intros Hnd Ha Hb Hf. inversion Hnd as [|? ? Hnotin Hnd']; subst.
  destruct Ha as [<-|Ha], Hb as [<-|Hb]; auto.
  - exfalso. apply Hnotin. rewrite Hf. now apply in_map.
  - exfalso. apply Hnotin. rewrite <- Hf. now apply in_map.
Qed.

(** C6. After [init()], the [state] of every module X of the registry is
    an object that holds each name once, does not hold the name of X, and
    binds every other name of the registry to the reference the registry
    binds it to: the very instance, not a copy.  When the classes have
    distinct names, every module whose constructor returned is in the
    registry. *)
Theorem peer_views_hold_the_others modules cfg :
  let c := snd (init modules (configured cfg)) in
  (forall name r,
      get (moduleInstances c) name = Some r ->
      exists X view,
        nth_error (heap c) r = Some X /\
        displayName (inst_class X) = name /\
        state X = Some view /\
        NoDup (keys view) /\
        get view name = None /\
        forall other, other <> name ->
                      get view other = get (moduleInstances c) other) /\
  (NoDup (map displayName modules) ->
   forall Module,
     In Module modules -> construct Module = None ->
     exists r X,
       get (moduleInstances c) (displayName Module) = Some r /\
       nth_error (heap c) r = Some X /\ inst_class X = Module).
Proof.
  cbv zeta. rewrite init_configured. cbn.
  set (mi := built [] 0 modules).
  assert (Hwire : forall name r,
             get mi name = Some r ->
             exists Module X,
               In Module modules /\ displayName Module = name /\
               nth_error (wire mi (fresh modules) (keys mi)) r = Some X /\
               inst_class X = Module /\
               state X = Some (getModulesDiff mi name)).
  { intros name r Hget.
    destruct (built_fresh _ _ Hget) as (l1 & M & l2 & Hsplit & _ & Hdn & _ & Hnth & _).
    destruct (wire_nth (built_injective modules) (keys mi) _ _ Hnth)
      as (X & HX & Hcls & Hstate & _).
    exists M, X. repeat split; auto.
    - rewrite Hsplit. apply in_or_app. right. now left.
    - apply Hstate; [|assumption]. now apply get_In_keys in Hget. }
  split.
  - intros name r Hget.
    destruct (Hwire _ _ Hget) as (M & X & _ & Hdn & HX & Hcls & Hstate).
    exists X, (getModulesDiff mi name).
    repeat split; auto.
    + now rewrite Hcls.
    + apply getModulesDiff_NoDup.
    + now rewrite getModulesDiff_get, String.eqb_refl.
    + intros other Hne. rewrite getModulesDiff_get.
      destruct (String.eqb other name) eqn:E; [|reflexivity].
      now apply String.eqb_eq in E.
  - intros Hnd Module Hin Hc.
    assert (Hkey : In (displayName Module) (keys mi)).
    { apply built_keys. right. exists Module.
      repeat split; [assumption | now apply constructs_None]. }
    apply In_keys_get in Hkey. destruct Hkey as (r & Hget).
    destruct (Hwire _ _ Hget) as (M & X & HinM & Hdn & HX & Hcls & _).
    exists r, X. repeat split; auto.
    rewrite Hcls. now apply (NoDup_map_eq displayName modules).
Qed.

Lemma peer_views_hold_the_others_witness :
  exists r X,
    get (moduleInstances (snd (init editor_modules (configured with_payload))))
        "Paste" = Some r /\
    nth_error (heap (snd (init editor_modules (configured with_payload)))) r
    = Some X /\
    inst_class X = plain "Paste".
Proof.
  destruct (peer_views_hold_the_others editor_modules with_payload) as (_ & Hall).
  apply (Hall ltac:(vm_compute; repeat (constructor; [simpl; intuition discriminate|]); constructor)
              (plain "Paste")).
  - vm_compute. do 6 right. left. reflexivity.
  - reflexivity.
Defined.

(* ================================================================== *)
(** * Teardown *)

Lemma with_core_core w : with_core (core w) w = w.
Proof. now destruct w. Qed.

Lemma core_only_ret {A} (a : A) : core_only (ret a).
Proof. intros w. exists (Normal a), (core w). now rewrite with_core_core. Qed.

Lemma core_only_throw {A} e : core_only (@throw ModuleJS A e).
Proof. intros w. exists (Throw e), (core w). now rewrite with_core_core. Qed.

Lemma core_only_on_core {A} (m : M Core A) : core_only (on_core m).
Proof.
  intros w. unfold on_core. destruct (m (core w)) as [r c']. now exists r, c'.
Qed.

Lemma core_only_bind {A B} (m : M ModuleJS A) (k : A -> M ModuleJS B) :
  core_only m -> (forall a, core_only (k a)) -> core_only (bind m k).
Proof.
  intros Hm Hk w. destruct (Hm w) as (r & c' & Hr). unfold bind. rewrite Hr.
  destruct r as [a|e|]; [|now exists (Throw e), c' | now exists Hang, c'].
  destruct (Hk a (with_core c' w)) as (r' & c'' & Hr').
  exists r', c''. rewrite Hr'. now destruct w.
Qed.

Lemma core_only_destroy_instance r : core_only (destroy_instance r).
Proof.
  unfold destroy_instance. intros w. unfold bind at 1, get_state at 1.
  destruct (nth_error (heap (core w)) r) as [moduleInstance|];
    [|apply core_only_throw].
  apply core_only_bind.
  - destruct (method (inst_class moduleInstance) "destroy");
      first [apply core_only_ret | apply core_only_on_core].
  - intros _. destruct (defined _ _); [apply core_only_on_core | apply core_only_throw].
Qed.

Lemma core_only_forEach {A} (l : list A) (f : A -> M ModuleJS unit) :
  (forall a, core_only (f a)) -> core_only (forEach l f).
Proof.
  intros Hf. induction l as [|a l IH]; simpl.
  - apply core_only_ret.
  - apply core_only_bind; [apply Hf | intros _; exact IH].
Qed.

Lemma strip_loop_eq names : forall w,
  forEach names (fun name =>
    w2 <- get_state ;;
    if hasOwnProperty (own w2) name
    then modify (with_own (delete (own w2) name))
    else ret tt) w
  = (Normal tt, with_own (strip names (own w)) w).
Proof.
  induction names as [|name names IH]; intros w; simpl.
  - now destruct w.
  - unfold bind at 1. unfold bind at 1. unfold get_state at 1.
    destruct (hasOwnProperty (own w) name); unfold modify, ret; rewrite IH;
      now destruct w.
Qed.

Lemma strip_all names : forall o,
  (forall k, In k (keys o) -> In k names) -> strip names o = [].
Proof.
  unfold strip. induction names as [|name names IH]; intros o Hsub; simpl.
  - apply keys_nil. destruct (keys o) as [|k ks]; [reflexivity|].
    destruct (Hsub k (or_introl eq_refl)).
  - apply IH. intros k Hk. unfold hasOwnProperty in Hk.
    destruct (get o name) eqn:Hget.
    + apply keys_delete in Hk. destruct Hk as [Hne Hk].
      destruct (Hsub k Hk) as [<-|Hin]; [contradiction | assumption].
    + destruct (Hsub k Hk) as [<-|Hin]; [|assumption].
      now apply get_None_keys in Hget.
Qed.

(** A [destroy()] that returns leaves a facade without a property of its
    own, without a prototype, and a closure whose [Module] is null. *)
Lemma destroy_returns w w' :
  destroy w = (Normal tt, w') ->
  own w' = [] /\ proto w' = NullPrototype /\ Module_bound w' = false /\
  ready w' = ready w.
Proof.
  unfold destroy. unfold bind at 1, get_state at 1.
  destruct (Module_bound w); simpl; [|discriminate].
  destruct (core_only_forEach (values (moduleInstances (core w))) destroy_instance
              core_only_destroy_instance w) as (r & c' & Hloop).
  unfold bind at 1. rewrite Hloop.
  destruct r as [[]|e|]; [|discriminate..].
  unfold bind at 1, modify at 1. unfold bind at 1, get_state at 1.
  unfold bind at 1. rewrite strip_loop_eq. unfold modify.
  intros [= <-]. cbn.
  rewrite strip_all; [auto|].
  intros k Hk. unfold for_in. cbn. apply in_or_app. now left.
Qed.

Lemma resolve_stripped w name :
  own w = [] -> proto w = NullPrototype -> resolve w name = RUndefined.
Proof. intros Ho Hp. unfold resolve. now rewrite Ho, Hp. Qed.

Lemma facade_call_stripped w name :
  own w = [] -> proto w = NullPrototype ->
  facade_call name w = (Throw (typeError (name ++ " is not a function")), w).
Proof.
  intros Ho Hp. unfold facade_call, bind, get_state.
  now rewrite resolve_stripped.
Qed.

Lemma destroy_instance_disposes r w :
  disposes (core w) r = true ->
  exists seg,
    destroy_instance r w = (Normal tt, with_core (emit_all seg (core w)) w).
Proof.
  unfold disposes, destroy_instance. unfold bind at 1, get_state at 1.
  destruct (nth_error (heap (core w)) r) as [moduleInstance|]; [|discriminate].
  cbv zeta. intros H. apply andb_prop in H. destruct H as [H Hremove].
  apply andb_prop in H. destruct H as [Hdestroy Hlisteners].
  rewrite Hlisteners.
  destruct (method (inst_class moduleInstance) "listeners.removeAll");
    try discriminate.
  destruct (method (inst_class moduleInstance) "destroy"); try discriminate;
    unfold bind, ret, on_core; rewrite ?invoke_eq; cbn [core with_core];
    rewrite ?invoke_eq, ?emit_all_app; eexists; destruct w; reflexivity.
Qed.

Lemma teardown_returns rs : forall w,
  forallb (disposes (core w)) rs = true ->
  exists seg,
    forEach rs destroy_instance w
    = (Normal tt, with_core (emit_all seg (core w)) w).
Proof.
  induction rs as [|r rs IH]; intros w H; simpl in *.
  - exists []. unfold ret. rewrite emit_all_nil. now destruct w.
  - apply andb_prop in H. destruct H as [Hr Hrs].
    destruct (destroy_instance_disposes r w Hr) as (seg & Hseg).
    unfold bind. rewrite Hseg.
    destruct (IH (with_core (emit_all seg (core w)) w) Hrs) as (seg' & Hseg').
    rewrite Hseg'. exists (seg ++ seg')%list. cbn [core with_core].
    rewrite emit_all_app. now destruct w.
Qed.

Lemma destroy_total w :
  Module_bound w = true ->
  forallb (disposes (core w)) (values (moduleInstances (core w))) = true ->
  exists w', destroy w = (Normal tt, w').
Proof.
  intros Hb Hd. unfold destroy. unfold bind at 1, get_state at 1.
  rewrite Hb. cbn [negb].
  destruct (teardown_returns _ w Hd) as (seg & Hseg).
  unfold bind at 1. rewrite Hseg.
  unfold bind at 1, modify at 1. unfold bind at 1, get_state at 1.
  unfold bind at 1. rewrite strip_loop_eq. unfold modify. eauto.
Qed.

(** C7. [destroy()] returns when the disposal of every module of the
    registry returns.  After it has, the facade has no property of its own
    left, the copied [configuration] among them, and no prototype; a call
    of any name on it, a method of [API.methods] as well, throws a
    [TypeError] and changes nothing. *)
Theorem destroy_strips_the_facade w :
  (Module_bound w = true ->
   forallb (disposes (core w)) (values (moduleInstances (core w))) = true ->
   exists w', destroy w = (Normal tt, w')) /\
  forall w',
    destroy w = (Normal tt, w') ->
    own w' = [] /\
    (forall name, get (own w') name = None) /\
    get (own w') "configuration" = None /\
    proto w' = NullPrototype /\
    forall name,
      facade_call name w' = (Throw (typeError (name ++ " is not a function")), w').
Proof.
  split; [apply destroy_total|].
  intros w' Hd. destruct (destroy_returns w Hd) as (Ho & Hp & _ & _).
  split; [assumption|]. split; [now rewrite Ho|]. split; [now rewrite Ho|].
  split; [assumption|].
  intros name. now apply facade_call_stripped.
Qed.

Lemma live_facade_destroy_returns :
  destroy live_facade = (Normal tt, snd (destroy live_facade)).
Proof. vm_compute. reflexivity. Qed.

Lemma destroy_strips_the_facade_witness :
  resolve live_facade "save" = RDelegated /\
  resolve live_facade "configuration"
  = ROwn (FConfiguration (own_properties with_payload)) /\
  exists w',
    destroy live_facade = (Normal tt, w') /\
    own w' = [] /\
    facade_call "save" w' = (Throw (typeError "save is not a function"), w').
Proof.
  destruct (destroy_strips_the_facade live_facade) as (Htotal & Hpost).
  destruct (Htotal ltac:(vm_compute; reflexivity) ltac:(vm_compute; reflexivity))
    as (w' & Hd).
  destruct (Hpost w' Hd) as (Ho & _ & _ & _ & Hcall).
  split; [vm_compute; reflexivity|]. split; [vm_compute; reflexivity|].
  exists w'. split; [exact Hd|]. split; [exact Ho | exact (Hcall "save")].
Defined.

(** C9. After a first [destroy()] has returned, the facade has no
    [destroy] property and no prototype, so that [facade.destroy] is
    undefined and a second [facade.destroy()] throws a [TypeError]; the
    closure itself, kept by a caller, throws on reading [Module], which is
    null.  Neither runs a step of the teardown: the state is unchanged. *)
Theorem destroy_cannot_run_twice w w' :
  destroy w = (Normal tt, w') ->
  get (own w') "destroy" = None /\
  proto w' = NullPrototype /\
  resolve w' "destroy" = RUndefined /\
  facade_call "destroy" w' = (Throw (typeError "destroy is not a function"), w') /\
  destroy w' =
  (Throw (typeError "Cannot read properties of null (reading 'moduleInstances')"), w').
Proof.
  intros Hd. destruct (destroy_returns w Hd) as (Ho & Hp & Hb & _).
  split; [now rewrite Ho|]. split; [assumption|].
  split; [now apply resolve_stripped|].
  split; [now apply (facade_call_stripped w' "destroy")|].
  unfold destroy, bind, get_state. now rewrite Hb.
Qed.

Lemma destroy_cannot_run_twice_witness :
  resolve live_facade "destroy" = ROwn FDestroy /\
  facade_call "destroy" (snd (destroy live_facade))
  = (Throw (typeError "destroy is not a function"), snd (destroy live_facade)).
Proof.
  destruct (destroy_cannot_run_twice live_facade live_facade_destroy_returns)
    as (_ & _ & _ & Hcall & _).
  split; [vm_compute; reflexivity | exact Hcall].
Defined.

(* ================================================================== *)
(** * Readiness *)

Lemma validate_existing_holder document c id :
  config_field c "holder" = VString id ->
  In id document ->
  truthy (config_field c "holderId") = false ->
  validate document c = (Normal tt, c).
Proof.
  intros Hholder Hin Hid. unfold validate, bind, get_state.
  rewrite Hholder, Hid. simpl.
  apply existsb_eqb_In in Hin. rewrite Hin. simpl.
  now destruct (negb (String.eqb id EmptyString)).
Qed.

(** What [focus] returns does not depend on the trace. *)
Lemma focus_fst seg c : fst (focus (emit_all seg c)) = fst (focus c).
Proof.
  unfold focus, bind, get_state.
  change (instance_of (emit_all seg c)) with (instance_of c).
  destruct (instance_of c "Caret") as [Caret|]; [|reflexivity].
  destruct (instance_of c "BlockManager") as [BlockManager|]; [|reflexivity].
  destruct (negb (defined (inst_class BlockManager) "blocks")); [reflexivity|].
  destruct (negb (defined (inst_class Caret) "positions")); [reflexivity|].
  rewrite !invoke_eq.
  destruct (invoke_result "setToBlock" _); reflexivity.
Qed.

(** The timer callback when the payload is there, [render] fulfils and
    the caret placement, if asked for, returns. *)
Lemma on_timeout_renders c Renderer :
  instance_of c "Renderer" = Some Renderer ->
  method (inst_class Renderer) "render" = Returns ->
  nullish (config_field c "data") = false ->
  (truthy (config_field c "autofocus") = true -> fst (focus c) = Normal tt) ->
  exists seg,
    forallb quiet seg = true /\
    on_timeout c =
    (Normal tt,
     with_isReady (settle (isReady c) Fulfilled)
       (emit_all (render_events (prop (config_field c "data") "blocks") seg) c)).
Proof.
  intros HR Hrender Hdata Hfocus.
  unfold on_timeout, render. unfold bind at 1. unfold bind at 1.
  unfold get_state at 1. rewrite HR, Hdata, Hrender, invoke_eq.
  cbn [invoke_result invoke_events].
  unfold bind at 1, get_state at 1.
  set (rendered := [Called "Renderer" "render" [prop (config_field c "data") "blocks"];
                    Settled "Renderer" "render" Returns]).
  change (config_field (emit_all rendered c) "autofocus")
    with (config_field c "autofocus").
  destruct (truthy (config_field c "autofocus")).
  - destruct (quietly_focus (emit_all rendered c)) as (r & seg & Hf & Hq).
    pose proof (focus_fst rendered c) as Hfst.
    rewrite Hf, (Hfocus eq_refl) in Hfst. cbn [fst] in Hfst. subst r.
    exists seg. split; [assumption|].
    unfold bind. rewrite Hf. unfold onReady, modify.
    destruct c; unfold render_events, rendered. same_trace.
  - exists []. split; [reflexivity|].
    unfold bind, ret, onReady, modify.
    destruct c; unfold render_events, rendered. same_trace.
Qed.

Lemma new_Core_ready modules document cfg id Renderer :
  let c2 := snd (init modules (configured cfg)) in
  config_field (configured cfg) "holder" = VString id ->
  In id document ->
  truthy (config_field (configured cfg) "holderId") = false ->
  nullish (config_field (configured cfg) "data") = false ->
  (truthy (config_field (configured cfg) "autofocus") = true ->
   fst (focus c2) = Normal tt) ->
  fst (start c2) = Normal tt ->
  instance_of c2 "Renderer" = Some Renderer ->
  method (inst_class Renderer) "render" = Returns ->
  exists seg,
    forallb quiet seg = true /\
    new_Core modules document cfg =
    with_isReady Fulfilled
      (emit_all (ready_events c2 (prop (config_field (configured cfg) "data") "blocks")
                              seg) c2).
Proof.
  cbv zeta. intros Hholder Hin Hid Hdata Hfocus Hstart HR Hrender.
  rewrite new_Core_eq, (validate_existing_holder document _ Hholder Hin Hid).
  cbn [fst]. cbv zeta.
  rewrite start_eq in Hstart. cbn [fst] in Hstart. rewrite Hstart.
  set (c2 := snd (init modules (configured cfg))) in *.
  assert (Hcfg : forall k, config_field c2 k = config_field (configured cfg) k).
  { intros k. unfold c2. now rewrite init_configured. }
  assert (Hp : isReady c2 = Pending).
  { unfold c2. now rewrite init_configured. }
  set (c3 := emit (Logged "log" "I'm ready!")
                  (emit_all (chain_events c2 modulesToPrepare) c2)).
  assert (Hc3 : c3 = emit_all (chain_events c2 modulesToPrepare ++
                               [Logged "log" "I'm ready!"]) c2).
  { unfold c3. now rewrite emit_emit_all, emit_all_app. }
  destruct (on_timeout_renders c3 (Renderer := Renderer)) as (seg & Hq & Hon).
  - exact HR.
  - exact Hrender.
  - change (nullish (config_field c2 "data") = false). now rewrite Hcfg.
  - change (truthy (config_field c2 "autofocus") = true -> fst (focus c3) = Normal tt).
    rewrite Hcfg, Hc3, focus_fst. exact Hfocus.
  - exists seg. split; [assumption|]. rewrite Hon.
    change (config_field c3 "data") with (config_field c2 "data").
    rewrite Hcfg. unfold ready_events.
    destruct c2; unfold c3, emit, with_isReady, emit_all; simpl in *.
    rewrite Hp. simpl. now rewrite <- !app_assoc.
Qed.

Lemma settle_calls_init modules cfg :
  settle_calls (trace (snd (init modules (configured cfg)))) = [].
Proof.
  rewrite init_configured. cbn. apply settle_calls_quiet, construct_events_quiet.
Qed.

Lemma settle_calls_ready_events c2 blocks seg :
  forallb quiet seg = true ->
  settle_calls (ready_events c2 blocks seg) = [OnReady].
Proof.
  intros Hq. unfold ready_events, render_events.
  rewrite settle_calls_app, chain_events_not_settle. cbn.
  now rewrite settle_calls_app, (settle_calls_quiet _ Hq).
Qed.

(** X21. In every run the two functions of [isReady] are called once at
    most, never both, and [isReady] is settled as that call says. *)
Lemma readiness_settles_at_most_once modules document cfg :
  let c := core (new_ModuleJS modules document cfg) in
  (settle_calls (trace c) = [] /\ isReady c = Pending) \/
  (settle_calls (trace c) = [OnReady] /\ isReady c = Fulfilled) \/
  (exists e, settle_calls (trace c) = [OnFail e] /\ isReady c = Rejected e).
Proof.
  cbv zeta.
  destruct (new_ModuleJS_core modules document cfg) as (seg & -> & Hseg).
  cbn [trace isReady emit_all]. rewrite settle_calls_app, (settle_calls_quiet _ Hseg).
  rewrite app_nil_r.
  destruct (new_Core_cases modules document cfg)
    as [(e & _ & Hc)|(_ & tail & Hc & Htail)].
  - right. right. exists e. rewrite Hc, (configured_eq cfg). split; reflexivity.
  - assert (Htr := f_equal trace Hc). cbn [trace with_isReady emit_all] in Htr.
    rewrite Htr, !settle_calls_app, settle_calls_init, chain_events_not_settle.
    cbn [app]. clear Htr Hc.
    destruct Htail as [(e & _ & -> & Hr)|[(_ & -> & Hr)|(_ & s & Hq & [(-> & Hr)|(-> & Hr)])]].
    + right. right. exists e. split; [reflexivity | assumption].
    + left. split; [reflexivity | assumption].
    + right. left. split; [|assumption].
      cbn. now rewrite settle_calls_app, (settle_calls_quiet _ Hq).
    + left. split; [|assumption].
      cbn. now apply settle_calls_quiet.
Qed.

(** C1, as the code has it.  The setter stores the configuration it is
    given and merges no defaults into it, so the payload has to come with
    the configuration.  For a configuration whose [holder] names an element
    of the document, with no [holderId] and with a [data] payload: when
    [start()] fulfils, the registry holds a Renderer whose [render] fulfils
    and an API with its [methods], the caret placement returns if
    [autofocus] asks for it, and the caller's [onReady] returns, then
    [render] completes, [isReady] and the facade's promise are fulfilled,
    [onReady()] is the only call of the two functions of [isReady], and the
    facade's [configuration] is the object the setter stored. *)
Theorem readiness_resolves_with_payload modules document cfg id Renderer API names :
  let w := new_ModuleJS modules document cfg in
  let c2 := snd (init modules (configured cfg)) in
  config_field (configured cfg) "holder" = VString id ->
  In id document ->
  truthy (config_field (configured cfg) "holderId") = false ->
  nullish (config_field (configured cfg) "data") = false ->
  (truthy (config_field (configured cfg) "autofocus") = true ->
   fst (focus c2) = Normal tt) ->
  fst (start c2) = Normal tt ->
  instance_of c2 "Renderer" = Some Renderer ->
  method (inst_class Renderer) "render" = Returns ->
  instance_of c2 "API" = Some API ->
  methods (inst_class API) = Some names ->
  user_onReady cfg = Returns ->
  isReady (core w) = Fulfilled /\
  ready w = Fulfilled /\
  settle_calls (trace (core w)) = [OnReady] /\
  In (Settled "Renderer" "render" Returns) (trace (core w)) /\
  resolve w "configuration" = ROwn (FConfiguration (config (configured cfg))) /\
  config (configured cfg) = own_properties cfg /\
  proto w = API_methods names.
Proof.
  cbv zeta. intros Hholder Hin Hid Hdata Hfocus Hstart HR Hrender HAPI Hmethods Huser.
  destruct (new_Core_ready modules document cfg (id := id) (Renderer := Renderer)
              Hholder Hin Hid Hdata Hfocus Hstart HR Hrender) as (seg & Hq & Hcore).
  set (c2 := snd (init modules (configured cfg))) in *.
  set (evs := ready_events c2 _ seg) in Hcore.
  assert (Hcfg : config c2 = config (configured cfg)).
  { unfold c2. now rewrite init_configured. }
  assert (Hw : new_ModuleJS modules document cfg =
               mkModuleJS
                 (emit_all [Called "configuration" "onReady" [];
                            Settled "configuration" "onReady" Returns]
                           (with_isReady Fulfilled (emit_all evs c2)))
                 true
                 [("isReady", FIsReady);
                  ("configuration", FConfiguration (config (configured cfg)));
                  ("destroy", FDestroy)]
                 (API_methods names) Fulfilled).
  { unfold new_ModuleJS. cbv zeta. cbn [core]. rewrite Hcore.
    cbn [isReady with_isReady].
    unfold bind at 1. rewrite exportAPI_eq. cbv zeta. cbn [core with_own].
    change (instance_of (with_isReady Fulfilled (emit_all evs c2)) "API")
      with (instance_of c2 "API").
    rewrite HAPI, Hmethods. unfold on_core. cbn [core with_own with_proto].
    rewrite invoke_eq, Huser. cbn. now rewrite Hcfg. }
  rewrite Hw. cbn [core ready proto isReady trace emit_all with_isReady].
  split; [reflexivity|]. split; [reflexivity|]. split; [|split; [|split; [|split]]].
  - rewrite !settle_calls_app. subst c2. rewrite settle_calls_init.
    unfold evs. now rewrite settle_calls_ready_events.
  - apply in_or_app. left. apply in_or_app. right.
    unfold evs, ready_events. apply in_or_app. right. simpl. auto.
  - reflexivity.
  - assert (Hobj : Utils.isObject cfg = true).
    { destruct cfg; try reflexivity; simpl in Hdata; discriminate. }
    unfold configured, set_configuration. now rewrite Hobj.
  - reflexivity.
Qed.

Lemma readiness_resolves_with_payload_witness :
  ready (new_ModuleJS editor_modules page with_payload_and_autofocus) = Fulfilled /\
  settle_calls
    (trace (core (new_ModuleJS editor_modules page with_payload_and_autofocus)))
  = [OnReady] /\
  resolve (new_ModuleJS editor_modules page with_payload_and_autofocus)
          "configuration"
  = ROwn (FConfiguration (own_properties with_payload_and_autofocus)).
Proof.
  assert (HR : instance_of
                 (snd (init editor_modules (configured with_payload_and_autofocus)))
                 "Renderer"
               = Some (mkInstance (plain "Renderer")
                         (state_of (snd (init editor_modules
                                            (configured with_payload_and_autofocus))) 0))).
  { vm_compute. reflexivity. }
  assert (HA : instance_of
                 (snd (init editor_modules (configured with_payload_and_autofocus)))
                 "API"
               = Some (mkInstance (plain "API")
                         (state_of (snd (init editor_modules
                                            (configured with_payload_and_autofocus))) 1))).
  { vm_compute. reflexivity. }
  destruct (readiness_resolves_with_payload editor_modules page
              with_payload_and_autofocus
              (id := "editor-holder") (names := ["blocks"; "caret"; "save"])
              eq_refl (or_introl eq_refl) eq_refl eq_refl
              (fun _ => ltac:(vm_compute; reflexivity))
              ltac:(vm_compute; reflexivity) HR eq_refl HA eq_refl eq_refl)
    as (_ & Hready & Hcalls & _ & Hcfg & _).
  split; [exact Hready|]. split; [exact Hcalls | exact Hcfg].
Defined.

(** An error thrown in the timer callback is reported to nobody: [onFail]
    is not called and [isReady] stays pending. *)
Lemma timer_callback_error_is_unhandled modules document cfg c e c' :
  boot modules document cfg empty_Core = (Normal tt, c) ->
  on_timeout c = (Throw e, c') ->
  new_Core modules document cfg = emit (Unhandled e) c' /\
  isReady (new_Core modules document cfg) = Pending /\
  settle_calls (trace (new_Core modules document cfg)) = [].
Proof.
  intros Hboot Hon.
  assert (Hnew : new_Core modules document cfg = emit (Unhandled e) c').
  { unfold new_Core. now rewrite Hboot, Hon. }
  split; [exact Hnew|].
  destruct (new_Core_cases modules document cfg)
    as [(e0 & Hv & _)|(Hv & tail & Hc & Htail)].
  { rewrite boot_eq, Hv in Hboot. discriminate. }
  rewrite boot_eq, Hv in Hboot. cbv zeta in Hboot.
  destruct (chain_result _ modulesToPrepare) as [[]|e0|] eqn:Hres;
    try discriminate.
  apply (f_equal snd) in Hboot. cbn [snd] in Hboot. subst c.
  match type of Hon with
  | on_timeout ?x = _ =>
      destruct (on_timeout_cases x) as [(seg & Hon' & _)|(r & seg & _ & Hon' & Hq)]
  end; rewrite Hon in Hon'; [discriminate|].
  apply (f_equal snd) in Hon'. cbn [snd] in Hon'. subst c'.
  rewrite Hnew. cbn [isReady trace emit emit_all].
  rewrite (init_configured modules cfg). cbn [isReady trace].
  split; [reflexivity|].
  rewrite !settle_calls_app, chain_events_not_settle,
    (settle_calls_quiet _ (construct_events_quiet modules 0)),
    (settle_calls_quiet _ Hq).
  reflexivity.
Qed.

(** C1 as stated fails.  With [{holder: "editor-holder"}], an element of
    that identifier in the document and every module well behaved, the
    payload is undefined: [render()] throws on reading its [blocks], in the
    timer callback, and [isReady] is neither fulfilled nor rejected; no
    facade is exported, so there is no [configuration] to read. *)
Lemma holder_only_is_never_ready :
  config_field (configured holder_only) "holder" = VString "editor-holder" /\
  In "editor-holder" page /\
  config_field (configured holder_only) "data" = VUndefined /\
  config (new_Core editor_modules page holder_only)
  = [("holder", VString "editor-holder")] /\
  isReady (new_Core editor_modules page holder_only) = Pending /\
  ready (new_ModuleJS editor_modules page holder_only) = Pending /\
  settle_calls (trace (new_Core editor_modules page holder_only)) = [] /\
  resolve (new_ModuleJS editor_modules page holder_only) "configuration"
  = RUndefined.
Proof.
  split; [reflexivity|]. split; [now left|]. split; [reflexivity|].
  repeat split; vm_compute; reflexivity.
Qed.

(** C2 at a run where it fails: [start()] fulfils and the payload is
    there, [render] of the Renderer rejects; the error is an unhandled
    rejection of the timer callback, [onFail] is never called and
    [isReady] stays pending. *)
Theorem render_error_leaves_readiness_pending :
  fst (boot editor_modules_render_fails page with_payload empty_Core) = Normal tt /\
  fst (on_timeout (snd (boot editor_modules_render_fails page with_payload empty_Core)))
  = Throw render_error /\
  skipn 28 (trace (new_Core editor_modules_render_fails page with_payload))
  = [ Called "Renderer" "render" [VObject []];
      Settled "Renderer" "render" (Throws render_error);
      Unhandled render_error ] /\
  settle_calls (trace (new_Core editor_modules_render_fails page with_payload)) = [] /\
  isReady (new_Core editor_modules_render_fails page with_payload) = Pending /\
  ready (new_ModuleJS editor_modules_render_fails page with_payload) = Pending.
Proof.
  repeat split; vm_compute; reflexivity.
Qed.

(* ================================================================== *)
(** * Module discovery *)

Lemma append_empty s1 s2 :
  (s1 ++ s2)%string = EmptyString -> s1 = EmptyString /\ s2 = EmptyString.
Proof. destruct s1; simpl; [auto | discriminate]. Qed.

Lemma append_nil_r s : (s ++ EmptyString)%string = s.
Proof. induction s; simpl; congruence. Qed.

Lemma append_assoc s1 s2 s3 :
  ((s1 ++ s2) ++ s3)%string = (s1 ++ (s2 ++ s3))%string.
Proof. induction s1; simpl; congruence. Qed.

Lemma nullable_language r :
  Regex.nullable r = true <-> in_language r EmptyString.
Proof.
  split.
  - induction r; simpl; intros H; try discriminate.
    + constructor.
    + apply andb_prop in H. destruct H as [H1 H2].
      change EmptyString with (EmptyString ++ EmptyString)%string.
      constructor; auto.
    + apply orb_prop in H. destruct H; [apply lang_alt_l | apply lang_alt_r]; auto.
    + constructor.
  - intros H. remember EmptyString as s eqn:Hs.
    induction H; simpl; try discriminate; auto.
    + apply append_empty in Hs. destruct Hs. now rewrite IHin_language1, IHin_language2.
    + now rewrite IHin_language.
    + rewrite IHin_language by assumption. apply orb_true_r.
Qed.

Lemma deriv_language a r : forall s,
  in_language (Regex.deriv a r) s <-> in_language r (String a s).
Proof.
  intros s. split.
  - revert s. induction r; simpl; intros s H.
    + inversion H.
    + inversion H.
    + destruct (p a) eqn:Hp; inversion H; subst. now constructor.
    + assert (Hcat : in_language (Regex.Cat (Regex.deriv a r1) r2) s ->
                     in_language (Regex.Cat r1 r2) (String a s)).
      { intros Hc. inversion Hc; subst.
        change (String a (s1 ++ s2)) with (String a s1 ++ s2)%string.
        constructor; auto. }
      destruct (Regex.nullable r1) eqn:Hn; [|auto].
      inversion H; subst; [auto|].
      change (String a s) with (EmptyString ++ String a s)%string.
      constructor; [now apply nullable_language | auto].
    + inversion H; subst; [apply lang_alt_l | apply lang_alt_r]; auto.
    + inversion H; subst.
      change (String a (s1 ++ s2)) with (String a s1 ++ s2)%string.
      constructor; auto.
  - intros H. remember (String a s) as t eqn:Ht. revert s Ht.
    induction H; intros t Ht; simpl; try discriminate.
    + injection Ht as <- <-. rewrite H. constructor.
    + destruct s1 as [|a1 s1]; simpl in Ht.
      * subst s2. apply nullable_language in H. rewrite H.
        apply lang_alt_r. now apply IHin_language2.
      * injection Ht as -> <-.
        assert (Hc : in_language (Regex.Cat (Regex.deriv a r1) r2) (s1 ++ s2)).
        { constructor; auto. }
        destruct (Regex.nullable r1); [now apply lang_alt_l | assumption].
    + apply lang_alt_l. auto.
    + apply lang_alt_r. auto.
    + destruct s1 as [|a1 s1]; simpl in Ht.
      * subst s2. now apply IHin_language2.
      * injection Ht as -> <-. constructor; auto.
Qed.

(** The matcher decides the language. *)
Lemma matches_language s : forall r,
  Regex.matches r s = true <-> in_language r s.
Proof.
  induction s as [|a s IH]; intros r; simpl.
  - apply nullable_language.
  - rewrite IH. apply deriv_language.
Qed.

Lemma language_char c s :
  in_language (char c) s <-> s = String c EmptyString.
Proof.
  unfold char. split.
  - intros H. inversion H; subst. apply Ascii.eqb_eq in H1. now subst.
  - intros ->. constructor. apply Ascii.eqb_refl.
Qed.

Lemma language_class p s :
  in_language (Regex.Class p) s <-> exists a, s = String a EmptyString /\ p a = true.
Proof.
  split.
  - intros H. inversion H; subst. eauto.
  - intros (a & -> & Hp). now constructor.
Qed.

Lemma language_star_class p s :
  in_language (Regex.Star (Regex.Class p)) s <-> all_chars p s = true.
Proof.
  split.
  - intros H. remember (Regex.Star (Regex.Class p)) as r eqn:Hr.
    induction H; try discriminate; [reflexivity|].
    injection Hr as ->. apply language_class in H. destruct H as (a & -> & Hp).
    simpl. rewrite Hp. now apply IHin_language2.
  - induction s as [|a s IH]; simpl; intros H; [constructor|].
    apply andb_prop in H. destruct H as [Ha Hs].
    change (String a s) with (String a EmptyString ++ s)%string.
    constructor; [now constructor | auto].
Qed.

Lemma language_cat r1 r2 s :
  in_language (Regex.Cat r1 r2) s <->
  exists s1 s2, s = (s1 ++ s2)%string /\ in_language r1 s1 /\ in_language r2 s2.
Proof.
  split.
  - intros H. inversion H; subst. eauto.
  - intros (s1 & s2 & -> & H1 & H2). now constructor.
Qed.

Lemma module_file_inv f :
  Regex.matches module_file f = true ->
  exists c body x,
    f = file_name c body x /\ c <> "_"%char /\
    all_chars word_or_slash body = true /\ (x = "t"%char \/ x = "j"%char).
Proof.
  intros H. apply matches_language in H. unfold module_file in H.
  apply language_cat in H. destruct H as (s1 & t1 & -> & H1 & H).
  apply language_cat in H. destruct H as (s2 & t2 & -> & H2 & H).
  apply language_cat in H. destruct H as (s3 & t3 & -> & H3 & H).
  apply language_cat in H. destruct H as (s4 & t4 & -> & H4 & H).
  apply language_cat in H. destruct H as (s5 & t5 & -> & H5 & H).
  apply language_cat in H. destruct H as (s6 & t6 & -> & H6 & H7).
  apply language_char in H1, H2, H5, H7. subst.
  apply language_class in H3, H6.
  destruct H3 as (c & -> & Hc), H6 as (x & -> & Hx).
  apply language_star_class in H4.
  exists c, s4, x. split; [reflexivity|]. split; [|split; [assumption|]].
  - intros ->. discriminate.
  - unfold t_or_j in Hx. apply orb_prop in Hx.
    destruct Hx as [Hx|Hx]; apply Ascii.eqb_eq in Hx; auto.
Qed.

Lemma module_file_intro c body x :
  c <> "_"%char -> all_chars word_or_slash body = true ->
  x = "t"%char \/ x = "j"%char ->
  Regex.matches module_file (file_name c body x) = true.
Proof.
  intros Hc Hbody Hx. apply matches_language. unfold module_file, file_name.
  apply language_cat. exists (String "."%char EmptyString). eexists.
  split; [reflexivity|]. split; [now apply language_char|].
  apply language_cat. exists (String "/"%char EmptyString). eexists.
  split; [reflexivity|]. split; [now apply language_char|].
  apply language_cat. exists (String c EmptyString). eexists.
  split; [reflexivity|]. split.
  { apply language_class. exists c. split; [reflexivity|].
    unfold not_underscore. apply negb_true_iff. now apply Ascii.eqb_neq. }
  apply language_cat. exists body. eexists.
  split; [reflexivity|]. split; [now apply language_star_class|].
  apply language_cat. exists (String "."%char EmptyString). eexists.
  split; [reflexivity|]. split; [now apply language_char|].
  apply language_cat. exists (String x EmptyString). eexists.
  split; [reflexivity|]. split; [|now apply language_char].
  apply language_class. exists x. split; [reflexivity|].
  unfold t_or_j. destruct Hx as [->| ->]; reflexivity.
Qed.

(** X1. A file name matches the pattern of the discovery loop exactly
    when it is [./], one character that is not an underscore, then letters,
    digits, underscores and slashes, then [.ts] or [.js], and nothing
    else. *)
Theorem module_file_names f :
  Regex.matches module_file f = true <->
  exists c body x,
    f = file_name c body x /\ c <> "_"%char /\
    all_chars word_or_slash body = true /\ (x = "t"%char \/ x = "j"%char).
Proof.
  split.
  - apply module_file_inv.
  - intros (c & body & x & -> & Hc & Hbody & Hx).
    now apply module_file_intro.
Qed.

Lemma all_chars_append p s1 s2 :
  all_chars p (s1 ++ s2) = all_chars p s1 && all_chars p s2.
Proof.
  induction s1 as [|a s1 IH]; simpl; [reflexivity|].
  now rewrite IH, andb_assoc.
Qed.



(** X2. The underscore that marks a file as private counts as the first
    character only: a name that starts with [./_] never matches, while a
    file of a subdirectory whose own name starts with an underscore does,
    when the path is made of word characters. *)
Theorem underscore_rule_is_for_the_first_character :
  (forall rest,
      Regex.matches module_file
        (String "."%char (String "/"%char (String "_"%char rest))) = false) /\
  (forall c dir file x,
      c <> "_"%char ->
      all_chars word_or_slash dir = true ->
      all_chars word_or_slash file = true ->
      x = "t"%char \/ x = "j"%char ->
      Regex.matches module_file
        (file_name c (dir ++ String "/"%char (String "_"%char file)) x) = true).
Proof.
  split.
  - intros rest.
    destruct (Regex.matches module_file _) eqn:H; [|reflexivity].
    apply module_file_inv in H. destruct H as (c & body & x & Heq & Hc & _).
    unfold file_name in Heq. injection Heq as Hc' _. congruence.
  - intros c dir file x Hc Hdir Hfile Hx.
    apply module_file_intro; auto.
    rewrite all_chars_append, Hdir. simpl. now rewrite Hfile.
Qed.

Lemma underscore_rule_is_for_the_first_character_witness :
  Regex.matches module_file "./_private.ts" = false /\
  Regex.matches module_file "./toolbar/_private.ts" = true.
Proof.
  destruct underscore_rule_is_for_the_first_character as (Hskip & Hload).
  split.
  - exact (Hskip "private.ts").
  - apply (Hload "t"%char "oolbar" "private" "t"%char);
      [discriminate | reflexivity | reflexivity | now left].
Defined.



Lemma discover_eq {A} (keys : list string) (contextRequire : string -> A) :
  discover keys contextRequire
  = map contextRequire (filter (Regex.matches module_file) keys).
Proof.
  unfold discover.
  assert (H : forall acc,
             fold_left
               (fun modules filename =>
                  if Regex.matches module_file filename
                  then (modules ++ [contextRequire filename])%list
                  else modules) keys acc
             = (acc ++ map contextRequire
                           (filter (Regex.matches module_file) keys))%list).
  { induction keys as [|k keys IH]; intros acc; simpl.
    - now rewrite app_nil_r.
    - rewrite IH. destruct (Regex.matches module_file k); simpl;
        [now rewrite <- app_assoc | reflexivity]. }
  apply H.
Qed.

(* ================================================================== *)
(** * What a [Core] calls *)

Section Appends.

Variable P : event -> bool.

Lemma appends_ret {A} (a : A) : appends P (ret a).
Proof. intros c. exists []. simpl. now rewrite app_nil_r. Qed.

Lemma appends_throw {A} e : appends P (@throw Core A e).
Proof. intros c. exists []. simpl. now rewrite app_nil_r. Qed.

Lemma appends_bind {A B} (m : M Core A) (k : A -> M Core B) :
  appends P m -> (forall a, appends P (k a)) -> appends P (bind m k).
Proof.
  intros Hm Hk c. destruct (Hm c) as (seg & Htr & Hseg). unfold bind.
  destruct (m c) as [[a|e|] c1]; simpl in *; [|eauto..].
  destruct (Hk a c1) as (seg' & Htr' & Hseg').
  exists (seg ++ seg')%list. rewrite Htr', Htr, forallb_app, Hseg, Hseg'.
  now rewrite app_assoc.
Qed.

Lemma appends_get {A} (k : Core -> M Core A) :
  (forall c0, appends P (k c0)) -> appends P (bind get_state k).
Proof. intros Hk c. unfold bind, get_state. apply Hk. Qed.

Lemma appends_try_catch {A} (m : M Core A) (h : error -> M Core A) :
  appends P m -> (forall e, appends P (h e)) -> appends P (try_catch m h).
Proof.
  intros Hm Hh c. destruct (Hm c) as (seg & Htr & Hseg). unfold try_catch.
  destruct (m c) as [[a|e|] c1]; simpl in *; [eauto| |eauto].
  destruct (Hh e c1) as (seg' & Htr' & Hseg').
  exists (seg ++ seg')%list. rewrite Htr', Htr, forallb_app, Hseg, Hseg'.
  now rewrite app_assoc.
Qed.

Lemma appends_emit ev : P ev = true -> appends P (modify (emit ev)).
Proof. intros H c. exists [ev]. simpl. now rewrite H. Qed.

Lemma appends_silent (f : Core -> Core) :
  (forall c, trace (f c) = trace c) -> appends P (modify f).
Proof. intros H c. exists []. simpl. now rewrite H, app_nil_r. Qed.

Lemma appends_invoke name meth args b :
  P (Called name meth args) = true ->
  (forall b', P (Settled name meth b') = true) ->
  appends P (invoke name meth args b).
Proof.
  intros Hc Hs c. rewrite invoke_eq. exists (invoke_events name meth args b).
  split; [reflexivity|].
  destruct b; simpl; rewrite ?Hc, ?Hs; reflexivity.
Qed.

Lemma appends_forEach {A} (l : list A) (f : A -> M Core unit) :
  (forall a, appends P (f a)) -> appends P (forEach l f).
Proof.
  intros Hf. induction l as [|a l IH]; simpl.
  - apply appends_ret.
  - apply appends_bind; [apply Hf | intros _; exact IH].
Qed.

End Appends.

Lemma appends_call_module name meth args :
  core_call name meth = true -> appends core_event (call_module name meth args).
Proof.
  intros Hm. unfold call_module. apply appends_get. intros c0.
  destruct (instance_of c0 name); [|apply appends_throw].
  apply appends_invoke; simpl; auto.
Qed.

Lemma appends_constructModules modules : appends core_event (constructModules modules).
Proof.
  unfold constructModules. apply appends_forEach. intros Module.
  apply appends_try_catch.
  - unfold new_Module. destruct (construct Module).
    + apply appends_bind; [apply appends_throw | intros r].
      apply appends_get. intros c0. now apply appends_silent.
    + apply appends_bind.
      * apply appends_get. intros c0.
        apply appends_bind; [now apply appends_silent | intros _].
        apply appends_bind; [now apply appends_emit | intros _].
        apply appends_ret.
      * intros r. apply appends_get. intros c0. now apply appends_silent.
  - intros e. now apply appends_emit.
Qed.

Lemma appends_configureModules : appends core_event configureModules.
Proof.
  unfold configureModules. apply appends_get. intros c0.
  apply appends_forEach. intros name. apply appends_get. intros c1.
  destruct (hasOwnProperty _ _); [|apply appends_ret].
  destruct (get _ _); [now apply appends_silent | apply appends_throw].
Qed.

Lemma appends_start : appends core_event start.
Proof.
  unfold start.
  assert (H : forall l (p : M Core unit),
             (forall name, In name l -> In name modulesToPrepare) ->
             appends core_event p ->
             appends core_event
               (fold_left (fun promise module => promise ;; prepare_step module) l p)).
  { induction l as [|name l IH]; intros p Hl Hp; simpl; [assumption|].
    apply IH; [intros n Hn; apply Hl; now right|].
    apply appends_bind; [assumption | intros _].
    unfold prepare_step. apply appends_try_catch.
    - apply appends_call_module. unfold core_call.
      rewrite String.eqb_refl.
      assert (Hin : existsb (String.eqb name) modulesToPrepare = true)
        by (apply existsb_eqb_In, Hl; now left).
      now rewrite Hin.
    - intros e. destruct (is_critical e); [apply appends_throw|].
      now apply appends_emit. }
  apply H; [auto | apply appends_ret].
Qed.

Lemma appends_on_timeout : appends core_event on_timeout.
Proof.
  unfold on_timeout. apply appends_bind.
  - unfold render. apply appends_get. intros c0.
    destruct (instance_of c0 "Renderer"); [|apply appends_throw].
    destruct (nullish _); [apply appends_throw|].
    apply appends_invoke; simpl; auto.
  - intros _. apply appends_get. intros c0. apply appends_bind.
    + destruct (truthy _); [|apply appends_ret].
      unfold focus. apply appends_get. intros c1.
      destruct (instance_of c1 "Caret"); [|apply appends_throw].
      destruct (instance_of c1 "BlockManager"); [|apply appends_throw].
      destruct (negb _); [apply appends_throw|].
      destruct (negb _); [apply appends_throw|].
      apply appends_bind; [|intros _]; apply appends_invoke; simpl; auto.
    + intros _. unfold onReady. intros c. exists [OnReady]. split; reflexivity.
Qed.

Lemma appends_boot modules document cfg :
  appends core_event (boot modules document cfg).
Proof.
  unfold boot.
  apply appends_bind.
  { unfold set_configuration. destruct (Utils.isObject cfg); now apply appends_silent. }
  intros _. apply appends_bind.
  { unfold validate. apply appends_get. intros c0.
    repeat match goal with |- context [if ?b then _ else _] => destruct b end;
      first [apply appends_throw | apply appends_ret]. }
  intros _. apply appends_bind.
  { unfold init. apply appends_bind;
      [apply appends_constructModules | intros _; apply appends_configureModules]. }
  intros _. apply appends_bind; [apply appends_start | intros _].
  now apply appends_emit.
Qed.

Lemma core_events_new_Core modules document cfg :
  forallb core_event (trace (new_Core modules document cfg)) = true.
Proof.
  unfold new_Core.
  destruct (appends_boot modules document cfg empty_Core) as (seg & Htr & Hseg).
  destruct (boot modules document cfg empty_Core) as [[[]|e|] c]; simpl in Htr.
  - destruct (appends_on_timeout c) as (seg' & Htr' & Hseg').
    destruct (on_timeout c) as [[[]|e|] c']; simpl in Htr';
      cbn [trace emit]; rewrite Htr', Htr, ?forallb_app, Hseg, Hseg'; reflexivity.
  - unfold on_catch, bind, log, onFail, modify. cbn.
    rewrite Htr, !forallb_app, Hseg. reflexivity.
  - now rewrite Htr.
Qed.

(** X4. The calls a [Core] makes into the modules, from its construction
    to readiness, are [prepare] on modules of the fixed list, without
    arguments for [prepare], [render] on the Renderer, and [setToBlock] on
    the Caret and [highlightCurrentNode] on the BlockManager: it calls
    [prepare] on no other module, and no [destroy] or [removeAll] at all. *)
Theorem core_calls_into_modules modules document cfg name meth :
  (forall args, In (Called name meth args) (trace (new_Core modules document cfg)) ->
                core_call name meth = true) /\
  (forall b, In (Settled name meth b) (trace (new_Core modules document cfg)) ->
             core_call name meth = true) /\
  (forall args, In (Called name "prepare" args)
                   (trace (new_Core modules document cfg)) ->
                In name modulesToPrepare /\ args = []).
Proof.
  pose proof (core_events_new_Core modules document cfg) as H.
  rewrite forallb_forall in H.
  split; [|split].
  - intros args Hin. exact (H _ Hin).
  - intros b Hin. exact (H _ Hin).
  - intros args Hin.
    destruct (prepare_event_of_start modules document cfg
                (Called name "prepare" args) eq_refl Hin) as (_ & Hchain).
    clear -Hchain. induction modulesToPrepare as [|a l IH]; simpl in *; [tauto|].
    apply in_app_or in Hchain. destruct Hchain as [Hc|Hc].
    + apply step_events_Called in Hc. destruct Hc as (-> & _ & ->). auto.
    + destruct (step_result _); [|destruct Hc..].
      destruct (IH Hc). auto.
Qed.

Lemma core_calls_into_modules_witness :
  core_call "Paste" "prepare" = true /\ core_call "Renderer" "prepare" = false.
Proof.
  destruct (core_calls_into_modules editor_modules page with_payload
                                    "Paste" "prepare") as (Hcall & _).
  split; [|reflexivity].
  apply (Hcall []). vm_compute. do 17 right. left. reflexivity.
Defined.

(* ================================================================== *)
(** * More on the registry and the peer views *)

(** The instance behind a reference of the registry that [init()] builds. *)
Lemma init_instance modules name r :
  let mi := built [] 0 modules in
  get mi name = Some r ->
  exists Module X,
    In Module modules /\ construct Module = None /\
    displayName Module = name /\
    nth_error (wire mi (fresh modules) (keys mi)) r = Some X /\
    inst_class X = Module /\
    state X = Some (getModulesDiff mi name).
Proof.
  cbv zeta. intros Hget.
  destruct (built_fresh _ _ Hget) as (l1 & M & l2 & Hsplit & Hc & Hdn & _ & Hnth & _).
  destruct (wire_nth (built_injective modules) (keys (built [] 0 modules)) _ _ Hnth)
    as (X & HX & Hcls & Hstate & _).
  exists M, X. repeat split; auto.
  - rewrite Hsplit. apply in_or_app. right. now left.
  - now apply constructs_None.
  - apply Hstate; [|assumption]. now apply get_In_keys in Hget.
Qed.

Lemma set_new {A} (o : obj A) k v :
  ~ In k (keys o) -> set o k v = (o ++ [(k, v)])%list.
Proof.
  induction o as [|[k0 v0] o IH]; simpl; intros Hnot; [reflexivity|].
  destruct (String.eqb k0 k) eqn:E.
  - apply String.eqb_eq in E. exfalso. apply Hnot. now left.
  - rewrite IH; [reflexivity|]. intros Hin. apply Hnot. now right.
Qed.

Lemma In_get {A} (o : obj A) k v :
  NoDup (keys o) -> In (k, v) o -> get o k = Some v.
Proof.
  induction o as [|[k0 v0] o IH]; simpl; intros Hnd Hin; [destruct Hin|].
  inversion Hnd as [|? ? Hnotin Hnd']; subst.
  destruct Hin as [[= -> ->]|Hin].
  - now rewrite String.eqb_refl.
  - destruct (String.eqb k0 k) eqn:E.
    + apply String.eqb_eq in E. subst k0. exfalso. apply Hnotin.
      change k with (fst (k, v)). now apply in_map.
    + now apply IH.
Qed.

Lemma diff_fold_delete (mi : obj ref) name : forall l acc,
  (forall k r, In (k, r) l -> get mi k = Some r) ->
  NoDup (keys acc ++ keys l) ->
  fold_left
    (fun diff moduleName =>
       if String.eqb moduleName name then diff
       else match get mi moduleName with
            | Some r => set diff moduleName r
            | None => diff
            end) (keys l) acc
  = (acc ++ delete l name)%list.
Proof.
  induction l as [|[k r] l IH]; intros acc Hget Hnd; simpl.
  - now rewrite app_nil_r.
  - simpl in Hnd.
    assert (Hnd' : NoDup (keys acc ++ keys l)) by now apply NoDup_remove_1 in Hnd.
    assert (Hk : ~ In k (keys acc)).
    { apply NoDup_remove_2 in Hnd. intros Hin. apply Hnd. apply in_or_app. now left. }
    destruct (String.eqb k name) eqn:E.
    + apply IH; [|assumption]. intros k' r' Hin. apply Hget. now right.
    + rewrite (Hget k r (or_introl eq_refl)), (@set_new _ acc k r Hk), IH.
      * now rewrite <- app_assoc.
      * intros k' r' Hin. apply Hget. now right.
      * unfold keys in *. rewrite map_app, <- app_assoc. exact Hnd.
Qed.

Lemma getModulesDiff_delete mi name :
  NoDup (keys mi) -> getModulesDiff mi name = delete mi name.
Proof.
  intros Hnd. unfold getModulesDiff.
  rewrite (diff_fold_delete mi name mi []); [reflexivity | | exact Hnd].
  intros k r Hin. now apply In_get.
Qed.

Lemma delete_absent {A} (o : obj A) k : ~ In k (keys o) -> delete o k = o.
Proof.
  induction o as [|[k0 v0] o IH]; simpl; intros Hnot; [reflexivity|].
  destruct (String.eqb k0 k) eqn:E.
  - apply String.eqb_eq in E. exfalso. apply Hnot. now left.
  - rewrite IH; [reflexivity|]. intros Hin. apply Hnot. now right.
Qed.

Lemma length_delete {A} (o : obj A) k v :
  NoDup (keys o) -> get o k = Some v -> S (length (delete o k)) = length o.
Proof.
  induction o as [|[k0 v0] o IH]; simpl; intros Hnd Hget; [discriminate|].
  inversion Hnd as [|? ? Hnotin Hnd']; subst.
  destruct (String.eqb k0 k) eqn:E.
  - apply String.eqb_eq in E. subst k0. now rewrite delete_absent.
  - simpl. f_equal. now apply IH.
Qed.

(** X5. [getModulesDiff(name)] is the registry with the entry of [name]
    taken out, the other entries in the order of the registry: one entry
    less when [name] is there, and a copy of the registry when it is
    not. *)
Theorem getModulesDiff_deletes_the_name mi name :
  NoDup (keys mi) ->
  getModulesDiff mi name = delete mi name /\
  (forall r, get mi name = Some r ->
             S (length (getModulesDiff mi name)) = length mi) /\
  (~ In name (keys mi) -> getModulesDiff mi name = mi).
Proof.
  intros Hnd. rewrite getModulesDiff_delete by assumption.
  split; [reflexivity|]. split.
  - intros r Hget. now apply length_delete with (v := r).
  - apply delete_absent.
Qed.

Lemma getModulesDiff_deletes_the_name_witness :
  getModulesDiff [("Tools", 0); ("UI", 1); ("Paste", 2)] "UI"
  = [("Tools", 0); ("Paste", 2)] /\
  getModulesDiff [("Tools", 0); ("UI", 1); ("Paste", 2)] "Caret"
  = [("Tools", 0); ("UI", 1); ("Paste", 2)].
Proof.
  assert (Hnd : NoDup (keys [("Tools", 0); ("UI", 1); ("Paste", 2)])).
  { repeat (constructor; [simpl; intuition discriminate|]). constructor. }
  destruct (getModulesDiff_deletes_the_name [("Tools", 0); ("UI", 1); ("Paste", 2)]
              "UI" Hnd) as (Hui & _).
  split; [exact Hui | reflexivity].
Defined.

(** The registry and the heap of a run are those of [init()], or empty
    when validation threw. *)
Lemma new_Core_registry modules document cfg :
  let c := new_Core modules document cfg in
  let c2 := snd (init modules (configured cfg)) in
  (moduleInstances c = [] /\ heap c = []) \/
  (moduleInstances c = moduleInstances c2 /\ heap c = heap c2).
Proof.
  cbv zeta.
  destruct (new_Core_cases modules document cfg)
    as [(e & _ & Hc)|(_ & tail & Hc & _)]; rewrite Hc.
  - left. rewrite (configured_eq cfg). split; reflexivity.
  - right. split; reflexivity.
Qed.

(** X6. Every module of the registry of a run on the discovered modules
    is an instance of the class required from a file of
    [contextRequire.keys()] whose name matches the pattern, and whose
    constructor returned: a file that does not match gives no module. *)
Theorem registry_comes_from_matching_files
    keys (contextRequire : string -> ModuleClass) document cfg name r :
  let c := new_Core (discover keys contextRequire) document cfg in
  get (moduleInstances c) name = Some r ->
  exists filename X,
    In filename keys /\
    Regex.matches module_file filename = true /\
    nth_error (heap c) r = Some X /\
    inst_class X = contextRequire filename /\
    displayName (contextRequire filename) = name /\
    construct (contextRequire filename) = None.
Proof.
  cbv zeta. intros Hget.
  destruct (new_Core_registry (discover keys contextRequire) document cfg)
    as [[Hmi Hheap]|[Hmi Hheap]]; rewrite Hmi in Hget; [discriminate|].
  rewrite Hheap. rewrite init_configured in *. cbn in *.
  destruct (init_instance _ _ Hget) as (M & X & Hin & Hc & Hdn & HX & Hcls & _).
  rewrite discover_eq in Hin. apply in_map_iff in Hin.
  destruct Hin as (filename & <- & Hin). apply filter_In in Hin.
  destruct Hin as [Hin Hmatch].
  exists filename, X. repeat split; auto.
Qed.

Lemma registry_comes_from_matching_files_witness :
  exists filename,
    In filename ["./_helpers.ts"; "./paste.ts"] /\
    Regex.matches module_file filename = true /\
    displayName (plain filename) = "./paste.ts".
Proof.
  destruct (@registry_comes_from_matching_files
              ["./_helpers.ts"; "./paste.ts"] plain page with_payload
              "./paste.ts" 0 ltac:(vm_compute; reflexivity))
    as (filename & X & Hin & Hmatch & _ & _ & Hdn & _).
  exists filename. repeat split; assumption.
Defined.

(** X7. After [init()], the [state] of the module registered under a name
    is the registry without that name, in the order of the registry; and
    two modules of the registry reach each other: each is, under its
    name, in the [state] of the other, as the instance the registry
    holds. *)
Theorem peer_views_are_the_registry_without_the_owner modules cfg name r :
  let c := snd (init modules (configured cfg)) in
  get (moduleInstances c) name = Some r ->
  state_of c r = Some (delete (moduleInstances c) name) /\
  forall other r',
    other <> name -> get (moduleInstances c) other = Some r' ->
    exists view view',
      state_of c r = Some view /\ get view other = Some r' /\
      state_of c r' = Some view' /\ get view' name = Some r.
Proof.
  cbv zeta. rewrite init_configured. cbn [moduleInstances heap].
  set (mi := built [] 0 modules). intros Hget.
  assert (Hnd : NoDup (keys mi)) by (apply built_NoDup; constructor).
  assert (Hstate : forall n q, get mi n = Some q ->
             state_of (mkCore (config (configured cfg)) mi
                              (wire mi (fresh modules) (keys mi)) Pending
                              (construct_events 0 modules)) q
             = Some (delete mi n)).
  { intros n q Hq. destruct (init_instance _ _ Hq) as (M & X & _ & _ & _ & HX & _ & Hs).
    unfold state_of. cbn [heap]. fold mi in HX. rewrite HX, Hs.
    now rewrite getModulesDiff_delete. }
  split; [now apply Hstate|].
  intros other r' Hne Hother.
  exists (delete mi name), (delete mi other).
  split; [now apply Hstate|]. split.
  - rewrite get_delete.
    destruct (String.eqb name other) eqn:E; [|assumption].
    apply String.eqb_eq in E. congruence.
  - split; [now apply Hstate|]. rewrite get_delete.
    destruct (String.eqb other name) eqn:E; [|assumption].
    apply String.eqb_eq in E. congruence.
Qed.

Lemma peer_views_are_the_registry_without_the_owner_witness :
  state_of (snd (init (map plain ["Tools"; "UI"; "Paste"]) (configured with_payload))) 1
  = Some [("Tools", 0); ("Paste", 2)].
Proof.
  destruct (@peer_views_are_the_registry_without_the_owner
              (map plain ["Tools"; "UI"; "Paste"]) with_payload "UI" 1
              ltac:(vm_compute; reflexivity)) as (Hstate & _).
  rewrite Hstate. vm_compute. reflexivity.
Defined.

(* ================================================================== *)
(** * Construction: classes that are missing, constructors that throw *)

Lemma forEach_app {S A} (l1 l2 : list A) (f : A -> M S unit) s :
  forEach (l1 ++ l2)%list f s = (forEach l1 f ;; forEach l2 f) s.
Proof.
  revert s. induction l1 as [|x l1 IH]; intros s; [reflexivity|].
  cbn [forEach app]. unfold bind.
  destruct (f x s) as [[[]|e|] s']; [|reflexivity|reflexivity].
  rewrite IH. reflexivity.
Qed.

Lemma bind_ext {S A B} (m : M S A) (k1 k2 : A -> M S B) s :
  (forall a s', k1 a s' = k2 a s') -> bind m k1 s = bind m k2 s.
Proof.
  intros H. unfold bind. destruct (m s) as [[a|e|] s']; auto.
Qed.

(** Where every required file gives a class, [constructModules()] goes
    through these classes. *)
Lemma constructModules_of_classes before : forall classes c,
  map class_of before = map Some classes ->
  constructModules_of before c = constructModules classes c.
Proof.
  induction before as [|module before IH]; intros [|cls classes] c Hmap;
    try discriminate; [reflexivity|].
  cbn [map] in Hmap. injection Hmap as Hcls Hmap.
  unfold constructModules_of, constructModules. cbn [forEach].
  rewrite Hcls. apply bind_ext. intros _ c'.
  apply IH, Hmap.
Qed.

(** X8. A required file that is no class and exports no default stops
    [constructModules()]: reading [displayName] of the missing class throws
    a TypeError in the [try] and once more in the [catch], so the error
    leaves the loop.  The modules of the files before it have been
    constructed as usual, and none of the files after it is looked at. *)
Theorem module_without_class_aborts_construction before classes after c :
  map class_of before = map Some classes ->
  constructModules_of before c = constructModules classes c /\
  constructModules_of (before ++ ExportsObject None :: after) c
  = (Throw (typeError "Cannot read properties of undefined (reading 'displayName')"),
     snd (constructModules classes c)).
Proof.
  intros Hmap. split; [now apply constructModules_of_classes|].
  unfold constructModules_of. rewrite forEach_app.
  fold (constructModules_of before). unfold bind at 1.
  rewrite (constructModules_of_classes _ _ c Hmap), constructModules_eq.
  reflexivity.
Qed.

Lemma module_without_class_aborts_construction_witness :
  constructModules_of
    [ExportsClass (plain "Tools"); ExportsObject None; ExportsClass (plain "UI")]
    empty_Core
  = (Throw (typeError "Cannot read properties of undefined (reading 'displayName')"),
     snd (constructModules [plain "Tools"] empty_Core)).
Proof.
  exact (proj2 (@module_without_class_aborts_construction
                  [ExportsClass (plain "Tools")] [plain "Tools"]
                  [ExportsClass (plain "UI")] empty_Core eq_refl)).
Defined.





(* ================================================================== *)
(** * How [start()] ends *)

Lemma prep_instance c name b :
  prep c name = b -> b <> NotCallable ->
  exists inst, instance_of c name = Some inst /\
               method (inst_class inst) "prepare" = b.
Proof.
  unfold prep. destruct (instance_of c name) as [inst|]; intros <- Hb.
  - now exists inst.
  - now destruct Hb.
Qed.

Lemma chain_result_Throw c l : forall e,
  chain_result c l = Throw e ->
  exists name e0,
    In name l /\ prep c name = Throws e0 /\ is_critical e0 = true /\
    e = mkError PlainError (message e0) /\
    In (Settled name "prepare" (Throws e0)) (chain_events c l).
Proof.
  induction l as [|a l IH]; intros e H; [discriminate|].
  cbn [chain_result chain_events] in *.
  destruct (prep c a) as [| |e0|] eqn:Hp; cbn [step_result step_events] in *.
  - destruct (IH e H) as (name & e1 & Hin & H1 & H2 & H3 & H4).
    exists name, e1. repeat split; auto; [now right|]. now right.
  - destruct (IH e H) as (name & e1 & Hin & H1 & H2 & H3 & H4).
    exists name, e1. repeat split; auto; [now right|]. now do 2 right.
  - destruct (is_critical e0) eqn:Hcrit.
    + injection H as <-. exists a, e0.
      repeat split; auto; [now left|]. right. now left.
    + destruct (IH e H) as (name & e1 & Hin & H1 & H2 & H3 & H4).
      exists name, e1. repeat split; auto; [now right|].
      cbn. do 3 right. assumption.
  - discriminate.
Qed.

Lemma chain_result_Normal c l :
  chain_result c l = Normal tt <->
  forall name, In name l -> step_result (prep c name) = Normal tt.
Proof.
  induction l as [|a l IH]; cbn [chain_result].
  - split; [intros _ name []|reflexivity].
  - destruct (step_result (prep c a)) as [[]|e|] eqn:Hs.
    + rewrite IH. split.
      * intros H name [<-|Hin]; auto.
      * intros H name Hin. apply H. now right.
    + split; [discriminate|]. intros H.
      specialize (H a (or_introl eq_refl)). congruence.
    + split; [discriminate|]. intros H.
      specialize (H a (or_introl eq_refl)). congruence.
Qed.

Lemma chain_attempted c l :
  chain_result c l = Normal tt ->
  forall name, In name l -> attempted c (chain_events c l) name.
Proof.
  induction l as [|a l IH]; intros H name Hin; [destruct Hin|].
  cbn [chain_result chain_events] in *.
  destruct (step_result (prep c a)) as [[]|e|] eqn:Hs; try discriminate.
  destruct (String.eqb a name) eqn:E.
  - apply String.eqb_eq in E. subst a. apply attempted_first.
  - apply attempted_app. destruct Hin as [->|Hin]; [|now apply IH].
    rewrite String.eqb_refl in E. discriminate.
Qed.

Lemma is_critical_class e : is_critical e = true <-> err_class e = CriticalError.
Proof.
  unfold is_critical. destruct (err_class e); split; congruence.
Qed.

(** X10. [start()] rejects only because a [prepare] of a listed module of
    the registry threw a CriticalError, and then with a plain Error that
    carries the message of that error, not with the error itself.  No
    other failure of a [prepare] (an error of another class, a module or
    a method that is missing) makes [start()] reject. *)
Theorem start_rejects_only_with_a_fatal_message c e :
  fst (start c) = Throw e ->
  exists name inst e0,
    In name modulesToPrepare /\
    instance_of c name = Some inst /\
    method (inst_class inst) "prepare" = Throws e0 /\
    err_class e0 = CriticalError /\
    e = mkError PlainError (message e0) /\
    In (Settled name "prepare" (Throws e0)) (trace (snd (start c))).
Proof.
  rewrite start_eq. cbn [fst snd trace emit_all]. intros H.
  destruct (chain_result_Throw _ _ H) as (name & e0 & Hin & Hp & Hcrit & He & Hev).
  destruct (prep_instance _ _ Hp ltac:(discriminate)) as (inst & Hinst & Hm).
  exists name, inst, e0. repeat split; auto.
  - now apply is_critical_class.
  - apply in_or_app. now right.
Qed.

Lemma start_rejects_only_with_a_fatal_message_witness :
  exists name inst e0,
    In name modulesToPrepare /\
    instance_of before_start_tools_fatal name = Some inst /\
    method (inst_class inst) "prepare" = Throws e0 /\
    err_class e0 = CriticalError /\
    mkError PlainError "tools are not configured" = mkError PlainError (message e0) /\
    In (Settled name "prepare" (Throws e0))
       (trace (snd (start before_start_tools_fatal))).
Proof.
  apply start_rejects_only_with_a_fatal_message.
  vm_compute. reflexivity.
Defined.

Lemma step_result_Normal c name :
  step_result (prep c name) = Normal tt <->
  forall inst,
    instance_of c name = Some inst ->
    method (inst_class inst) "prepare" <> NeverSettles /\
    forall e, method (inst_class inst) "prepare" = Throws e ->
              err_class e <> CriticalError.
Proof.
  unfold prep. destruct (instance_of c name) as [inst|].
  - split.
    + intros H ? [= <-]. destruct (method (inst_class inst) "prepare") as [| |e|];
        cbn in H; try discriminate; (split; [discriminate|]); try discriminate.
      intros ? [= <-] Hc. apply is_critical_class in Hc. now rewrite Hc in H.
    + intros H. destruct (H inst eq_refl) as [Hn Ht].
      destruct (method (inst_class inst) "prepare") as [| |e|]; cbn; auto.
      * destruct (is_critical e) eqn:Hc; [|reflexivity].
        apply is_critical_class in Hc. now destruct (Ht e eq_refl).
      * now destruct Hn.
  - split; [discriminate|reflexivity].
Qed.

(** X11. [start()] fulfils exactly when no [prepare] of a listed module
    of the registry stays pending or throws a CriticalError.  When it
    fulfils, all eight links have run: the [prepare] of every listed
    module that has one was called, and a listed module that is not in
    the registry was skipped with the warning of the [catch]. *)
Theorem start_fulfils_unless_fatal_or_pending c :
  (fst (start c) = Normal tt <->
   forall name inst,
     In name modulesToPrepare -> instance_of c name = Some inst ->
     method (inst_class inst) "prepare" <> NeverSettles /\
     forall e, method (inst_class inst) "prepare" = Throws e ->
               err_class e <> CriticalError) /\
  (fst (start c) = Normal tt ->
   forall name,
     In name modulesToPrepare ->
     (preparable c name = true ->
      In (Called name "prepare" []) (trace (snd (start c)))) /\
     (instance_of c name = None -> In (skipped name) (trace (snd (start c))))).
Proof.
  rewrite start_eq. cbn [fst snd trace emit_all]. split.
  - rewrite chain_result_Normal. split.
    + intros H name inst Hin. now apply step_result_Normal, H.
    + intros H name Hin. apply step_result_Normal. intros inst. now apply H.
  - intros H name Hin.
    assert (Ha := chain_attempted _ _ H name Hin).
    split.
    + intros Hp. apply in_or_app. right.
      now apply (attempted_preparable c).
    + intros Hnone. apply in_or_app. right.
      unfold attempted, preparable, prep in Ha. now rewrite Hnone in Ha.
Qed.

Lemma start_fulfils_unless_fatal_or_pending_witness :
  fst (start before_start_no_modules) = Normal tt /\
  In (skipped "Paste") (trace (snd (start before_start_no_modules))).
Proof.
  assert (H : fst (start before_start_no_modules) = Normal tt)
    by (vm_compute; reflexivity).
  split; [exact H|].
  apply (proj2 (start_fulfils_unless_fatal_or_pending before_start_no_modules) H "Paste").
  - do 3 right. left. reflexivity.
  - reflexivity.
Defined.

Lemma prepare_calls_quiet seg : forallb quiet seg = true -> prepare_calls seg = [].
Proof.
  induction seg as [|ev seg IH]; [reflexivity|].
  cbn [forallb]. intros H. apply andb_prop in H. destruct H as [Hq H].
  change (prepare_calls (ev :: seg)) with (prepare_calls ([ev] ++ seg)%list).
  rewrite prepare_calls_app, (IH H), app_nil_r.
  unfold quiet in Hq. apply andb_prop in Hq. destruct Hq as [_ Hp].
  destruct ev; try reflexivity. cbn in *.
  now destruct (String.eqb meth "prepare").
Qed.

Lemma In_firstn {A} (x : A) n : forall l, In x (firstn n l) -> In x l.
Proof.
  induction n as [|n IH]; intros [|a l] H; cbn in *; try contradiction.
  destruct H as [->|H]; auto.
Qed.

Lemma NoDup_firstn' {A} n : forall l : list A, NoDup l -> NoDup (firstn n l).
Proof.
  induction n as [|n IH]; intros [|a l] H; cbn; try constructor.
  - inversion H; subst. intros Hin. now apply In_firstn in Hin.
  - inversion H; subst. now apply IH.
Qed.

(** The calls of a [prepare] in a run are those of [start()]. *)
Lemma prepare_calls_new_Core modules document cfg :
  let c := new_Core modules document cfg in
  let c2 := snd (init modules (configured cfg)) in
  prepare_calls (trace c) = [] \/
  (moduleInstances c = moduleInstances c2 /\ heap c = heap c2 /\
   prepare_calls (trace c) = prepare_calls (chain_events c2 modulesToPrepare)).
Proof.
  cbv zeta.
  destruct (new_Core_cases modules document cfg)
    as [(e & _ & Hc)|(_ & tail & Hc & Htail)].
  - left. rewrite Hc, (configured_eq cfg). reflexivity.
  - right.
    assert (Hmi := f_equal moduleInstances Hc).
    assert (Hh := f_equal heap Hc).
    assert (Htr := f_equal trace Hc).
    cbn [moduleInstances heap trace with_isReady emit_all] in Hmi, Hh, Htr.
    split; [exact Hmi|]. split; [exact Hh|].
    rewrite Htr, init_configured. cbn [trace].
    rewrite !prepare_calls_app,
      (prepare_calls_quiet _ (construct_events_quiet modules 0)).
    cbn [app].
    assert (Ht : prepare_calls tail = []).
    { destruct Htail as [(e & _ & -> & _)|[(_ & -> & _)|(_ & s & Hq & [(-> & _)|(-> & _)])]];
        try reflexivity.
      - change (Logged "log" "I'm ready!" :: s ++ [OnReady])%list
          with ([Logged "log" "I'm ready!"] ++ s ++ [OnReady])%list.
        now rewrite !prepare_calls_app, (prepare_calls_quiet _ Hq).
      - change (Logged "log" "I'm ready!" :: s)%list
          with ([Logged "log" "I'm ready!"] ++ s)%list.
        now rewrite !prepare_calls_app, (prepare_calls_quiet _ Hq). }
    rewrite Ht, app_nil_r. reflexivity.
Qed.

(** X12. In a run, from the construction of the facade on, no module has
    its [prepare] called twice, and a [prepare] is called only on modules
    of the list of [start()] that are in the registry. *)
Theorem prepare_runs_at_most_once modules document cfg :
  let c := core (new_ModuleJS modules document cfg) in
  NoDup (prepare_calls (trace c)) /\
  forall name,
    In name (prepare_calls (trace c)) ->
    In name modulesToPrepare /\
    exists inst, instance_of c name = Some inst /\
                 method (inst_class inst) "prepare" <> NotCallable.
Proof.
  cbv zeta.
  destruct (new_ModuleJS_core modules document cfg) as (seg & -> & Hseg).
  cbn [trace emit_all]. unfold instance_of. cbn [moduleInstances heap emit_all].
  rewrite prepare_calls_app, (prepare_calls_quiet _ Hseg), app_nil_r.
  destruct (prepare_calls_new_Core modules document cfg) as [->|(Hmi & Hh & ->)].
  - split; [constructor|intros name []].
  - rewrite Hmi, Hh, prepare_calls_chain. split.
    + apply NoDup_filter, NoDup_firstn', NoDup_modulesToPrepare.
    + intros name Hin. apply filter_In in Hin. destruct Hin as [Hin Hp].
      split; [now apply In_firstn in Hin|].
      unfold preparable in Hp.
      destruct (prep _ name) as [| |e|] eqn:Hprep; try discriminate;
        destruct (prep_instance _ _ Hprep ltac:(discriminate)) as (inst & Hi & Hm);
        exists inst; (split; [exact Hi|]); rewrite Hm; discriminate.
Qed.

(* ================================================================== *)
(** * More on validation *)

Lemma validate_cases document c :
  let holderId := config_field c "holderId" in
  let holder := config_field c "holder" in
  validate document c =
  (if truthy holderId && truthy holder then Throw exclusive_fields_error
   else match holder with
        | VString id =>
            if existsb (String.eqb id) document then Normal tt
            else Throw (missing_element_error id)
        | VObject _ => Throw not_an_element_error
        | _ => Normal tt
        end, c).
Proof.
  cbv zeta. unfold validate, bind, get_state.
  destruct (truthy (config_field c "holderId") && truthy (config_field c "holder"));
    [reflexivity|].
  destruct (config_field c "holder") as [| |b|n|s|id|b|props]; cbn;
    try reflexivity.
  - destruct b; reflexivity.
  - destruct (negb (Z.eqb n 0)); reflexivity.
  - destruct (existsb (String.eqb s) document); cbn; [|reflexivity].
    destruct (negb (String.eqb s EmptyString)); reflexivity.
Qed.

(** X13. [validate()] accepts a configuration exactly when [holderId] and
    [holder] are not both set, a [holder] that is a string names an
    element of the document, and the [holder] is not a plain object.  So
    [holderId] is never looked up in the document, and a [holder] that is
    a number, a boolean or a function passes unchecked.  When it throws,
    the error is a plain Error; in both cases the state is untouched. *)
Theorem validate_accepts document c :
  (fst (validate document c) = Normal tt <->
   truthy (config_field c "holderId") && truthy (config_field c "holder") = false /\
   (forall id, config_field c "holder" = VString id -> In id document) /\
   (forall props, config_field c "holder" <> VObject props)) /\
  (forall e, fst (validate document c) = Throw e -> err_class e = PlainError) /\
  snd (validate document c) = c.
Proof.
  rewrite validate_cases. cbv zeta. cbn [fst snd].
  split; [|split; [|reflexivity]].
  - destruct (truthy (config_field c "holderId") && truthy (config_field c "holder")).
    { split; [discriminate|]. now intros [H _]. }
    destruct (config_field c "holder") as [| |b|n|s|id|b|props];
      try (split; [intros _|reflexivity]; repeat split; discriminate).
    + destruct (existsb (String.eqb s) document) eqn:E.
      * split; [intros _|reflexivity]. repeat split; [|discriminate].
        intros id [= <-]. now apply existsb_eqb_In.
      * split; [discriminate|]. intros (_ & H & _).
        apply (existsb_eqb_In s document) in H; [congruence|reflexivity].
    + split; [discriminate|]. intros (_ & _ & H). now destruct (H props).
  - intros e.
    destruct (truthy (config_field c "holderId") && truthy (config_field c "holder")).
    { now intros [= <-]. }
    destruct (config_field c "holder") as [| |b|n|s|id|b|props]; try discriminate.
    + destruct (existsb (String.eqb s) document); [discriminate|]. now intros [= <-].
    + now intros [= <-].
Qed.

(** X14. An error of [validate()] ends the run before [init()]: [isReady]
    and the facade's promise are rejected with that error, nothing is
    constructed or registered, the trace holds the error log and the call
    of [onFail] only, and the facade keeps the prototype of its class and
    gets no property besides [isReady]. *)
Theorem validation_error_aborts_before_init modules document cfg e :
  fst (validate document (configured cfg)) = Throw e ->
  let w := new_ModuleJS modules document cfg in
  let c := core w in
  isReady c = Rejected e /\
  ready w = Rejected e /\
  heap c = [] /\
  moduleInstances c = [] /\
  trace c = [not_ready_log e; OnFail e] /\
  own w = [("isReady", FIsReady)] /\
  proto w = ModuleJS_prototype.
Proof.
  intros Hv. cbv zeta.
  assert (Hc : new_Core modules document cfg =
               with_isReady (Rejected e)
                 (emit_all [not_ready_log e; OnFail e] (configured cfg))).
  { rewrite new_Core_eq, Hv. rewrite on_catch_eq.
    rewrite (configured_eq cfg). reflexivity. }
  rewrite (@new_ModuleJS_rejected modules document cfg e)
    by (now rewrite Hc).
  cbn [core ready own proto]. rewrite Hc, (configured_eq cfg).
  cbn [isReady heap moduleInstances trace with_isReady emit_all with_config
       empty_Core app].
  repeat split.
Qed.

Lemma validation_error_aborts_before_init_witness :
  ready (new_ModuleJS editor_modules page missing_holder)
  = Rejected (missing_element_error "nowhere") /\
  heap (core (new_ModuleJS editor_modules page missing_holder)) = [].
Proof.
  destruct (@validation_error_aborts_before_init editor_modules page
              missing_holder (missing_element_error "nowhere") eq_refl)
    as (_ & Hready & Hheap & _).
  split; [exact Hready | exact Hheap].
Defined.

(* ================================================================== *)
(** * What a settled [isReady] says about the run *)

Lemma render_Normal c c' :
  render c = (Normal tt, c') ->
  exists Renderer,
    instance_of c "Renderer" = Some Renderer /\
    method (inst_class Renderer) "render" = Returns /\
    nullish (config_field c "data") = false /\
    c' = emit_all [Called "Renderer" "render" [prop (config_field c "data") "blocks"];
                   Settled "Renderer" "render" Returns] c.
Proof.
  unfold render, bind, get_state.
  destruct (instance_of c "Renderer") as [Renderer|]; [|discriminate].
  destruct (nullish (config_field c "data")); [discriminate|].
  rewrite invoke_eq.
  destruct (method (inst_class Renderer) "render") eqn:Hm; cbn; try discriminate.
  intros [= <-]. exists Renderer. repeat split; assumption.
Qed.

Lemma focus_Normal c c' :
  focus c = (Normal tt, c') ->
  c' = emit_all [Called "Caret" "setToBlock" [];
                 Settled "Caret" "setToBlock" Returns;
                 Called "BlockManager" "highlightCurrentNode" [];
                 Settled "BlockManager" "highlightCurrentNode" Returns] c.
Proof.
  unfold focus, bind, get_state.
  destruct (instance_of c "Caret") as [Caret|]; [|discriminate].
  destruct (instance_of c "BlockManager") as [BlockManager|]; [|discriminate].
  destruct (negb (defined (inst_class BlockManager) "blocks")); [discriminate|].
  destruct (negb (defined (inst_class Caret) "positions")); [discriminate|].
  rewrite invoke_eq.
  destruct (method (inst_class Caret) "setToBlock"); cbn; try discriminate.
  rewrite invoke_eq.
  destruct (method (inst_class BlockManager) "highlightCurrentNode"); cbn;
    try discriminate.
  intros [= <-]. unfold emit_all. cbn. now rewrite <- app_assoc.
Qed.

Lemma on_timeout_Normal c c' :
  on_timeout c = (Normal tt, c') ->
  exists Renderer seg,
    instance_of c "Renderer" = Some Renderer /\
    method (inst_class Renderer) "render" = Returns /\
    nullish (config_field c "data") = false /\
    c' = with_isReady (settle (isReady c) Fulfilled)
           (emit_all (render_events (prop (config_field c "data") "blocks") seg) c) /\
    (truthy (config_field c "autofocus") = true ->
     In (Called "Caret" "setToBlock" []) seg /\
     In (Called "BlockManager" "highlightCurrentNode" []) seg).
Proof.
  unfold on_timeout. unfold bind at 1.
  destruct (render c) as [[[]|e|] c1] eqn:Hr; try discriminate.
  destruct (render_Normal _ Hr) as (Renderer & Hi & Hm & Hd & ->).
  unfold bind at 1, get_state. unfold bind at 1.
  change (config_field (emit_all _ c) "autofocus") with (config_field c "autofocus").
  destruct (truthy (config_field c "autofocus")).
  - match goal with
    | |- context [focus ?x] => destruct (focus x) as [[[]|e|] c2] eqn:Hf
    end; try discriminate.
    apply focus_Normal in Hf. subst c2.
    unfold onReady, modify. intros [= <-].
    exists Renderer,
      [Called "Caret" "setToBlock" [];
       Settled "Caret" "setToBlock" Returns;
       Called "BlockManager" "highlightCurrentNode" [];
       Settled "BlockManager" "highlightCurrentNode" Returns].
    split; [assumption|]. split; [assumption|]. split; [assumption|]. split.
    + unfold render_events, with_isReady, emit, emit_all.
      cbn [config moduleInstances heap isReady trace].
      rewrite <- !app_assoc. reflexivity.
    + intros _. split; [now left | do 2 right; now left].
  - unfold ret, onReady, modify. intros [= <-].
    exists Renderer, [].
    split; [assumption|]. split; [assumption|]. split; [assumption|]. split.
    + unfold render_events, with_isReady, emit, emit_all.
      cbn [config moduleInstances heap isReady trace app].
      rewrite <- !app_assoc. reflexivity.
    + discriminate.
Qed.

Lemma init_configured_fields modules cfg :
  config (snd (init modules (configured cfg))) = config (configured cfg) /\
  isReady (snd (init modules (configured cfg))) = Pending /\
  trace (snd (init modules (configured cfg))) = construct_events 0 modules.
Proof. rewrite init_configured. repeat split. Qed.

Lemma configured_fields cfg :
  isReady (configured cfg) = Pending /\ trace (configured cfg) = [] /\
  heap (configured cfg) = [] /\ moduleInstances (configured cfg) = [].
Proof. rewrite (configured_eq cfg). repeat split. Qed.

Lemma on_timeout_not_Normal c r c' :
  on_timeout c = (r, c') -> r <> Normal tt ->
  exists seg, c' = emit_all seg c /\ forallb quiet seg = true.
Proof.
  intros Hon Hr.
  destruct (on_timeout_cases c) as [(seg & Hon' & _)|(r' & seg & _ & Hon' & Hq)];
    rewrite Hon in Hon'.
  - injection Hon' as -> _. now destruct Hr.
  - injection Hon' as _ ->. now exists seg.
Qed.


(** X15. [isReady] is fulfilled only at the end of a complete run:
    [validate()] returned, [start()] fulfilled, the configuration carries
    a [data] payload, the registry holds a Renderer, and its [render] was
    called once with [data.blocks] and returned, after the log of
    readiness and before the call of [onReady]; with [autofocus], the
    caret was placed in between. *)
Theorem fulfilled_readiness_means_rendered modules document cfg :
  let c := new_Core modules document cfg in
  let c2 := snd (init modules (configured cfg)) in
  let blocks := prop (config_field (configured cfg) "data") "blocks" in
  isReady c = Fulfilled ->
  fst (validate document (configured cfg)) = Normal tt /\
  fst (start c2) = Normal tt /\
  nullish (config_field (configured cfg) "data") = false /\
  (exists Renderer,
      instance_of c "Renderer" = Some Renderer /\
      method (inst_class Renderer) "render" = Returns) /\
  exists seg,
    trace c = (construct_events 0 modules ++ ready_events c2 blocks seg)%list /\
    (truthy (config_field (configured cfg) "autofocus") = true ->
     In (Called "Caret" "setToBlock" []) seg /\
     In (Called "BlockManager" "highlightCurrentNode" []) seg).
Proof.
  cbv zeta. intros Hf.
  destruct (init_configured_fields modules cfg) as (Hcfg & Hp2 & Htr2).
  destruct (configured_fields cfg) as (Hp1 & _).
  rewrite start_eq. cbn [fst].
  rewrite new_Core_eq in Hf |- *. cbv zeta in Hf |- *.
  destruct (fst (validate document (configured cfg))) as [[]|e|] eqn:Hv.
  2:{ rewrite on_catch_eq in Hf. cbn in Hf. rewrite Hp1 in Hf. discriminate. }
  2:{ rewrite Hp1 in Hf. discriminate. }
  destruct (chain_result _ modulesToPrepare) as [[]|e|] eqn:Hres.
  2:{ rewrite on_catch_eq in Hf. cbn in Hf. rewrite Hp2 in Hf. discriminate. }
  2:{ cbn in Hf. rewrite Hp2 in Hf. discriminate. }
  match type of Hf with
  | context [on_timeout ?x] =>
      set (X := x) in *; destruct (on_timeout X) as [[[]|e|] c'] eqn:Hon
  end.
  2:{ destruct (on_timeout_not_Normal _ Hon ltac:(discriminate)) as (seg & -> & _).
      cbn in Hf. rewrite Hp2 in Hf. discriminate. }
  2:{ destruct (on_timeout_not_Normal _ Hon ltac:(discriminate)) as (seg & -> & _).
      cbn in Hf. rewrite Hp2 in Hf. discriminate. }
  destruct (on_timeout_Normal _ Hon) as (Renderer & seg & Hi & Hm & Hd & -> & Hfocus).
  assert (HX : config_field X "data" = config_field (configured cfg) "data").
  { unfold config_field, X. cbn [config emit emit_all]. now rewrite Hcfg. }
  assert (HXa : config_field X "autofocus" = config_field (configured cfg) "autofocus").
  { unfold config_field, X. cbn [config emit emit_all]. now rewrite Hcfg. }
  rewrite HX in *. rewrite HXa in *.
  split; [reflexivity|]. split; [reflexivity|]. split; [exact Hd|]. split.
  - exists Renderer. split; [exact Hi | exact Hm].
  - exists seg. split; [|exact Hfocus].
    unfold X, ready_events.
    cbn [trace with_isReady emit emit_all]. rewrite Htr2.
    rewrite <- !app_assoc. reflexivity.
Qed.

Lemma fulfilled_readiness_means_rendered_witness :
  exists Renderer,
    instance_of (new_Core editor_modules page with_payload) "Renderer"
    = Some Renderer /\
    method (inst_class Renderer) "render" = Returns.
Proof.
  destruct (@fulfilled_readiness_means_rendered editor_modules page with_payload
              ltac:(vm_compute; reflexivity)) as (_ & _ & _ & H & _).
  exact H.
Defined.



(* ================================================================== *)
(** * What the facade exports, and when *)

Lemma no_onReady_call_in_Core modules document cfg args :
  ~ In (Called "configuration" "onReady" args) (trace (new_Core modules document cfg)).
Proof.
  intros H.
  assert (Hall := core_events_new_Core modules document cfg).
  rewrite forallb_forall in Hall. specialize (Hall _ H). discriminate.
Qed.

(** The constructor of the facade, by the outcome of [isReady]. *)
Lemma new_ModuleJS_cases modules document cfg :
  let c := new_Core modules document cfg in
  let this := mkModuleJS c true [("isReady", FIsReady)] ModuleJS_prototype Pending in
  let half := with_own (exported_fields c) this in
  new_ModuleJS modules document cfg =
  match isReady c with
  | Pending => this
  | Rejected e => with_ready (Rejected e) this
  | Fulfilled =>
      match instance_of c "API" with
      | None =>
          with_ready
            (Rejected (typeError "Cannot read properties of undefined (reading 'methods')"))
            half
      | Some API =>
          match methods (inst_class API) with
          | None =>
              with_ready
                (Rejected (typeError "Object prototype may only be an Object or null"))
                half
          | Some names =>
              let full := with_proto (API_methods names) half in
              let called :=
                with_core (emit_all (invoke_events "configuration" "onReady" []
                                                   (user_onReady cfg)) c) full in
              match invoke_result "onReady" (user_onReady cfg) with
              | Normal _ => with_ready Fulfilled called
              | Throw e => with_ready (Rejected e) called
              | Hang => called
              end
          end
      end
  end.
Proof.
  cbv zeta. unfold new_ModuleJS. cbv zeta. cbn [core].
  destruct (isReady (new_Core modules document cfg)); try reflexivity.
  unfold bind. rewrite exportAPI_eq. cbv zeta. cbn [core].
  destruct (instance_of (new_Core modules document cfg) "API") as [API|];
    [|reflexivity].
  destruct (methods (inst_class API)) as [names|]; [|reflexivity].
  unfold on_core. cbn [core with_own with_proto]. rewrite invoke_eq.
  destruct (invoke_result "onReady" (user_onReady cfg)); reflexivity.
Qed.

(** X17. The facade follows [isReady] of its [Core].  While [isReady] is
    not fulfilled nothing is exported: the facade has its [isReady]
    property only, the prototype of its class, and a promise in the state
    of the one of the [Core].  The facade's promise is fulfilled only when
    [isReady] is, the registry holds an API module with its [methods],
    which are then the prototype, [configuration] and [destroy] have been
    added, and the caller's [onReady] has returned.  The caller's
    [onReady] is called only after that export. *)
Theorem facade_follows_readiness modules document cfg :
  let w := new_ModuleJS modules document cfg in
  let c := new_Core modules document cfg in
  (isReady c <> Fulfilled ->
   ready w = isReady c /\ core w = c /\
   own w = [("isReady", FIsReady)] /\ proto w = ModuleJS_prototype) /\
  (ready w = Fulfilled ->
   isReady c = Fulfilled /\ user_onReady cfg = Returns /\
   trace (core w) = (trace c ++ user_onReady_events)%list) /\
  (forall args,
      In (Called "configuration" "onReady" args) (trace (core w)) ->
      isReady c = Fulfilled /\
      own w = exported_fields c /\
      exists API names,
        instance_of c "API" = Some API /\
        methods (inst_class API) = Some names /\
        proto w = API_methods names).
Proof.
  cbv zeta. rewrite new_ModuleJS_cases. cbv zeta.
  assert (Hno := no_onReady_call_in_Core modules document cfg).
  destruct (isReady (new_Core modules document cfg)) as [| |e] eqn:Hr.
  - split; [intros _; repeat split|]. split; [discriminate|].
    intros args H. now apply Hno in H.
  - split; [intros H; now destruct H|].
    destruct (instance_of (new_Core modules document cfg) "API") as [API|];
      [destruct (methods (inst_class API)) as [names|] eqn:Hm|].
    + unfold invoke_result, invoke_events.
      destruct (user_onReady cfg) as [| |e|]; cbn [ready with_ready with_core core
                                                   trace emit_all own proto with_own with_proto].
      * split; [discriminate|]. intros args H. rewrite app_nil_r in H.
        now apply Hno in H.
      * split; [intros _; repeat split|].
        intros args _. split; [reflexivity|]. split; [reflexivity|].
        exists API, names. repeat split. exact Hm.
      * split; [discriminate|].
        intros args _. split; [reflexivity|]. split; [reflexivity|].
        exists API, names. repeat split. exact Hm.
      * split; [discriminate|].
        intros args _. split; [reflexivity|]. split; [reflexivity|].
        exists API, names. repeat split. exact Hm.
    + split; [discriminate|]. intros args H. now apply Hno in H.
    + split; [discriminate|]. intros args H. now apply Hno in H.
  - split; [intros _; repeat split|]. split; [discriminate|].
    intros args H. now apply Hno in H.
Qed.

(** X18. When [isReady] is fulfilled and the registry holds no API module,
    [exportAPI] throws while reading [API.methods], after it has copied
    [configuration] and stored [destroy]: the facade's promise is rejected
    with the TypeError although the [Core] is ready, the caller's
    [onReady] is not called, and the facade is left half exported, with
    [configuration] and [destroy] of its own and the prototype of its
    class, [exportAPI] included. *)
Theorem missing_API_rejects_the_facade modules document cfg :
  let w := new_ModuleJS modules document cfg in
  let c := new_Core modules document cfg in
  isReady c = Fulfilled ->
  instance_of c "API" = None ->
  ready w
  = Rejected (typeError "Cannot read properties of undefined (reading 'methods')") /\
  core w = c /\
  own w = exported_fields c /\
  proto w = ModuleJS_prototype /\
  resolve w "destroy" = ROwn FDestroy /\
  resolve w "exportAPI" = RClassMethod.
Proof.
  cbv zeta. intros Hr HAPI. rewrite new_ModuleJS_cases. cbv zeta.
  rewrite Hr, HAPI. repeat split.
Qed.

Lemma missing_API_rejects_the_facade_witness :
  ready (new_ModuleJS editor_modules_without_API page with_payload)
  = Rejected (typeError "Cannot read properties of undefined (reading 'methods')") /\
  isReady (new_Core editor_modules_without_API page with_payload) = Fulfilled.
Proof.
  assert (Hr : isReady (new_Core editor_modules_without_API page with_payload)
               = Fulfilled) by (vm_compute; reflexivity).
  assert (HAPI : instance_of (new_Core editor_modules_without_API page with_payload)
                             "API" = None) by (vm_compute; reflexivity).
  split; [|exact Hr].
  exact (proj1 (@missing_API_rejects_the_facade editor_modules_without_API page
                  with_payload Hr HAPI)).
Defined.

(* ================================================================== *)
(** * More on the teardown *)

Lemma dispose_events_emit_all seg c r :
  dispose_events (emit_all seg c) r = dispose_events c r.
Proof. reflexivity. Qed.

Lemma destroy_instance_events r w :
  disposes (core w) r = true ->
  destroy_instance r w
  = (Normal tt, with_core (emit_all (dispose_events (core w) r) (core w)) w).
Proof.
  unfold disposes, dispose_events, destroy_instance.
  unfold bind at 1, get_state at 1.
  destruct (nth_error (heap (core w)) r) as [moduleInstance|]; [|discriminate].
  cbv zeta. intros H. apply andb_prop in H. destruct H as [H Hremove].
  apply andb_prop in H. destruct H as [Hdestroy Hlisteners].
  rewrite Hlisteners.
  destruct (method (inst_class moduleInstance) "listeners.removeAll");
    try discriminate.
  destruct (method (inst_class moduleInstance) "destroy"); try discriminate;
    unfold bind, ret, on_core; rewrite ?invoke_eq; cbn [core with_core];
    rewrite ?invoke_eq, ?emit_all_app; destruct w; reflexivity.
Qed.

Lemma teardown_events rs : forall w,
  forallb (disposes (core w)) rs = true ->
  forEach rs destroy_instance w
  = (Normal tt,
     with_core (emit_all (flat_map (dispose_events (core w)) rs) (core w)) w).
Proof.
  induction rs as [|r rs IH]; intros w H; cbn [forEach flat_map forallb] in *.
  - unfold ret. rewrite emit_all_nil. now destruct w.
  - apply andb_prop in H. destruct H as [Hr Hrs].
    unfold bind. rewrite (destroy_instance_events r w Hr).
    rewrite IH by exact Hrs. cbn [core with_core].
    rewrite emit_all_app. now destruct w.
Qed.

(** X19. A [destroy()] in which every disposal returns goes through the
    instances of the registry in its order and, for each, calls its
    [destroy] if it has one and then [removeAll] of its listeners; nothing
    else is called.  The [Core] keeps its registry, its instances and its
    configuration: only the closure's reference to it is dropped. *)
Theorem destroy_disposes_in_registry_order w :
  Module_bound w = true ->
  forallb (disposes (core w)) (values (moduleInstances (core w))) = true ->
  exists w',
    destroy w = (Normal tt, w') /\
    trace (core w')
    = (trace (core w) ++
       flat_map (dispose_events (core w)) (values (moduleInstances (core w))))%list /\
    moduleInstances (core w') = moduleInstances (core w) /\
    heap (core w') = heap (core w) /\
    config (core w') = config (core w) /\
    isReady (core w') = isReady (core w).
Proof.
  intros Hb Hd. unfold destroy. unfold bind at 1, get_state at 1.
  rewrite Hb. cbn [negb]. unfold bind at 1.
  rewrite (teardown_events _ w Hd).
  unfold bind at 1, modify at 1. unfold bind at 1, get_state at 1.
  unfold bind at 1. rewrite strip_loop_eq. unfold modify.
  eexists. split; [reflexivity|]. repeat split.
Qed.

Lemma destroy_disposes_in_registry_order_witness :
  exists w',
    destroy live_facade = (Normal tt, w') /\
    moduleInstances (core w') = moduleInstances (core live_facade).
Proof.
  destruct (destroy_disposes_in_registry_order live_facade
              ltac:(vm_compute; reflexivity) ltac:(vm_compute; reflexivity))
    as (w' & Hd & _ & Hmi & _).
  exists w'. split; [exact Hd | exact Hmi].
Defined.


Lemma destroy_fails w r w' :
  destroy w = (r, w') -> r <> Normal tt -> exists c', w' = with_core c' w.
Proof.
  unfold destroy. unfold bind at 1, get_state at 1.
  destruct (Module_bound w); cbn [negb].
  2:{ unfold throw. intros [= <- <-] _. exists (core w). now destruct w. }
  destruct (core_only_forEach (values (moduleInstances (core w))) destroy_instance
              core_only_destroy_instance w) as (r0 & c' & Hloop).
  unfold bind at 1. rewrite Hloop.
  destruct r0 as [[]|e|].
  - unfold bind at 1, modify at 1. unfold bind at 1, get_state at 1.
    unfold bind at 1. rewrite strip_loop_eq. unfold modify.
    intros [= <- _] H. now destruct H.
  - intros [= _ <-] _. now exists c'.
  - intros [= _ <-] _. now exists c'.
Qed.

(** X20. A [destroy()] that does not return, because a disposal throws or
    never returns, or because the closure has run before, strips nothing:
    the facade keeps its own properties, its prototype and its promise,
    and the closure its reference to the [Core], so that [destroy] can be
    called again. *)
Theorem failed_destroy_strips_nothing w :
  fst (destroy w) <> Normal tt ->
  own (snd (destroy w)) = own w /\
  proto (snd (destroy w)) = proto w /\
  ready (snd (destroy w)) = ready w /\
  Module_bound (snd (destroy w)) = Module_bound w.
Proof.
  intros H.
  destruct (@destroy_fails w (fst (destroy w)) (snd (destroy w))
              (surjective_pairing _) H) as (c' & ->).
  repeat split.
Qed.

Lemma failed_destroy_strips_nothing_witness :
  fst (destroy stuck_facade) = Throw paste_error /\
  own (snd (destroy stuck_facade)) = own stuck_facade.
Proof.
  assert (H : fst (destroy stuck_facade) = Throw paste_error)
    by (vm_compute; reflexivity).
  split; [exact H|].
  apply (failed_destroy_strips_nothing stuck_facade).
  rewrite H. discriminate.
Defined.

(* ================================================================== *)
(** * Errors of the timer callback, and configurations that are no objects *)

(** X22. An error thrown in the callback of the timer, by [render()] or
    by the caret placement, is lost: readiness has been logged, but
    neither function of [isReady] is called, [isReady] and the facade's
    promise stay pending, and nothing is exported. *)
Theorem timer_callback_errors_are_lost modules document cfg e :
  let booted := boot modules document cfg empty_Core in
  let w := new_ModuleJS modules document cfg in
  fst booted = Normal tt ->
  fst (on_timeout (snd booted)) = Throw e ->
  isReady (core w) = Pending /\
  ready w = Pending /\
  settle_calls (trace (core w)) = [] /\
  In (Logged "log" "I'm ready!") (trace (core w)) /\
  last (trace (core w)) OnReady = Unhandled e /\
  own w = [("isReady", FIsReady)] /\
  proto w = ModuleJS_prototype.
Proof.
  cbv zeta. intros Hboot Hon.
  destruct (boot modules document cfg empty_Core) as [r c] eqn:Hb.
  cbn [fst snd] in *. subst r.
  destruct (on_timeout c) as [r c'] eqn:Ht. cbn [fst] in Hon. subst r.
  destruct (timer_callback_error_is_unhandled modules document cfg Hb Ht)
    as (Hnew & Hp & Hs).
  assert (Hw : new_ModuleJS modules document cfg
               = mkModuleJS (new_Core modules document cfg) true
                            [("isReady", FIsReady)] ModuleJS_prototype Pending).
  { rewrite new_ModuleJS_cases. cbv zeta. now rewrite Hp. }
  rewrite Hw. cbn [core ready own proto].
  split; [exact Hp|]. split; [reflexivity|]. split; [exact Hs|].
  rewrite Hnew. cbn [trace emit].
  split; [|split; [apply last_last | split; reflexivity]].
  apply in_or_app. left.
  destruct (on_timeout_not_Normal _ Ht ltac:(discriminate)) as (seg & -> & _).
  cbn [trace emit_all]. apply in_or_app. left.
  rewrite boot_eq in Hb.
  destruct (fst (validate document (configured cfg))) as [[]|e0|]; try discriminate.
  cbv zeta in Hb.
  destruct (chain_result _ modulesToPrepare) as [[]|e0|]; try discriminate.
  injection Hb as <-. cbn [trace emit]. apply in_or_app. right. now left.
Qed.

Lemma timer_callback_errors_are_lost_witness :
  isReady (core (new_ModuleJS editor_modules_render_fails page with_payload))
  = Pending /\
  last (trace (core (new_ModuleJS editor_modules_render_fails page with_payload)))
       OnReady
  = Unhandled render_error.
Proof.
  destruct (@timer_callback_errors_are_lost editor_modules_render_fails page
              with_payload render_error
              ltac:(vm_compute; reflexivity) ltac:(vm_compute; reflexivity))
    as (Hp & _ & _ & _ & Hl & _).
  split; [exact Hp | exact Hl].
Defined.

(** X23. A configuration that is not an object is the [holder]: the run
    and the facade are those of the configuration [{holder: value}].  So
    the identifier of an element given as a string, and no configuration
    at all, are shorthands. *)
Theorem bare_configuration_is_the_holder modules document v :
  Utils.isObject v = false ->
  new_Core modules document v
  = new_Core modules document (VObject [("holder", v)]) /\
  new_ModuleJS modules document v
  = new_ModuleJS modules document (VObject [("holder", v)]).
Proof.
  intros Hv.
  assert (Hc : new_Core modules document v
               = new_Core modules document (VObject [("holder", v)])).
  { unfold new_Core, boot, set_configuration. rewrite Hv. reflexivity. }
  split; [exact Hc|].
  unfold new_ModuleJS. rewrite <- Hc.
  replace (user_onReady (VObject [("holder", v)])) with (user_onReady v);
    [reflexivity|].
  unfold user_onReady. rewrite Hv. reflexivity.
Qed.

Lemma bare_configuration_is_the_holder_witness :
  new_ModuleJS editor_modules page (VString "editor-holder")
  = new_ModuleJS editor_modules page holder_only.
Proof.
  exact (proj2 (@bare_configuration_is_the_holder editor_modules page
                  (VString "editor-holder") eq_refl)).
Defined.

(* ================================================================== *)
(** * The public surface of an exported facade *)

Lemma new_ModuleJS_fulfilled modules document cfg :
  let c := new_Core modules document cfg in
  ready (new_ModuleJS modules document cfg) = Fulfilled ->
  exists API names,
    instance_of c "API" = Some API /\
    methods (inst_class API) = Some names /\
    new_ModuleJS modules document cfg
    = mkModuleJS (emit_all user_onReady_events c) true (exported_fields c)
                 (API_methods names) Fulfilled.
Proof.
  cbv zeta. rewrite new_ModuleJS_cases. cbv zeta.
  destruct (isReady (new_Core modules document cfg)); try discriminate.
  destruct (instance_of (new_Core modules document cfg) "API") as [API|];
    [|discriminate].
  destruct (methods (inst_class API)) as [names|] eqn:Hm; [|discriminate].
  unfold invoke_result, invoke_events.
  destruct (user_onReady cfg); try discriminate.
  intros _. exists API, names. repeat split. exact Hm.
Qed.

(** X24. On a facade whose promise is fulfilled, [isReady],
    [configuration] and [destroy] are its own properties, and
    [configuration] is the object the [Core] holds; every other name
    resolves through [API.methods]: a name of [API.methods] is delegated,
    any other name is undefined, so that calling it throws.  [exportAPI]
    itself is no longer reachable, the prototype of the class being
    replaced, unless [API.methods] has a method of that name. *)
Theorem exported_facade_surface modules document cfg :
  let w := new_ModuleJS modules document cfg in
  let c := new_Core modules document cfg in
  ready w = Fulfilled ->
  exists names,
    proto w = API_methods names /\
    keys (own w) = exported_names /\
    resolve w "isReady" = ROwn FIsReady /\
    resolve w "configuration" = ROwn (FConfiguration (config c)) /\
    resolve w "destroy" = ROwn FDestroy /\
    (forall name,
        ~ In name exported_names ->
        (In name names ->
         resolve w name = RDelegated /\
         facade_call name w
         = (Normal tt, with_core (emit (Delegated name) (core w)) w)) /\
        (~ In name names ->
         resolve w name = RUndefined /\
         facade_call name w = (Throw (typeError (name ++ " is not a function")), w))).
Proof.
  cbv zeta. intros Hr.
  destruct (new_ModuleJS_fulfilled modules document cfg Hr)
    as (API & names & _ & _ & ->).
  exists names. split; [reflexivity|]. split; [reflexivity|].
  split; [reflexivity|]. split; [reflexivity|]. split; [reflexivity|].
  intros name Hname.
  assert (Hget : get (exported_fields (new_Core modules document cfg)) name = None).
  { destruct (get _ name) eqn:Hg; [|reflexivity].
    apply get_In_keys in Hg. now destruct Hname. }
  unfold facade_call, bind, get_state, resolve. cbn [own proto]. rewrite Hget.
  split; intros Hin.
  - apply existsb_eqb_In in Hin. rewrite Hin. split; reflexivity.
  - destruct (existsb (String.eqb name) names) eqn:E.
    + apply existsb_eqb_In in E. contradiction.
    + split; reflexivity.
Qed.

Lemma exported_facade_surface_witness :
  exists names,
    proto live_facade = API_methods names /\
    resolve live_facade "destroy" = ROwn FDestroy.
Proof.
  destruct (@exported_facade_surface editor_modules page with_payload
              ltac:(vm_compute; reflexivity))
    as (names & Hp & _ & _ & _ & Hd & _).
  exists names. split; [exact Hp | exact Hd].
Defined.

(* ================================================================== *)
(** * The order of the phases *)

Lemma appends_after_construction_on_timeout : appends after_construction on_timeout.
Proof.
  unfold on_timeout. apply appends_bind.
  - unfold render. apply appends_get. intros c0.
    destruct (instance_of c0 "Renderer"); [|apply appends_throw].
    destruct (nullish _); [apply appends_throw|].
    apply appends_invoke; simpl; auto.
  - intros _. apply appends_get. intros c0. apply appends_bind.
    + destruct (truthy _); [|apply appends_ret].
      unfold focus. apply appends_get. intros c1.
      destruct (instance_of c1 "Caret"); [|apply appends_throw].
      destruct (instance_of c1 "BlockManager"); [|apply appends_throw].
      destruct (negb _); [apply appends_throw|].
      destruct (negb _); [apply appends_throw|].
      apply appends_bind; [|intros _]; apply appends_invoke; simpl; auto.
    + intros _. unfold onReady. intros c. exists [OnReady]. split; reflexivity.
Qed.

Lemma chain_events_after_construction c l :
  forallb after_construction (chain_events c l) = true.
Proof.
  induction l as [|a l IH]; [reflexivity|].
  cbn [chain_events]. rewrite forallb_app. apply andb_true_intro. split.
  - unfold step_events, skipped. destruct (prep c a) as [| |e|]; try reflexivity.
    cbn. now destruct (is_critical e).
  - now destruct (step_result (prep c a)).
Qed.

Lemma construct_events_no_call l : forall n name meth args,
  ~ In (Called name meth args) (construct_events n l).
Proof.
  intros n name meth args H. apply construct_events_In in H.
  destruct H as [(? & ? & H)|(? & H)]; discriminate.
Qed.

(** The trace of a run: the events of the construction, in [init()], and
    then events that are no construction. *)
Lemma new_Core_phases modules document cfg :
  exists built_ rest,
    trace (new_Core modules document cfg) = (built_ ++ rest)%list /\
    (forall name meth args, ~ In (Called name meth args) built_) /\
    forallb after_construction rest = true.
Proof.
  destruct (init_configured_fields modules cfg) as (_ & _ & Htr2).
  destruct (configured_fields cfg) as (_ & Htr1 & _).
  rewrite new_Core_eq.
  destruct (fst (validate document (configured cfg))) as [[]|e|].
  - cbv zeta. exists (construct_events 0 modules).
    destruct (chain_result _ modulesToPrepare) as [[]|e|].
    + match goal with
      | |- context [on_timeout ?x] =>
          destruct (appends_after_construction_on_timeout x) as (seg & Hseg & Hq);
          destruct (on_timeout x) as [[[]|e|] c']
      end; cbn [snd] in Hseg; cbn [trace emit emit_all] in *;
        rewrite Hseg, Htr2; eexists;
        (split; [rewrite <- !app_assoc; reflexivity|]);
        (split; [apply construct_events_no_call|]);
        rewrite !forallb_app, chain_events_after_construction, Hq; reflexivity.
    + rewrite on_catch_eq. cbn [trace with_isReady emit_all]. rewrite Htr2.
      eexists. split; [rewrite <- !app_assoc; reflexivity|].
      split; [apply construct_events_no_call|].
      now rewrite forallb_app, chain_events_after_construction.
    + cbn [trace emit_all]. rewrite Htr2.
      eexists. split; [reflexivity|].
      split; [apply construct_events_no_call|].
      apply chain_events_after_construction.
  - rewrite on_catch_eq. cbn [trace with_isReady emit_all]. rewrite Htr1.
    exists [], [not_ready_log e; OnFail e]. repeat split. intros ? ? ? [].
  - rewrite Htr1. exists [], []. repeat split. intros ? ? ? [].
Qed.

Lemma split_before {A} (x : A) (P : A -> bool) : forall l1 l2 front rest,
  (front ++ rest)%list = (l1 ++ x :: l2)%list ->
  forallb P rest = true -> P x = false ->
  exists more, front = (l1 ++ x :: more)%list.
Proof.
  induction l1 as [|a l1 IH]; intros l2 front rest Heq Hrest Hx.
  - destruct front as [|b front]; cbn in Heq.
    + subst rest. cbn in Hrest. now rewrite Hx in Hrest.
    + injection Heq as -> _. now exists front.
  - destruct front as [|b front]; cbn in Heq.
    + subst rest. cbn in Hrest. apply andb_prop in Hrest. destruct Hrest as [_ Hrest].
      rewrite forallb_app in Hrest. apply andb_prop in Hrest.
      destruct Hrest as [_ Hrest]. cbn in Hrest. now rewrite Hx in Hrest.
    + injection Heq as -> Heq.
      destruct (IH _ _ _ Heq Hrest Hx) as (more & ->). now exists more.
Qed.

(** X25. In a run every module is constructed before the first call into
    a module: no [prepare], [render] or caret call precedes the
    construction of any module, whatever the modules do. *)
Theorem construction_precedes_every_call modules document cfg :
  forall before name r after,
    trace (new_Core modules document cfg)
    = (before ++ Constructed name r :: after)%list ->
    forall callee meth args, ~ In (Called callee meth args) before.
Proof.
  intros before name r after Htr callee meth args Hin.
  destruct (new_Core_phases modules document cfg) as (front & rest & Heq & Hno & Hrest).
  rewrite Heq in Htr.
  destruct (split_before (Constructed name r) after_construction
              before after front rest Htr Hrest eq_refl) as (more & ->).
  apply (Hno callee meth args). apply in_or_app. now left.
Qed.

Lemma construction_precedes_every_call_witness :
  trace (new_Core (map plain ["Tools"; "UI"]) page with_payload)
  = ([Constructed "Tools" 0] ++ Constructed "UI" 1 ::
     skipn 2 (trace (new_Core (map plain ["Tools"; "UI"]) page with_payload)))%list /\
  ~ In (Called "Tools" "prepare" []) [Constructed "Tools" 0].
Proof.
  assert (H : trace (new_Core (map plain ["Tools"; "UI"]) page with_payload)
              = ([Constructed "Tools" 0] ++ Constructed "UI" 1 ::
                 skipn 2 (trace (new_Core (map plain ["Tools"; "UI"]) page
                                          with_payload)))%list)
    by (vm_compute; reflexivity).
  split; [exact H|].
  exact (@construction_precedes_every_call (map plain ["Tools"; "UI"]) page
           with_payload [Constructed "Tools" 0] "UI" 1 _ H "Tools" "prepare" []).
Defined.
